(** * Source synchronisation and canonicalisation pipeline

    A shallow embedding of the background workers of the manga tracker
    (BullMQ processors over a Prisma store) together with the request-side
    health gate, and the properties of the pipeline that the design
    document states about them.

    Conventions.
    - Instants are [Z] milliseconds since the epoch ([Date.now()]); one
      instant is read per handler run.
    - A table is the list of its rows.  [findUnique]/[findFirst] return the
      first matching row, [update]/[updateMany] rewrite every matching row.
    - A BullMQ handler either returns or throws; the queue retries a job
      whose handler threw while attempts remain.
    - An object literal used as a lookup table ([scrapers],
      [updatesByPriority]) is indexed with a string from a row: besides
      its own keys the lookup finds the members every object inherits
      from [Object.prototype] ([Js.inherited]).
    - Database calls succeed.  Queue submissions and Redis commands can
      reject; the environment of each handler says whether they do.
    - Effects that leave the process (scraper calls, queue submissions,
      broadcasts, [console.warn]/[console.error] lines) are recorded in a
      trace; [console.log] lines are not. *)

From Stdlib Require Import ZArith QArith String Ascii List Bool Lia DecimalString.
From stdpp Require Import base tactics option list strings.
Import ListNotations.
Local Open Scope string_scope.
Local Open Scope list_scope.
Local Open Scope Z_scope.

(* ================================================================== *)
(** * JavaScript values and helpers *)
(* ================================================================== *)

Module Js.

(** [x || y] on optional strings: [undefined], [null] and the empty
    string are falsy. *)
Definition truthy (o : option string) : bool :=
  match o with
  | Some (String _ _) => true
  | _ => false
  end.

Definition or (a b : option string) : option string :=
  if truthy a then a else b.

(** Template-literal rendering of an integer ([`${n}`]). *)
Definition of_Z (z : Z) : string := NilZero.string_of_int (Z.to_int z).

Definition lower_ascii (c : ascii) : ascii :=
  let n := N_of_ascii c in
  if ((65 <=? n) && (n <=? 90))%N then ascii_of_N (n + 32) else c.

(** [String.prototype.toLowerCase] on the ASCII range. *)
Fixpoint toLowerCase (s : string) : string :=
  match s with
  | EmptyString => EmptyString
  | String c r => String (lower_ascii c) (toLowerCase r)
  end.

(** [Array.prototype.includes] / [Set.prototype.has] on strings. *)
Fixpoint has (l : list string) (k : string) : bool :=
  match l with
  | [] => false
  | x :: r => if String.eqb x k then true else has r k
  end.

(** The property names an object literal inherits from
    [Object.prototype]; each of them names a truthy value (a function, or
    the prototype itself for [__proto__]). *)
Definition OBJECT_PROTOTYPE : list string :=
  ["constructor"; "__defineGetter__"; "__defineSetter__"; "hasOwnProperty";
   "__lookupGetter__"; "__lookupSetter__"; "isPrototypeOf";
   "propertyIsEnumerable"; "toString"; "valueOf"; "__proto__";
   "toLocaleString"].

Definition inherited (key : string) : bool := has OBJECT_PROTOTYPE key.

(** [String.prototype.includes]. *)
Fixpoint includes (s sub : string) : bool :=
  String.prefix sub s
  || match s with
     | String _ r => includes r sub
     | EmptyString => false
     end.

Definition is_hex (c : ascii) : bool :=
  let n := N_of_ascii c in
  (((48 <=? n) && (n <=? 57)) || ((65 <=? n) && (n <=? 70))
   || ((97 <=? n) && (n <=? 102)))%N.

Fixpoint hex_run (n : nat) (s : string) : option string :=
  match n with
  | O => Some s
  | S k => match s with
           | String c r => if is_hex c then hex_run k r else None
           | EmptyString => None
           end
  end.

(** [n] hexadecimal digits followed by a dash. *)
Definition hex_group (n : nat) (s : string) : option string :=
  match hex_run n s with
  | Some (String "-"%char r) => Some r
  | _ => None
  end.

Definition and_then {A B} (o : option A) (f : A -> option B) : option B :=
  match o with
  | Some a => f a
  | None => None
  end.

(** The shape accepted by zod's [z.string().uuid()]: hexadecimal groups
    of 8, 4, 4, 4 and 12 digits separated by dashes. *)
Definition is_uuid (s : string) : bool :=
  match and_then (and_then (and_then (and_then (hex_group 8 s)
          (hex_group 4)) (hex_group 4)) (hex_group 4)) (hex_run 12) with
  | Some EmptyString => true
  | _ => false
  end.

(** The job payload fields as they arrive from the queue (JSON). *)
Inductive value :=
| Undefined
| Null
| Bool (b : bool)
| Int (n : Z)                      (* a number with an integral value *)
| Frac (num : Z) (den : positive)  (* any other finite number *)
| Str (s : string).

Definition as_uuid (v : value) : option string :=
  match v with
  | Str s => if is_uuid s then Some s else None
  | _ => None
  end.

(** [z.number().int().positive()]. *)
Definition as_positive_int (v : value) : option Z :=
  match v with
  | Int n => if 0 <? n then Some n else None
  | _ => None
  end.

End Js.

(* ================================================================== *)
(** * BullMQ: handler outcomes and the retry decision *)
(* ================================================================== *)

Module Queue.

Inductive outcome := Returned | Threw.

(** [defaultJobOptions.attempts] of the four queues ([lib/queues.ts]). *)
Definition SYNC_SOURCE_ATTEMPTS : nat := 3.
Definition CHECK_SOURCE_ATTEMPTS : nat := 3.
Definition NOTIFICATION_ATTEMPTS : nat := 5.
Definition CANONICALIZE_ATTEMPTS : nat := 3.

(** A job is re-enqueued (with backoff) exactly when its handler threw
    and the attempt that just ran was not the last one. *)
Definition retried (attempts attemptsMade : nat) (o : outcome) : bool :=
  match o with
  | Threw => (attemptsMade <? attempts)%nat
  | Returned => false
  end.

Record counts := mkCounts { waiting : Z; active : Z; delayed : Z }.

(** [isQueueHealthy(queue, threshold)]: [None] stands for a failing
    [getJobCounts] call, which the function turns into [false]. *)
Definition isQueueHealthy (c : option counts) (threshold : Z) : bool :=
  match c with
  | Some c => waiting c + active c + delayed c <? threshold
  | None => false
  end.

End Queue.

Inductive log_level := LogWarn | LogError.

(* ================================================================== *)
(** * Data model (the Prisma tables the workers touch) *)
(* ================================================================== *)

Module SeriesSource.

Record t := mk {
  id : string;
  series_id : string;
  source_name : string;
  source_id : string;
  source_url : string;
  source_title : option string;
  match_confidence : option Z;
  sync_priority : string;
  next_check_at : option Z;
  failure_count : Z;
  last_checked_at : option Z;
  last_success_at : option Z;
  source_chapter_count : Z;
  cover_url : option string;
  cover_updated_at : option Z
}.

Definition findUnique (key : string) (rows : list t) : option t :=
  List.find (fun s => String.eqb (id s) key) rows.

(** [update({ where: { id }, data })] with [data] given as a row
    transformer, so that [{ increment: 1 }] reads the stored value. *)
Definition update (key : string) (data : t -> t) (rows : list t) : list t :=
  List.map (fun s => if String.eqb (id s) key then data s else s) rows.

End SeriesSource.

Module Chapter.

Record t {Num : Type} := mk {
  series_id : string;
  series_source_id : string;
  chapter_number : Num;
  chapter_title : option string;
  chapter_url : string;
  published_at : option Z
}.
Arguments t : clear implicits.
Arguments mk {Num}.

End Chapter.

Module Series.

Record t := mk {
  id : string;
  title : string;
  mangadex_id : option string;
  alternative_titles : list string;
  description : option string;
  cover_url : option string;
  type : string;
  status : option string;
  genres : list string;
  content_rating : option string
}.

End Series.

(* ================================================================== *)
(** * Scraper capability ([lib/scrapers/index.ts]) *)
(* ================================================================== *)

Module Scrapers.

Record ScrapedChapter {Num : Type} := mkScrapedChapter {
  chapterNumber : Num;
  chapterTitle : option string;
  chapterUrl : string;
  publishedAt : option Z
}.
Arguments ScrapedChapter : clear implicits.
Arguments mkScrapedChapter {Num}.

Record ScrapedSeries {Num : Type} := mkScrapedSeries {
  sourceId : string;
  title : string;
  chapters : list (ScrapedChapter Num)
}.
Arguments ScrapedSeries : clear implicits.
Arguments mkScrapedSeries {Num}.

Definition ALLOWED_HOSTS : list string :=
  ["mangapark.io"; "www.mangapark.io"; "mangadex.org"; "api.mangadex.org"].

(** [hostname] is the platform's URL parser: [None] when [new URL(url)]
    throws, otherwise the parsed host name. *)
Definition validateSourceUrl (hostname : string -> option string)
    (url : string) : bool :=
  match hostname url with
  | Some h => Js.has ALLOWED_HOSTS h
  | None => false
  end.

(** What a [try] block around a scrape can catch: a [ScraperError]
    carrying its [isRetryable] flag, or any other exception. *)
Inductive thrown := ScraperError (isRetryable : bool) | OtherError.

Inductive result {Num : Type} :=
| Resolved (data : ScrapedSeries Num)
| Rejected (error : thrown).
Arguments result : clear implicits.

(** [scraper.scrapeSeries(sourceId)]. *)
Definition Scraper (Num : Type) : Type := string -> result Num.

(** What [scrapers[key]] can be when it is truthy: one of the two
    adapters, or a member inherited from [Object.prototype], which has no
    [scrapeSeries]. *)
Inductive member {Num : Type} :=
| Adapter (scraper : Scraper Num)
| Inherited.
Arguments member : clear implicits.

(** The registry [scrapers], indexed by lower-cased source name; the two
    adapters themselves sit behind the network.  [None] is [undefined]. *)
Definition scrapers {Num} (mangapark mangadex : Scraper Num)
    (key : string) : option (member Num) :=
  if String.eqb key "mangapark" then Some (Adapter mangapark)
  else if String.eqb key "mangadex" then Some (Adapter mangadex)
  else if Js.inherited key then Some Inherited
  else None.

End Scrapers.

(* ================================================================== *)
(** * Sync worker ([workers/processors/sync-source.processor.ts]) *)
(* ================================================================== *)

Module SyncSource.
Import Scrapers.

Definition MAX_CONSECUTIVE_FAILURES : Z := 5.

(** Language-level functions the handler relies on: [toString] of a
    chapter number and the URL parser. *)
Record platform {Num : Type} := mkPlatform {
  toString : Num -> string;
  hostname : string -> option string
}.
Arguments platform : clear implicits.
Arguments mkPlatform {Num}.

(** What the outside world does during one run of the handler. *)
Record env {Num : Type} := mkEnv {
  now : Z;
  mangapark : Scraper Num;
  mangadex : Scraper Num;
  notificationQueue_add : bool  (* [false]: the enqueue rejects *)
}.
Arguments env : clear implicits.
Arguments mkEnv {Num}.

Record CheckSourceData := mkData { seriesSourceId : Js.value }.

Record db {Num : Type} := mkDb {
  seriesSource : list SeriesSource.t;
  chapter : list (Chapter.t Num)
}.
Arguments db : clear implicits.
Arguments mkDb {Num}.

Inductive event :=
| ScrapeSeries (scraper source_id : string)
| NotificationAdded (jobId seriesId sourceId : string) (newChapterCount : Z)
| Log (level : log_level).

Record run {Num : Type} := mkRun {
  outcome : Queue.outcome;
  store : db Num;
  trace : list event
}.
Arguments run : clear implicits.
Arguments mkRun {Num}.

Section Handler.
Context {Num : Type} `{EqDecision Num}.
Variable P : platform Num.

(** ** Row updates written by the handler *)

Definition circuit_open_data (t : Z) (s : SeriesSource.t) : SeriesSource.t :=
  SeriesSource.mk (SeriesSource.id s) (SeriesSource.series_id s)
    (SeriesSource.source_name s) (SeriesSource.source_id s)
    (SeriesSource.source_url s) (SeriesSource.source_title s)
    (SeriesSource.match_confidence s)
    "COLD" (Some (t + 24 * 60 * 60 * 1000))
    (SeriesSource.failure_count s)
    (SeriesSource.last_checked_at s) (SeriesSource.last_success_at s)
    (SeriesSource.source_chapter_count s)
    (SeriesSource.cover_url s) (SeriesSource.cover_updated_at s).

Definition failure_data (t : Z) (s : SeriesSource.t) : SeriesSource.t :=
  SeriesSource.mk (SeriesSource.id s) (SeriesSource.series_id s)
    (SeriesSource.source_name s) (SeriesSource.source_id s)
    (SeriesSource.source_url s) (SeriesSource.source_title s)
    (SeriesSource.match_confidence s)
    (SeriesSource.sync_priority s) (SeriesSource.next_check_at s)
    (SeriesSource.failure_count s + 1)
    (Some t) (SeriesSource.last_success_at s)
    (SeriesSource.source_chapter_count s)
    (SeriesSource.cover_url s) (SeriesSource.cover_updated_at s).

Definition success_data (t insertedCount : Z) (s : SeriesSource.t)
    : SeriesSource.t :=
  SeriesSource.mk (SeriesSource.id s) (SeriesSource.series_id s)
    (SeriesSource.source_name s) (SeriesSource.source_id s)
    (SeriesSource.source_url s) (SeriesSource.source_title s)
    (SeriesSource.match_confidence s)
    (SeriesSource.sync_priority s) (SeriesSource.next_check_at s)
    0
    (Some t) (Some t)
    (SeriesSource.source_chapter_count s + insertedCount)
    (SeriesSource.cover_url s) (SeriesSource.cover_updated_at s).

(** ** The reconcile transaction *)

(** [tx.chapter.findMany({ where: { series_source_id } })] mapped to
    the set of [chapter_number.toString()] keys. *)
Definition existingNumbers (sid : string) (rows : list (Chapter.t Num))
    : list string :=
  List.map (fun c => toString P (Chapter.chapter_number c))
    (List.filter (fun c => String.eqb (Chapter.series_source_id c) sid) rows).

Definition newChapter (source : SeriesSource.t) (c : ScrapedChapter Num)
    : Chapter.t Num :=
  Chapter.mk (SeriesSource.series_id source) (SeriesSource.id source)
    (chapterNumber c)
    (Js.or (chapterTitle c) None)
    (chapterUrl c)
    (publishedAt c).

(** The [for] loop filling [newChaptersData]. *)
Fixpoint newChaptersData (source : SeriesSource.t) (existing : list string)
    (scraped : list (ScrapedChapter Num)) : list (Chapter.t Num) :=
  match scraped with
  | [] => []
  | c :: rest =>
      let chapterKey := toString P (chapterNumber c) in
      if negb (Js.has existing chapterKey)
      then newChapter source c :: newChaptersData source existing rest
      else newChaptersData source existing rest
  end.

(** The unique key of the chapter table: (source record, number). *)
Definition same_key (a b : Chapter.t Num) : bool :=
  String.eqb (Chapter.series_source_id a) (Chapter.series_source_id b)
  && bool_decide (Chapter.chapter_number a = Chapter.chapter_number b).

(** [createMany({ data, skipDuplicates: true })]: rows are appended
    one by one, a row whose key is already present is dropped; the
    result carries the number of rows written. *)
Fixpoint createMany_skipDuplicates (table data : list (Chapter.t Num))
    : list (Chapter.t Num) * Z :=
  match data with
  | [] => (table, 0)
  | r :: rest =>
      if List.existsb (same_key r) table
      then createMany_skipDuplicates table rest
      else let '(table', count) :=
             createMany_skipDuplicates (table ++ [r]) rest in
           (table', count + 1)
  end.

Definition transaction (t : Z) (d : db Num) (source : SeriesSource.t)
    (scrapedData : ScrapedSeries Num) : db Num * Z :=
  let existing := existingNumbers (SeriesSource.id source) (chapter d) in
  let data := newChaptersData source existing (chapters scrapedData) in
  let '(chapter', insertedCount) :=
    if (0 <? length data)%nat
    then createMany_skipDuplicates (chapter d) data
    else (chapter d, 0) in
  (mkDb (SeriesSource.update (SeriesSource.id source)
           (success_data t insertedCount) (seriesSource d))
        chapter',
   insertedCount).

(** ** The handler *)

(** The [catch] block around scrape, transaction and enqueue. *)
Definition on_error (e : env Num) (d : db Num) (source : SeriesSource.t)
    (error : thrown) (tr : list event) : run Num :=
  let isRetryable :=
    match error with
    | ScraperError r => r
    | OtherError => true
    end in
  mkRun (if isRetryable then Queue.Threw else Queue.Returned)
    (mkDb (SeriesSource.update (SeriesSource.id source)
             (failure_data (now e)) (seriesSource d))
          (chapter d))
    (tr ++ [Log LogError]).

Definition processSyncSource (e : env Num) (d : db Num)
    (data : CheckSourceData) : run Num :=
  match Js.as_uuid (seriesSourceId data) with
  | None => mkRun Queue.Threw d []
  | Some seriesSourceId =>
  match SeriesSource.findUnique seriesSourceId (seriesSource d) with
  | None => mkRun Queue.Returned d [Log LogWarn]
  | Some source =>
  if MAX_CONSECUTIVE_FAILURES <=? SeriesSource.failure_count source then
    mkRun Queue.Returned
      (mkDb (SeriesSource.update (SeriesSource.id source)
               (circuit_open_data (now e)) (seriesSource d))
            (chapter d))
      [Log LogWarn]
  else if negb (validateSourceUrl (hostname P)
                  (SeriesSource.source_url source)) then
    mkRun Queue.Returned
      (mkDb (SeriesSource.update (SeriesSource.id source)
               (failure_data (now e)) (seriesSource d))
            (chapter d))
      [Log LogError]
  else
  let key := Js.toLowerCase (SeriesSource.source_name source) in
  match scrapers (mangapark e) (mangadex e) key with
  | None => mkRun Queue.Returned d [Log LogError]
  | Some Inherited =>
      (* [scraper.scrapeSeries] is not a function: a [TypeError] inside
         the [try], before anything is scraped *)
      on_error e d source OtherError []
  | Some (Adapter scraper) =>
  let called := [ScrapeSeries key (SeriesSource.source_id source)] in
  match scraper (SeriesSource.source_id source) with
  | Rejected error => on_error e d source error called
  | Resolved scrapedData =>
      let '(d', result) := transaction (now e) d source scrapedData in
      if 0 <? result then
        let notificationJobId :=
          "notify-" +:+ SeriesSource.series_id source +:+ "-"
            +:+ Js.of_Z (now e) in
        if notificationQueue_add e then
          mkRun Queue.Returned d'
            (called ++
             [NotificationAdded notificationJobId
                (SeriesSource.series_id source) (SeriesSource.id source)
                result])
        else on_error e d' source OtherError called
      else mkRun Queue.Returned d' called
  end
  end
  end
  end.

(** Consecutive attempts on the same job, each in its own environment;
    the runs are listed oldest first. *)
Fixpoint attempts (es : list (env Num)) (d : db Num)
    (data : CheckSourceData) : list (run Num) :=
  match es with
  | [] => []
  | e :: rest =>
      let r := processSyncSource e d data in
      r :: attempts rest (store r) data
  end.

Definition scraper_called (tr : list event) : bool :=
  List.existsb (fun ev => match ev with
                          | ScrapeSeries _ _ => true
                          | _ => false
                          end) tr.

Definition failure_count_of (key : string) (d : db Num) : option Z :=
  SeriesSource.failure_count <$> SeriesSource.findUnique key (seriesSource d).

(** What a run on an open circuit looks like from outside: nothing was
    fetched, the handler returned, and the row is parked. *)
Definition parked (key : string) (failures : Z) (e : env Num) (r : run Num)
    : Prop :=
  scraper_called (trace r) = false /\
  outcome r = Queue.Returned /\
  exists s,
    SeriesSource.findUnique key (seriesSource (store r)) = Some s /\
    SeriesSource.sync_priority s = "COLD" /\
    SeriesSource.next_check_at s = Some (now e + 24 * 60 * 60 * 1000) /\
    SeriesSource.failure_count s = failures.

(** The unique constraint of the chapter table, built row by row. *)
Inductive distinct_keys : list (Chapter.t Num) -> Prop :=
| distinct_nil : distinct_keys []
| distinct_snoc rows r :
    distinct_keys rows ->
    List.existsb (same_key r) rows = false ->
    distinct_keys (rows ++ [r]).

End Handler.

End SyncSource.

(* ================================================================== *)
(** * Canonicalization worker
      ([workers/processors/canonicalize.processor.ts]) *)
(* ================================================================== *)

Module Canonicalize.

Record CanonicalizeJobData := mkData {
  title : string;
  source_name : string;
  source_id : string;
  source_url : string;
  mangadex_id : option string;
  alternative_titles : list string;   (* defaults to the empty array *)
  description : option string;
  cover_url : option string;
  type : string;
  status : option string;
  genres : list string;               (* defaults to the empty array *)
  content_rating : option string;
  confidence : option Z
}.

Record db := mkDb {
  series : list Series.t;
  seriesSource : list SeriesSource.t
}.

Record env := mkEnv {
  now : Z;
  new_series_id : string;     (* key generated for a created series *)
  new_source_id : string;     (* key generated for a created source link *)
  broadcast_send : bool       (* [false]: the realtime send rejects *)
}.

Inductive event :=
| SeriesAvailable (series_id : string) (mangadex_id : option string)
    (title : string) (created : bool)
| Log (level : log_level).

Record result := mkResult { series_id : string; created : bool }.

Record run := mkRun {
  outcome : Queue.outcome;
  returned : option result;
  store : db;
  trace : list event
}.

(** [Array.from(new Set(xs))]: first occurrences, in order. *)
Fixpoint dedupe_from (seen xs : list string) : list string :=
  match xs with
  | [] => []
  | x :: r => if Js.has seen x then dedupe_from seen r
              else x :: dedupe_from (seen ++ [x]) r
  end.

Definition dedupe (xs : list string) : list string := dedupe_from [] xs.

(** A Prisma [data] field: [undefined] leaves the column as it is. *)
Definition set_or_keep {A} (old : option A) (v : option A) : option A :=
  match v with
  | Some _ => v
  | None => old
  end.

Definition findByMangadexId (k : string) (rows : list Series.t)
    : option Series.t :=
  List.find (fun s => match Series.mangadex_id s with
                      | Some m => String.eqb m k
                      | None => false
                      end) rows.

Definition findSeriesById (k : string) (rows : list Series.t)
    : option Series.t :=
  List.find (fun s => String.eqb (Series.id s) k) rows.

(** [findFirst({ where: { title: { equals, mode: 'insensitive' } } })]. *)
Definition findByTitle (k : string) (rows : list Series.t)
    : option Series.t :=
  List.find (fun s => String.eqb (Js.toLowerCase (Series.title s))
                                 (Js.toLowerCase k)) rows.

Definition is_link (name sid : string) (s : SeriesSource.t) : bool :=
  String.eqb (SeriesSource.source_name s) name
  && String.eqb (SeriesSource.source_id s) sid.

Definition findSource (name sid : string) (rows : list SeriesSource.t)
    : option SeriesSource.t :=
  List.find (is_link name sid) rows.

(** The ordered match cascade. *)
Definition resolve (d : db) (j : CanonicalizeJobData) : option Series.t :=
  let by_id :=
    if Js.truthy (mangadex_id j)
    then findByMangadexId (default "" (mangadex_id j)) (series d)
    else None in
  let by_source :=
    match by_id with
    | Some s => Some s
    | None =>
        match findSource (source_name j) (source_id j) (seriesSource d) with
        | Some existingSource =>
            findSeriesById (SeriesSource.series_id existingSource) (series d)
        | None => None
        end
    end in
  match by_source with
  | Some s => Some s
  | None => findByTitle (title j) (series d)
  end.

Definition mergedAltTitles (current : option Series.t)
    (j : CanonicalizeJobData) : list string :=
  let currentAltTitles :=
    match current with
    | Some s => Series.alternative_titles s
    | None => []
    end in
  dedupe (currentAltTitles ++ alternative_titles j ++ [title j]).

(** The row written by [tx.series.update] for a matched series. *)
Definition merge (s : Series.t) (j : CanonicalizeJobData) : Series.t :=
  let shouldUpdateCover :=
    Js.truthy (cover_url j)
    && (negb (Js.truthy (Series.cover_url s))
        || String.eqb (source_name j) "mangadex") in
  let newCoverUrl := if shouldUpdateCover then cover_url j
                     else Series.cover_url s in
  Series.mk (Series.id s) (Series.title s)
    (set_or_keep (Series.mangadex_id s)
       (Js.or (Series.mangadex_id s) (mangadex_id j)))
    (mergedAltTitles (Some s) j)
    (set_or_keep (Series.description s)
       (Js.or (Series.description s) (description j)))
    (set_or_keep (Series.cover_url s) newCoverUrl)
    (Series.type s)
    (set_or_keep (Series.status s) (Js.or (Series.status s) (status j)))
    (if (0 <? length (Series.genres s))%nat then Series.genres s
     else genres j)
    (set_or_keep (Series.content_rating s)
       (Js.or (content_rating j) (Series.content_rating s))).

Definition create (key : string) (j : CanonicalizeJobData) : Series.t :=
  Series.mk key (title j) (mangadex_id j) (mergedAltTitles None j)
    (description j) (cover_url j) (type j) (status j) (genres j)
    (content_rating j).

Definition updateSeries (s' : Series.t) (rows : list Series.t)
    : list Series.t :=
  List.map (fun s => if String.eqb (Series.id s) (Series.id s') then s'
                     else s) rows.

Definition link_update (t : Z) (sid : string) (j : CanonicalizeJobData)
    (s : SeriesSource.t) : SeriesSource.t :=
  SeriesSource.mk (SeriesSource.id s) sid
    (SeriesSource.source_name s) (SeriesSource.source_id s)
    (source_url j) (Some (title j))
    (set_or_keep (SeriesSource.match_confidence s) (confidence j))
    (SeriesSource.sync_priority s) (SeriesSource.next_check_at s)
    (SeriesSource.failure_count s)
    (SeriesSource.last_checked_at s) (SeriesSource.last_success_at s)
    (SeriesSource.source_chapter_count s)
    (set_or_keep (SeriesSource.cover_url s)
       (if Js.truthy (cover_url j) then cover_url j else None))
    (set_or_keep (SeriesSource.cover_updated_at s)
       (if Js.truthy (cover_url j) then Some t else None)).

(** The [create] arm of the upsert; columns the handler does not name
    take the table defaults. *)
Definition link_create (t : Z) (key sid : string) (j : CanonicalizeJobData)
    : SeriesSource.t :=
  SeriesSource.mk key sid (source_name j) (source_id j) (source_url j)
    (Some (title j)) (confidence j) "COLD" None 0 None None 0
    (if Js.truthy (cover_url j) then cover_url j else None)
    (if Js.truthy (cover_url j) then Some t else None).

Definition upsertSource (e : env) (sid : string) (j : CanonicalizeJobData)
    (rows : list SeriesSource.t) : list SeriesSource.t :=
  match findSource (source_name j) (source_id j) rows with
  | Some _ =>
      List.map (fun s => if is_link (source_name j) (source_id j) s
                         then link_update (now e) sid j s else s) rows
  | None => rows ++ [link_create (now e) (new_source_id e) sid j]
  end.

(** The body of [prisma.$transaction]. *)
Definition transaction (e : env) (d : db) (j : CanonicalizeJobData)
    : db * Series.t * bool :=
  let '(series', s, created) :=
    match resolve d j with
    | Some s0 => let s := merge s0 j in (updateSeries s (series d), s, false)
    | None => let s := create (new_series_id e) j in
              (series d ++ [s], s, true)
    end in
  (mkDb series' (upsertSource e (Series.id s) j (seriesSource d)), s, created).

Definition processCanonicalize (e : env) (d : db) (j : CanonicalizeJobData)
    : run :=
  let '(d', s, created) := transaction e d j in
  let emitted :=
    if broadcast_send e
    then [SeriesAvailable (Series.id s) (mangadex_id j) (Series.title s)
            created]
    else [Log LogError] in
  mkRun Queue.Returned (Some (mkResult (Series.id s) created)) d' emitted.

End Canonicalize.

(* ================================================================== *)
(** * Notification worker
      ([workers/processors/notification.processor.ts]) *)
(* ================================================================== *)

Module Notification.

Record NotificationJobData := mkData {
  seriesId : Js.value;
  sourceId : Js.value;
  newChapterCount : Js.value
}.

Record job := mkJob { job_id : string; data : NotificationJobData }.

Record LibraryEntry := mkEntry {
  entry_user_id : string;
  entry_series_id : string;
  notify_new_chapters : bool
}.

Record metadata := mkMeta {
  source_id : string;
  chapter_count : Z;
  meta_job_id : string
}.

Record t := mk {
  user_id : string;
  type : string;
  title : string;
  message : string;
  series_id : string;
  meta : metadata;
  created_at : Z     (* column default: the insertion instant *)
}.

Record db := mkDb {
  series : list Series.t;
  libraryEntry : list LibraryEntry;
  notification : list t
}.

Inductive event := Log (level : log_level).

Record run := mkRun {
  outcome : Queue.outcome;
  store : db;
  trace : list event
}.

Definition WINDOW_MS : Z := 5 * 60 * 1000.

Definition quote : string := String (ascii_of_nat 34) EmptyString.

Definition subscribers (sid : string) (rows : list LibraryEntry)
    : list LibraryEntry :=
  List.filter (fun l => String.eqb (entry_series_id l) sid
                        && notify_new_chapters l) rows.

(** Rows of type NEW_CHAPTER for the series created at or after the
    start of the idempotency window. *)
Definition existingNotifications (sid : string) (idempotencyWindow : Z)
    (rows : list t) : list t :=
  List.filter (fun n => String.eqb (series_id n) sid
                        && String.eqb (type n) "NEW_CHAPTER"
                        && (idempotencyWindow <=? created_at n)) rows.

Definition build (t0 : Z) (jid sid src seriesTitle : string) (count : Z)
    (sub : LibraryEntry) : t :=
  mk (entry_user_id sub) "NEW_CHAPTER" "New Chapter Available"
     (Js.of_Z count +:+ " new chapter" +:+ (if 1 <? count then "s" else "")
      +:+ " for " +:+ quote +:+ seriesTitle +:+ quote +:+ "!")
     sid (mkMeta src count jid) t0.

Definition notificationsToCreate (t0 : Z) (jid sid src seriesTitle : string)
    (count : Z) (subs : list LibraryEntry) (existing : list t) : list t :=
  let alreadyNotifiedUsers := List.map user_id existing in
  List.map (build t0 jid sid src seriesTitle count)
    (List.filter (fun sub => negb (Js.has alreadyNotifiedUsers
                                     (entry_user_id sub))) subs).

(** What the handler has decided once its reads are done. *)
Inductive planned :=
| Skip (tr : list event)       (* it returns without writing *)
| Insert (fresh : list t).     (* it goes on to [createMany] *)

(** The handler up to its last read ([notification.findMany]), on the
    tables as they are then. *)
Definition plan (now : Z) (d : db) (j : job) : planned :=
  match Js.as_uuid (seriesId (data j)), Js.as_uuid (sourceId (data j)),
        Js.as_positive_int (newChapterCount (data j)) with
  | Some sid, Some src, Some count =>
      match List.find (fun s => String.eqb (Series.id s) sid) (series d) with
      | None => Skip [Log LogWarn]
      | Some s =>
          let subs := subscribers sid (libraryEntry d) in
          if (length subs =? 0)%nat then Skip []
          else
            let idempotencyWindow := now - WINDOW_MS in
            let existing :=
              existingNotifications sid idempotencyWindow (notification d) in
            let fresh :=
              notificationsToCreate now (job_id j) sid src (Series.title s)
                count subs existing in
            if (length fresh =? 0)%nat then Skip []
            else Insert fresh
      end
  | _, _, _ => Skip [Log LogError]
  end.

(** The rest of the handler: [notification.createMany] appends to the
    table as it is when the insert runs.  Nothing ties the insert to the
    read before it (no transaction, no unique key on the table), so
    another handler may have written in between. *)
Definition commit (d : db) (p : planned) : run :=
  match p with
  | Skip tr => mkRun Queue.Returned d tr
  | Insert fresh =>
      mkRun Queue.Returned
        (mkDb (series d) (libraryEntry d) (notification d ++ fresh)) []
  end.

(** A run of the handler with no other handler in between. *)
Definition processNotification (now : Z) (d : db) (j : job) : run :=
  commit d (plan now d j).

(** Two runs of the handler that overlap, as the worker allows (it
    takes up to ten jobs at once): both finish their reads before either
    inserts. *)
Definition overlapped (now1 now2 : Z) (d : db) (j1 j2 : job) : db :=
  let p1 := plan now1 d j1 in
  let p2 := plan now2 d j2 in
  store (commit (store (commit d p1)) p2).

(** The rows a run added to the notification table. *)
Definition created (d : db) (r : run) : list t :=
  List.skipn (length (notification d)) (notification (store r)).

(** Two alerts of type NEW_CHAPTER to the same user for the same series. *)
Definition same_alert (a b : t) : Prop :=
  user_id a = user_id b /\ series_id a = series_id b /\
  type a = "NEW_CHAPTER" /\ type b = "NEW_CHAPTER".

(** More than the deduplication window lies between two rows. *)
Definition apart (a b : t) : Prop :=
  WINDOW_MS < Z.abs (created_at a - created_at b).

(** The table invariant: every row is more than a window away from each
    earlier alert of the same kind to the same user. *)
Inductive well_spaced : list t -> Prop :=
| spaced_nil : well_spaced []
| spaced_snoc rows n :
    well_spaced rows ->
    (forall m, In m rows -> same_alert m n -> apart m n) ->
    well_spaced (rows ++ [n]).

(** [m] counts as already notified at instant [now] for series [sid]. *)
Definition in_window (sid : string) (now : Z) (m : t) : Prop :=
  series_id m = sid /\ type m = "NEW_CHAPTER" /\ now - WINDOW_MS <= created_at m.

End Notification.

(* ================================================================== *)
(** * Worker heartbeat ([lib/redis.ts]) *)
(* ================================================================== *)

Module Redis.

Definition is_space (c : ascii) : bool :=
  let n := N_of_ascii c in
  ((n =? 32) || ((9 <=? n) && (n <=? 13)))%N.

Definition digit (c : ascii) : option Z :=
  let n := N_of_ascii c in
  if ((48 <=? n) && (n <=? 57))%N then Some (Z.of_N n - 48) else None.

Fixpoint skip_spaces (s : string) : string :=
  match s with
  | String c r => if is_space c then skip_spaces r else s
  | EmptyString => s
  end.

(** Longest prefix of decimal digits, accumulated left to right;
    [None] when there is no digit at all. *)
Fixpoint digits (acc : option Z) (s : string) : option Z :=
  match s with
  | String c r =>
      match digit c with
      | Some v => digits (Some (10 * default 0 acc + v)) r
      | None => acc
      end
  | EmptyString => acc
  end.

(** [parseInt(s, 10)]; [None] is [NaN]. *)
Definition parseInt (s : string) : option Z :=
  match skip_spaces s with
  | String "-"%char r => Z.opp <$> digits None r
  | String "+"%char r => digits None r
  | r => digits None r
  end.

(** Result of [redis.get(key)]. *)
Inductive reply := Value (v : option string) | GetRejected.

Record env := mkEnv {
  now : Z;
  redisReady : bool;        (* outcome of [waitForRedis] *)
  heartbeat : reply
}.

Definition STALE_MS : Z := 15000.

Definition areWorkersOnline (e : env) : bool :=
  if negb (redisReady e) then false
  else
    match heartbeat e with
    | GetRejected => false
    | Value v =>
        if negb (Js.truthy v) then false
        else
          match parseInt (default "" v) with
          | Some lastBeat =>
              let age := now e - lastBeat in
              age <? STALE_MS
          | None => false       (* [NaN < 15000] *)
          end
    end.

End Redis.

(* ================================================================== *)
(** * Search route: the external-resolution stage
      ([app/api/series/search/route.ts], after the local query) *)
(* ================================================================== *)

Module ApiUtils.

(** A caught value as [handleApiError] inspects it: an [ApiError], any
    other [Error] (with the [code] member a Prisma error carries), or a
    value that is no [Error] at all. *)
Inductive thrown :=
| ApiError (message : string) (statusCode : Z) (code : option string)
| Error (name message : string) (code : option string)
| NotAnError.

(** The status and [code] of the response of [handleApiError]; the
    [error] text of the body is not modelled (in production it carries a
    random id). *)
Definition handleApiError (error : thrown) : Z * option string :=
  match error with
  | ApiError _ statusCode code => (statusCode, code)
  | Error name message code =>
      let lowerMessage := Js.toLowerCase message in
      if Js.includes lowerMessage "not found" then (404, Some "NOT_FOUND")
      else if Js.includes lowerMessage "unauthorized"
      then (401, Some "UNAUTHORIZED")
      else if Js.includes lowerMessage "forbidden"
              || Js.includes lowerMessage "private"
      then (403, Some "FORBIDDEN")
      else if String.eqb name "PrismaClientKnownRequestError"
              && String.eqb (default "" code) "P2002"
      then (409, Some "CONFLICT")
      else if String.eqb name "PrismaClientKnownRequestError"
              && String.eqb (default "" code) "P2025"
      then (404, Some "NOT_FOUND")
      else if String.eqb name "PrismaClientKnownRequestError"
              && (String.eqb (default "" code) "P2003"
                  || String.eqb (default "" code) "P2014")
      then (400, Some "BAD_REQUEST")
      else (500, Some "INTERNAL_ERROR")
  | NotAnError => (500, Some "INTERNAL_ERROR")
  end.

(** The [console.error] lines of [handleApiError]: one unless
    [NODE_ENV] is [test], and one more in production when the fallback
    answers. *)
Definition handleApiError_log (NODE_ENV : option string) (error : thrown)
    : list log_level :=
  (if String.eqb (default "" NODE_ENV) "test" then [] else [LogError])
  ++ (if String.eqb (default "" NODE_ENV) "production"
         && (fst (handleApiError error) =? 500)
         && match error with ApiError _ _ _ => false | _ => true end
      then [LogError] else []).

End ApiUtils.

Module Search.

Definition REDIS_KEY_PREFIX : string := "kenmei:".
Definition SATURATION : Z := 5000.

(** [redis.get(cooldownKey)]: the value read, or a rejection.  The read
    sits outside the inner [try] of the route. *)
Inductive cooldown :=
| Cooldown (v : option string)
| CooldownRejected (error : ApiUtils.thrown).

Record world := mkWorld {
  redis : Redis.env;
  isCoolingDown : cooldown;             (* [redis.get(cooldownKey)] *)
  NODE_ENV : option string;             (* [process.env.NODE_ENV] *)
  jobCounts : option Queue.counts;      (* of the discovery queue *)
  checkSourceQueue_add : bool;          (* [false]: the enqueue rejects *)
  cooldown_set : bool;                  (* [false]: [redis.set] rejects *)
  queryHash : string -> string          (* base64 digest of the query *)
}.

Inductive event :=
| CheckSourceAdded (jobId query intent trigger : string) (priority : Z)
| CooldownSet (key : string)
| Log (level : log_level).

Record response {R : Type} := mkResponse {
  http : Z;
  status : option string;
  results : list R;
  total : Z;
  limit : Z;
  offset : Z;
  has_more : bool;
  query : option string;
  message : option string
}.
Arguments response : clear implicits.
Arguments mkResponse {R}.

(** What the route answers: a JSON body of its own, or the response of
    [handleApiError] from the outer [catch]. *)
Inductive answer {R : Type} :=
| Json (r : response R)
| ApiFailure (http : Z) (code : option string).
Arguments answer : clear implicits.

Definition enqueued (tr : list event) : bool :=
  List.existsb (fun ev => match ev with
                          | CheckSourceAdded _ _ _ _ _ => true
                          | _ => false
                          end) tr.

(** From intent detection to the response.  [localResults] are the rows
    of the local query (already carrying their best cover) and [count]
    its exact count. *)
Definition GET {R} (w : world) (ip : string) (q : option string)
    (lim off : Z) (intent : string) (localResults : list R)
    (count : option Z) : answer R * list event :=
  let total := default 0 count in
  let more := off + Z.of_nat (length localResults) <? total in
  let reply st echo msg :=
    Json (mkResponse 200 st localResults total lim off more echo msg) in
  if String.eqb intent "NOISE" then
    (reply None None
       (if Js.truthy q then Some "Query too short or invalid" else None), [])
  else if Js.truthy q && (off =? 0) then
    let text := default "" q in
    let hash := queryHash w text in
    let cooldownKey :=
      REDIS_KEY_PREFIX +:+ "cooldown:search:" +:+ ip +:+ ":" +:+ hash in
    match isCoolingDown w with
    | CooldownRejected error =>
        (* not inside the inner [try]: the outer [catch] answers *)
        (ApiFailure (fst (ApiUtils.handleApiError error))
           (snd (ApiUtils.handleApiError error)),
         List.map Log (ApiUtils.handleApiError_log (NODE_ENV w) error))
    | Cooldown isCoolingDown =>
    if Js.truthy isCoolingDown then
      (reply (Some "complete") None (Some "Results are up to date."), [])
    else
      let workersOnline := Redis.areWorkersOnline (redis w) in
      let queueHealthy := Queue.isQueueHealthy (jobCounts w) SATURATION in
      if negb workersOnline || negb queueHealthy then
        (reply (Some "resolving_unavailable") None
           (Some "External search is temporarily unavailable due to high load. Try again later."),
         [Log LogWarn])
      else
        let jobPriority :=
          if String.eqb intent "KEYWORD_EXPLORATION" then 5 else 1 in
        let jobId := "search_" +:+ hash in
        let failed :=
          reply (Some "resolving_unavailable") None
            (Some "External search is temporarily unavailable.") in
        if checkSourceQueue_add w then
          let added :=
            CheckSourceAdded jobId text intent "user_search" jobPriority in
          if cooldown_set w then
            (reply (Some "resolving") q
               (Some "Searching external sources for more results..."),
             [added; CooldownSet cooldownKey])
          else (failed, [added; Log LogError])
        else (failed, [Log LogError])
    end
  else (reply None None None, []).

(** A request that reaches the backpressure check: a query on the
    first page, not classified as noise, whose cooldown read returned
    and found nothing. *)
Definition eligible (w : world) (q : option string) (off : Z)
    (intent : string) : bool :=
  negb (String.eqb intent "NOISE") && Js.truthy q && (off =? 0)
  && match isCoolingDown w with
     | Cooldown v => negb (Js.truthy v)
     | CooldownRejected _ => false
     end.

(** The heartbeat key is missing, or holds an instant more than 15
    seconds before [now]. *)
Definition heartbeat_stale (e : Redis.env) : Prop :=
  Redis.heartbeat e = Redis.Value None \/
  exists v lastBeat,
    Redis.heartbeat e = Redis.Value (Some v) /\
    Redis.parseInt v = Some lastBeat /\
    Redis.now e - lastBeat > Redis.STALE_MS.

(** The discovery queue holds at least the saturation threshold. *)
Definition saturated (c : option Queue.counts) : Prop :=
  exists k, c = Some k /\
    SATURATION <= Queue.waiting k + Queue.active k + Queue.delayed k.

End Search.

(* ================================================================== *)
(** * Master scheduler ([workers/schedulers/master.scheduler.ts]) *)
(* ================================================================== *)

Module MasterScheduler.

(** [SYNC_INTERVALS]. *)
Definition SYNC_INTERVALS (priority : string) : option Z :=
  if String.eqb priority "HOT" then Some (15 * 60 * 1000)
  else if String.eqb priority "WARM" then Some (2 * 60 * 60 * 1000)
  else if String.eqb priority "COLD" then Some (24 * 60 * 60 * 1000)
  else None.

Definition BATCH_LIMIT : nat := 50.

Record job := mkJob {
  name : string;
  seriesSourceId : string;
  jobId : string;
  priority : Z
}.

Definition due (now : Z) (s : SeriesSource.t) : bool :=
  match SeriesSource.next_check_at s with
  | Some t => t <=? now
  | None => true
  end.

Definition sourcesToUpdate (now : Z) (rows : list SeriesSource.t)
    : list SeriesSource.t :=
  List.firstn BATCH_LIMIT (List.filter (due now) rows).

Record groups := mkGroups {
  HOT : list string;
  WARM : list string;
  COLD : list string
}.

(** The branch on [updatesByPriority[priority]] inside the [map].  The
    lookup also finds the members inherited from [Object.prototype]; they
    are truthy and have no [push], so the call throws ([None]). *)
Definition push (g : groups) (s : SeriesSource.t) : option groups :=
  let p := SeriesSource.sync_priority s in
  let i := SeriesSource.id s in
  if String.eqb p "HOT" then Some (mkGroups (HOT g ++ [i]) (WARM g) (COLD g))
  else if String.eqb p "WARM"
  then Some (mkGroups (HOT g) (WARM g ++ [i]) (COLD g))
  else if String.eqb p "COLD"
  then Some (mkGroups (HOT g) (WARM g) (COLD g ++ [i]))
  else if Js.inherited p then None
  else Some (mkGroups (HOT g) (WARM g) (COLD g ++ [i])).

(** The grouping pass over the selected rows; it ends at the first row
    whose [push] throws. *)
Definition updatesByPriority (sel : list SeriesSource.t) : option groups :=
  List.fold_left (fun acc s => match acc with
                               | Some g => push g s
                               | None => None
                               end) sel (Some (mkGroups [] [] [])).

Definition rank (p : string) : Z :=
  if String.eqb p "HOT" then 1 else if String.eqb p "WARM" then 2 else 3.

Definition job_of (now : Z) (s : SeriesSource.t) : job :=
  mkJob ("sync-" +:+ SeriesSource.id s) (SeriesSource.id s)
    ("sync-" +:+ SeriesSource.id s +:+ "-" +:+ Js.of_Z now)
    (rank (SeriesSource.sync_priority s)).

Definition set_next_check (t : Z) (s : SeriesSource.t) : SeriesSource.t :=
  SeriesSource.mk (SeriesSource.id s) (SeriesSource.series_id s)
    (SeriesSource.source_name s) (SeriesSource.source_id s)
    (SeriesSource.source_url s) (SeriesSource.source_title s)
    (SeriesSource.match_confidence s)
    (SeriesSource.sync_priority s) (Some t)
    (SeriesSource.failure_count s)
    (SeriesSource.last_checked_at s) (SeriesSource.last_success_at s)
    (SeriesSource.source_chapter_count s)
    (SeriesSource.cover_url s) (SeriesSource.cover_updated_at s).

(** [updateMany({ where: { id: { in: ids } }, data: { next_check_at } })]. *)
Definition updateMany (ids : list string) (nextCheck : Z)
    (rows : list SeriesSource.t) : list SeriesSource.t :=
  List.map (fun s => if Js.has ids (SeriesSource.id s)
                     then set_next_check nextCheck s else s) rows.

Definition apply_group (now : Z) (rows : list SeriesSource.t)
    (entry : string * list string) : list SeriesSource.t :=
  let '(p, ids) := entry in
  if (0 <? length ids)%nat then
    let interval :=
      match SYNC_INTERVALS p with
      | Some i => i
      | None => 24 * 60 * 60 * 1000
      end in
    updateMany ids (now + interval) rows
  else rows.

(** One scheduler run: how it ended, the rows afterwards and the
    batch [syncSourceQueue.addBulk] accepted ([None]: no call, or a call
    that rejected; [addBulk = false] below is a rejecting call). *)
Record run := mkRun {
  outcome : Queue.outcome;
  table : list SeriesSource.t;
  batch : option (list job)
}.

Definition runMasterScheduler (now : Z) (addBulk : bool)
    (rows : list SeriesSource.t) : run :=
  let sel := sourcesToUpdate now rows in
  if (length sel =? 0)%nat then mkRun Queue.Returned rows None
  else
    match updatesByPriority sel with
    | None => mkRun Queue.Threw rows None   (* thrown inside the [map] *)
    | Some g =>
        let jobs := List.map (job_of now) sel in
        if addBulk then
          mkRun Queue.Returned
            (List.fold_left (apply_group now)
               [("HOT", HOT g); ("WARM", WARM g); ("COLD", COLD g)] rows)
            (Some jobs)
        else mkRun Queue.Threw rows None    (* before the updates *)
    end.

(** A row whose tier is not the name of an inherited member. *)
Definition plain_tier (s : SeriesSource.t) : bool :=
  negb (Js.inherited (SeriesSource.sync_priority s)).

(** The interval a tier is rescheduled with. *)
Definition interval_of (p : string) : Z :=
  if String.eqb p "HOT" then 15 * 60 * 1000
  else if String.eqb p "WARM" then 2 * 60 * 60 * 1000
  else 24 * 60 * 60 * 1000.

(** The three groups as predicates on a selected row. *)
Definition is_hot (s : SeriesSource.t) : bool :=
  String.eqb (SeriesSource.sync_priority s) "HOT".

Definition is_warm (s : SeriesSource.t) : bool :=
  negb (is_hot s) && String.eqb (SeriesSource.sync_priority s) "WARM".

Definition is_other (s : SeriesSource.t) : bool :=
  negb (is_hot s) && negb (String.eqb (SeriesSource.sync_priority s) "WARM").

(** The effect of one [updateMany] on one row. *)
Definition reschedule (ids : list string) (t : Z) (s : SeriesSource.t)
    : SeriesSource.t :=
  if Js.has ids (SeriesSource.id s) then set_next_check t s else s.

End MasterScheduler.

(* ================================================================== *)
(** * Discovery worker
      ([workers/processors/check-source.processor.ts]) *)
(* ================================================================== *)

Module CheckSource.

Inductive trigger := user_search | system_sync.

Record LanguageAwareTitle := mkTitle { lt_title : string; lang : string }.

Record MangaDexCandidate := mkCandidate {
  mangadex_id : string;
  title : string;
  title_lang : string;
  alternative_titles : list LanguageAwareTitle;
  original_language : string;
  description : string;
  status : string;
  type : string;
  genres : list string;
  content_rating : option string;
  cover_url : option string;
  follows : option Z;
  rating : option Q
}.

Record ranked := mkRanked {
  candidate : MangaDexCandidate;
  confidence : Z;
  score : Z
}.

(** One page of the catalog, after the per-result extraction. *)
Inductive page :=
| RateLimited
| NotOk
| NetworkError
| Results (rs : list MangaDexCandidate).

Definition PAGE_LIMIT : nat := 32.
Definition MAX_PAGES : nat := 3.

(** The pagination loop, [left] pages before the cap. *)
Fixpoint collect (fetch : nat -> page) (p left : nat)
    : list MangaDexCandidate :=
  match left with
  | O => []
  | S k =>
      match fetch p with
      | Results rs =>
          if (length rs =? 0)%nat then []
          else if (length rs <? PAGE_LIMIT)%nat then rs
          else rs ++ collect fetch (S p) k
      | _ => []
      end
  end.

(** [Map.prototype.set] on an insertion-ordered map: an existing key
    keeps its position and takes the new value. *)
Fixpoint map_set (m : list (string * MangaDexCandidate)) (k : string)
    (v : MangaDexCandidate) : list (string * MangaDexCandidate) :=
  match m with
  | [] => [(k, v)]
  | (k', v') :: r => if String.eqb k' k then (k', v) :: r
                     else (k', v') :: map_set r k v
  end.

(** [Array.from(new Map(cs.map(c => [c.mangadex_id, c])).values())]. *)
Definition uniqueCandidates (cs : list MangaDexCandidate)
    : list MangaDexCandidate :=
  List.map snd
    (List.fold_left (fun m c => map_set m (mangadex_id c) c) cs []).

Fixpoint rank_from (n : Z) (index : Z) (cs : list MangaDexCandidate)
    : list ranked :=
  match cs with
  | [] => []
  | c :: r => mkRanked c 100 (n - index) :: rank_from n (index + 1) r
  end.

Definition rankedCandidates (unique : list MangaDexCandidate) : list ranked :=
  rank_from (Z.of_nat (length unique)) 0 unique.

Record added := mkAdded {
  jobId : string;
  data : Canonicalize.CanonicalizeJobData;
  priority : Z
}.

Definition job_priority (t : option trigger) : Z :=
  match t with
  | Some user_search => 1
  | _ => 10
  end.

Definition enqueue (t : option trigger) (r : ranked) : added :=
  let c := candidate r in
  mkAdded ("canon_mangadex_" +:+ mangadex_id c)
    (Canonicalize.mkData (title c) "mangadex" (mangadex_id c)
       ("https://mangadex.org/title/" +:+ mangadex_id c)
       (Some (mangadex_id c))
       (List.map lt_title (alternative_titles c))
       (Some (description c)) (cover_url c) (type c) (Some (status c))
       (genres c) (content_rating c) (Some (confidence r)))
    (job_priority t).

Record CheckSourceJobData := mkData {
  query : option string;
  series_title : option string;   (* title found for [series_id], if any *)
  job_trigger : option trigger
}.

(** A run exposes, next to what the handler returns, its local
    [candidates] and [rankedCandidates] and the queue submissions. *)
Record run := mkRun {
  outcome : Queue.outcome;
  found : option Z;
  collected : list MangaDexCandidate;
  ranking : list ranked;
  trace : list added      (* accepted [canonicalizeQueue.add] calls, in order *)
}.

(** The final loop is a row of bare [await canonicalizeQueue.add(...)]:
    the first call that rejects ([add] answers [false]) ends the handler
    by throwing, with the earlier submissions made. *)
Fixpoint submit (add : added -> bool) (jobs : list added)
    : list added * Queue.outcome :=
  match jobs with
  | [] => ([], Queue.Returned)
  | j :: rest =>
      if add j then
        let '(accepted, o) := submit add rest in (j :: accepted, o)
      else ([], Queue.Threw)
  end.

(** Lines 70 to 216: the pagination loop, the de-duplication, the
    ranking and the submissions, for a search term. *)
Definition searchAndEnqueue (fetch : string -> nat -> page)
    (add : added -> bool) (t : option trigger) (searchTerm : string) : run :=
  let candidates := collect (fetch searchTerm) 0 MAX_PAGES in
  let ranked := rankedCandidates (uniqueCandidates candidates) in
  let '(accepted, o) := submit add (List.map (enqueue t) ranked) in
  mkRun o
    (match o with
     | Queue.Returned => Some (Z.of_nat (length ranked))
     | Queue.Threw => None
     end)
    candidates ranked accepted.

(** What the scope of the module binds the name [normalize] to.  The
    file imports [Job], [prisma], [canonicalizeQueue],
    [getMangaDexHeaders], [MANGADEX_API_BASE] and [SearchIntent] and
    declares no function; nothing under src/ defines a global of that
    name.  The name is unbound ([None]). *)
Definition normalize : option (string -> string) := None.

Definition processCheckSource (fetch : string -> nat -> page)
    (add : added -> bool) (j : CheckSourceJobData) : run :=
  let searchTerm := if Js.truthy (query j) then query j else series_title j in
  if negb (Js.truthy searchTerm) then mkRun Queue.Threw None [] [] []
  else
    (* line 68: [const normalizedQuery = normalize(searchTerm)] *)
    match normalize with
    | None => mkRun Queue.Threw None [] [] []      (* [ReferenceError] *)
    | Some normalize =>
        let normalizedQuery := normalize (default "" searchTerm) in
        searchAndEnqueue fetch add (job_trigger j) (default "" searchTerm)
    end.

(** Identifiers in order of first appearance. *)
Fixpoint first_seen (seen ids : list string) : list string :=
  match ids with
  | [] => []
  | i :: r => if Js.has seen i then first_seen seen r
              else i :: first_seen (seen ++ [i]) r
  end.

End CheckSource.

(* ================================================================== *)
(** * Concrete stores and jobs used in the examples *)
(* ================================================================== *)

Module Examples.

Definition uuid_a : string := "11111111-1111-4111-8111-111111111111".
Definition uuid_b : string := "22222222-2222-4222-8222-222222222222".
Definition uuid_c : string := "33333333-3333-4333-8333-333333333333".
Definition uuid_s : string := "aaaaaaaa-aaaa-4aaa-8aaa-aaaaaaaaaaaa".

Fixpoint until_slash (s : string) : string :=
  match s with
  | String "/"%char _ => EmptyString
  | String c r => String c (until_slash r)
  | EmptyString => EmptyString
  end.

(** A URL parser good enough for [https://host/path] addresses. *)
Definition https_hostname (url : string) : option string :=
  match url with
  | String "h" (String "t" (String "t" (String "p" (String "s"
      (String ":" (String "/" (String "/" r))))))) => Some (until_slash r)
  | _ => None
  end.

(** Chapter numbers as integers, printed in decimal. *)
Definition P0 : SyncSource.platform Z :=
  SyncSource.mkPlatform Js.of_Z https_hostname.

Definition source (key name url priority : string) (next : option Z)
    (failures : Z) : SeriesSource.t :=
  SeriesSource.mk key uuid_s name "title-1" url None None priority next
    failures None None 0 None None.

Definition dex : SeriesSource.t :=
  source uuid_a "MangaDex" "https://mangadex.org/title/title-1" "HOT"
    None 0.

Definition broken : SeriesSource.t :=
  source uuid_a "mangadex" "https://mangadex.org/title/title-1" "HOT"
    None 5.



(** A source whose name, lower-cased, is a member every object
    inherits. *)
Definition odd_name : SeriesSource.t :=
  source uuid_a "Constructor" "https://mangadex.org/title/title-1" "HOT"
    None 2.

Definition chapters123 : Scrapers.ScrapedSeries Z :=
  Scrapers.mkScrapedSeries "title-1" "Title One"
    [Scrapers.mkScrapedChapter 1 (Some "The Beginning") "https://mangadex.org/chapter/c1" None;
     Scrapers.mkScrapedChapter 2 None "https://mangadex.org/chapter/c2" None;
     Scrapers.mkScrapedChapter 2 (Some "Again") "https://mangadex.org/chapter/c2b" None].

Definition stored1 : Chapter.t Z :=
  Chapter.mk uuid_s uuid_a 1 None "https://mangadex.org/chapter/c1" None.

Definition sync_db (s : SeriesSource.t) : SyncSource.db Z :=
  SyncSource.mkDb [s] [stored1].

Definition sync_env (t : Z) (add : bool) : SyncSource.env Z :=
  SyncSource.mkEnv t (fun _ => Scrapers.Resolved chapters123)
    (fun _ => Scrapers.Resolved chapters123) add.

Definition sync_job : SyncSource.CheckSourceData :=
  SyncSource.mkData (Js.Str uuid_a).

Definition bad_sync_job : SyncSource.CheckSourceData :=
  SyncSource.mkData (Js.Str "not-a-uuid").

(** *** Canonicalization *)

Definition rated : Series.t :=
  Series.mk uuid_s "Solo Leveling" (Some "md-1") ["Solo"] (Some "A hunter.")
    (Some "https://uploads.mangadex.org/covers/md-1/a.jpg") "manhwa"
    (Some "ongoing") ["Action"] (Some "safe").

Definition canon_db : Canonicalize.db :=
  Canonicalize.mkDb [rated] [].

Definition canon_job : Canonicalize.CanonicalizeJobData :=
  Canonicalize.mkData "Solo Leveling" "mangapark" "mp-77"
    "https://mangapark.io/title/mp-77" (Some "md-1") ["Only I Level Up"]
    (Some "Another text.") None "manhwa" (Some "completed") ["Fantasy"]
    (Some "erotica") (Some 80).

Definition canon_env (send : bool) : Canonicalize.env :=
  Canonicalize.mkEnv 1000 uuid_b uuid_c send.

(** *** Notification *)

Definition sub (user : string) : Notification.LibraryEntry :=
  Notification.mkEntry user uuid_s true.

Definition notify_db : Notification.db :=
  Notification.mkDb [rated] [sub "u1"; sub "u2"] [].

Definition notify_job (count : Js.value) : Notification.job :=
  Notification.mkJob "job-1"
    (Notification.mkData (Js.Str uuid_s) (Js.Str uuid_a) count).

(** The same series updated through a second source a millisecond
    later. *)
Definition notify_job_b : Notification.job :=
  Notification.mkJob "job-2"
    (Notification.mkData (Js.Str uuid_s) (Js.Str uuid_b) (Js.Int 1)).

(** *** Search *)

(** Heartbeat written 20 seconds ago, empty discovery queue. *)
Definition stale_world : Search.world :=
  Search.mkWorld (Redis.mkEnv 1700000020000 true
                    (Redis.Value (Some "1700000000000")))
    (Search.Cooldown None) (Some "production")
    (Some (Queue.mkCounts 0 0 0)) true true (fun s => s).

(** *** Scheduler: three HOT sources due, one WARM source not yet due *)

Definition scheduled : list SeriesSource.t :=
  [source uuid_a "mangadex" "https://mangadex.org/title/a" "HOT" None 0;
   source uuid_b "mangadex" "https://mangadex.org/title/b" "HOT" (Some 900) 0;
   source uuid_s "mangadex" "https://mangadex.org/title/s" "WARM" (Some 5000) 0;
   source uuid_c "mangapark" "https://mangapark.io/title/c" "HOT" (Some 1000) 0].

(** A due source whose tier is the name of an inherited member, next to
    a due HOT source. *)
Definition mislabelled : list SeriesSource.t :=
  [source uuid_a "mangadex" "https://mangadex.org/title/a" "HOT" None 0;
   source uuid_b "mangadex" "https://mangadex.org/title/b" "constructor"
     (Some 900) 0].

(** *** Discovery: 40 results over two pages, one repeated id *)

Definition candidate (i : Z) : CheckSource.MangaDexCandidate :=
  CheckSource.mkCandidate ("md-" +:+ Js.of_Z i) ("Solo " +:+ Js.of_Z i) "en"
    [] "ko" "" "ongoing" "unknown" [] (Some "safe") None None None.

Fixpoint candidates_from (start : Z) (n : nat)
    : list CheckSource.MangaDexCandidate :=
  match n with
  | O => []
  | S k => candidate start :: candidates_from (start + 1) k
  end.

Definition solo_pages (term : string) (p : nat) : CheckSource.page :=
  match p with
  | O => CheckSource.Results (candidates_from 0 32)
  | S O => CheckSource.Results (candidate 3 :: candidates_from 32 7)
  | _ => CheckSource.NetworkError
  end.

Definition solo_job : CheckSource.CheckSourceJobData :=
  CheckSource.mkData (Some "Solo") None (Some CheckSource.user_search).

End Examples.

From Stdlib Require Import DecimalPos.
From stdpp Require Import gmap.

Local Open Scope string_scope.
Local Open Scope list_scope.
Local Open Scope Z_scope.

(* ================================================================== *)
(** * The pipeline around the sync worker *)
(* ================================================================== *)

Module Pipeline.
Import Scrapers SyncSource.

Section Steps.
Context {Num : Type} `{EqDecision Num}.
Variable P : platform Num.

(** The store after a series of attempts on one job. *)
Fixpoint after_attempts (es : list (env Num)) (d : db Num)
    (data : CheckSourceData) : db Num :=
  match es with
  | [] => d
  | e :: rest => after_attempts rest (store (processSyncSource P e d data)) data
  end.

(** The scheduler and the sync worker share the source table. *)
Inductive step :=
| Schedule (now : Z) (addBulk : bool)
| Sync (e : env Num) (data : CheckSourceData).

Definition exec (d : db Num) (s : step) : db Num :=
  match s with
  | Schedule now addBulk =>
      mkDb (MasterScheduler.table
              (MasterScheduler.runMasterScheduler now addBulk
                 (seriesSource d)))
           (chapter d)
  | Sync e data => store (processSyncSource P e d data)
  end.

(** The sync runs of a schedule, each with the payload it was given. *)
Fixpoint sync_runs (steps : list step) (d : db Num)
    : list (CheckSourceData * run Num) :=
  match steps with
  | [] => []
  | Schedule now addBulk :: rest =>
      sync_runs rest (exec d (Schedule now addBulk))
  | Sync e data :: rest =>
      (data, processSyncSource P e d data)
        :: sync_runs rest (exec d (Sync e data))
  end.


(** Number of chapter rows a run added. *)
Definition rows_added (d : db Num) (r : run Num) : Z :=
  Z.of_nat (length (chapter (store r))) - Z.of_nat (length (chapter d)).

(** A scraper that throws for this source. *)
Definition rejects (source : SeriesSource.t) (e : env Num) : Prop :=
  exists scraper error,
    scrapers (mangapark e) (mangadex e)
      (Js.toLowerCase (SeriesSource.source_name source))
      = Some (Adapter scraper) /\
    scraper (SeriesSource.source_id source) = Rejected error.

(** The handler goes one of eight ways. *)
Inductive path (e : env Num) (d : db Num) (data : CheckSourceData)
    : run Num -> Prop :=
| path_invalid :
    Js.as_uuid (seriesSourceId data) = None ->
    path e d data (mkRun Queue.Threw d [])
| path_missing sid :
    Js.as_uuid (seriesSourceId data) = Some sid ->
    SeriesSource.findUnique sid (seriesSource d) = None ->
    path e d data (mkRun Queue.Returned d [Log LogWarn])
| path_open sid source :
    Js.as_uuid (seriesSourceId data) = Some sid ->
    SeriesSource.findUnique sid (seriesSource d) = Some source ->
    MAX_CONSECUTIVE_FAILURES <= SeriesSource.failure_count source ->
    path e d data
      (mkRun Queue.Returned
         (mkDb (SeriesSource.update sid (circuit_open_data (now e))
                  (seriesSource d)) (chapter d))
         [Log LogWarn])
| path_url sid source :
    Js.as_uuid (seriesSourceId data) = Some sid ->
    SeriesSource.findUnique sid (seriesSource d) = Some source ->
    SeriesSource.failure_count source < MAX_CONSECUTIVE_FAILURES ->
    validateSourceUrl (hostname P) (SeriesSource.source_url source) = false ->
    path e d data
      (mkRun Queue.Returned
         (mkDb (SeriesSource.update sid (failure_data (now e))
                  (seriesSource d)) (chapter d))
         [Log LogError])
| path_unscraped sid source :
    Js.as_uuid (seriesSourceId data) = Some sid ->
    SeriesSource.findUnique sid (seriesSource d) = Some source ->
    SeriesSource.failure_count source < MAX_CONSECUTIVE_FAILURES ->
    validateSourceUrl (hostname P) (SeriesSource.source_url source) = true ->
    scrapers (mangapark e) (mangadex e)
      (Js.toLowerCase (SeriesSource.source_name source)) = None ->
    path e d data (mkRun Queue.Returned d [Log LogError])
| path_inherited sid source :
    Js.as_uuid (seriesSourceId data) = Some sid ->
    SeriesSource.findUnique sid (seriesSource d) = Some source ->
    SeriesSource.failure_count source < MAX_CONSECUTIVE_FAILURES ->
    validateSourceUrl (hostname P) (SeriesSource.source_url source) = true ->
    scrapers (mangapark e) (mangadex e)
      (Js.toLowerCase (SeriesSource.source_name source)) = Some Inherited ->
    path e d data (on_error e d source OtherError [])
| path_rejected sid source scraper error :
    Js.as_uuid (seriesSourceId data) = Some sid ->
    SeriesSource.findUnique sid (seriesSource d) = Some source ->
    SeriesSource.failure_count source < MAX_CONSECUTIVE_FAILURES ->
    validateSourceUrl (hostname P) (SeriesSource.source_url source) = true ->
    scrapers (mangapark e) (mangadex e)
      (Js.toLowerCase (SeriesSource.source_name source))
      = Some (Adapter scraper) ->
    scraper (SeriesSource.source_id source) = Rejected error ->
    path e d data
      (on_error e d source error
         [ScrapeSeries (Js.toLowerCase (SeriesSource.source_name source))
            (SeriesSource.source_id source)])
| path_resolved sid source scraper sd :
    Js.as_uuid (seriesSourceId data) = Some sid ->
    SeriesSource.findUnique sid (seriesSource d) = Some source ->
    SeriesSource.failure_count source < MAX_CONSECUTIVE_FAILURES ->
    validateSourceUrl (hostname P) (SeriesSource.source_url source) = true ->
    scrapers (mangapark e) (mangadex e)
      (Js.toLowerCase (SeriesSource.source_name source))
      = Some (Adapter scraper) ->
    scraper (SeriesSource.source_id source) = Resolved sd ->
    path e d data
      (let committed := fst (transaction P (now e) d source sd) in
       let result := snd (transaction P (now e) d source sd) in
       let called :=
         [ScrapeSeries (Js.toLowerCase (SeriesSource.source_name source))
            (SeriesSource.source_id source)] in
       if 0 <? result then
         if notificationQueue_add e then
           mkRun Queue.Returned committed
             (called ++
              [NotificationAdded
                 ("notify-" +:+ SeriesSource.series_id source +:+ "-"
                    +:+ Js.of_Z (now e))
                 (SeriesSource.series_id source) (SeriesSource.id source)
                 result])
         else on_error e committed source OtherError called
       else mkRun Queue.Returned committed called).

End Steps.

End Pipeline.

(* ================================================================== *)
(** * Canonicalization: table invariants and job sequences *)
(* ================================================================== *)

Module Catalog.
Import Canonicalize.

(** The unique key of a source link. *)
Definition link_key (s : SeriesSource.t) : string * string :=
  (SeriesSource.source_name s, SeriesSource.source_id s).

(** No two series rows with different ids carry the same non-empty
    external catalog id. *)
Definition unique_catalog_ids (rows : list Series.t) : Prop :=
  forall a b, In a rows -> In b rows ->
    Js.truthy (Series.mangadex_id a) = true ->
    Series.mangadex_id a = Series.mangadex_id b ->
    Series.id a = Series.id b.

(** A series of jobs, each processed in its own world. *)
Definition run_all (jobs : list (env * CanonicalizeJobData)) (d : db) : db :=
  List.fold_left (fun d ej => store (processCanonicalize (fst ej) d (snd ej)))
    jobs d.

(** The decision taken for the cover of a matched series. *)
Definition cover_replaced (s : Series.t) (j : CanonicalizeJobData) : bool :=
  Js.truthy (cover_url j)
  && (negb (Js.truthy (Series.cover_url s))
      || String.eqb (source_name j) "mangadex").

End Catalog.

(* ================================================================== *)
(** * Writing and reading the worker heartbeat ([lib/redis.ts]) *)
(* ================================================================== *)

Module Heartbeat.

(** The heartbeat key: its value and the instant at which it expires.
    The worker, the request path and the Redis server read one clock. *)
Record cell := mkCell { value : string; expires_at : Z }.

(** [redis.set(key, v, 'EX', seconds)] issued at instant [t]. *)
Definition set_ex (t : Z) (v : string) (seconds : Z) : option cell :=
  Some (mkCell v (t + seconds * 1000)).

(** [redis.get(key)] at instant [t]: an expired key is gone. *)
Definition get (t : Z) (key : option cell) : option string :=
  match key with
  | Some c => if t <? expires_at c then Some (value c) else None
  | None => None
  end.

(** [setWorkerHeartbeat()] at instant [t]; [ok = false] is a rejected
    [redis.set], which the function logs and swallows. *)
Definition setWorkerHeartbeat (t : Z) (ok : bool) (key : option cell)
    : option cell :=
  if ok then set_ex t (Js.of_Z t) 10 else key.

(** What [areWorkersOnline] sees at instant [t]. *)
Definition view (t : Z) (ready : bool) (key : option cell) : Redis.env :=
  Redis.mkEnv t ready (Redis.Value (get t key)).

End Heartbeat.

(* ================================================================== *)
(** * The in-memory rate limiter ([lib/api-utils.ts]) *)
(* ================================================================== *)

Module RateLimit.

Record RateLimitEntry := mkEntry { count : Z; resetTime : Z }.

(** [RateLimitStore.map] is a [gmap string RateLimitEntry] below. *)

(** [checkRateLimit(key, maxRequests, windowMs)] at instant [now]: the
    decision and the store afterwards. *)
Definition checkRateLimit (now : Z) (key : string) (maxRequests windowMs : Z)
    (s : gmap string RateLimitEntry) : bool * gmap string RateLimitEntry :=
  match s !! key with
  | Some record =>
      if resetTime record <? now
      then (true, <[key := mkEntry 1 (now + windowMs)]> s)
      else if maxRequests <=? count record then (false, s)
      else (true, <[key := mkEntry (count record + 1) (resetTime record)]> s)
  | None => (true, <[key := mkEntry 1 (now + windowMs)]> s)
  end.

Definition clearRateLimit (key : string) (s : gmap string RateLimitEntry) : gmap string RateLimitEntry :=
  delete key s.

(** [RateLimitStore.cleanup()] at instant [now]. *)
Definition cleanup (now : Z) (s : gmap string RateLimitEntry) : gmap string RateLimitEntry :=
  filter (fun kv => ~ resetTime (snd kv) < now) s.

Definition checkAuthRateLimit (now : Z) (ip : string) (s : gmap string RateLimitEntry)
    : bool * gmap string RateLimitEntry :=
  checkRateLimit now ("auth:" +:+ ip) 5 60000 s.

(** The first gate of the search route, [search:<ip>] at 60 per minute. *)
Definition search_gate (now : Z) (ip : string) (s : gmap string RateLimitEntry) : bool * gmap string RateLimitEntry :=
  checkRateLimit now ("search:" +:+ ip) 60 60000 s.

(** The calls of one caller at the instants [ts], in order. *)
Fixpoint serve (key : string) (maxRequests windowMs : Z) (ts : list Z)
    (s : gmap string RateLimitEntry) : list bool * gmap string RateLimitEntry :=
  match ts with
  | [] => ([], s)
  | t :: r =>
      let '(ok, s1) := checkRateLimit t key maxRequests windowMs s in
      let '(oks, s2) := serve key maxRequests windowMs r s1 in
      (ok :: oks, s2)
  end.

(** How many of the calls were let through. *)
Definition admitted (oks : list bool) : nat :=
  length (List.filter (fun ok : bool => ok) oks).

End RateLimit.

(* ================================================================== *)
(** * Further concrete inputs *)
(* ================================================================== *)

Module MoreExamples.

(** A world in which both scrapers throw. *)
Definition failing_env (t : Z) (retryable : bool) : SyncSource.env Z :=
  SyncSource.mkEnv t
    (fun _ => Scrapers.Rejected (Scrapers.ScraperError retryable))
    (fun _ => Scrapers.Rejected (Scrapers.ScraperError retryable)) true.

Definition nightly : list (Pipeline.step (Num := Z)) :=
  [Pipeline.Schedule 1000 true;
   Pipeline.Sync (Examples.sync_env 2000 true) Examples.sync_job;
   Pipeline.Schedule 90000000 false;
   Pipeline.Sync (Examples.sync_env 90001000 true) Examples.sync_job].

(** The canonicalization jobs that discovery builds for two pages of
    results on "Solo". *)
Definition discovered : list (Canonicalize.env * Canonicalize.CanonicalizeJobData) :=
  List.map (fun a => (Examples.canon_env true, CheckSource.data a))
    (CheckSource.trace
       (CheckSource.searchAndEnqueue Examples.solo_pages (fun _ => true)
          (Some CheckSource.user_search) "Solo")).

Definition heartbeat_at_1000 : option Heartbeat.cell :=
  Heartbeat.setWorkerHeartbeat 1000 true None.

(** A world whose workers wrote their heartbeat at instant 1000, seen by
    a request at instant 2000. *)
Definition live_world : Search.world :=
  Search.mkWorld (Heartbeat.view 2000 true heartbeat_at_1000)
    (Search.Cooldown None) (Some "production")
    (Some (Queue.mkCounts 0 0 0)) true true (fun s => s).

(** The same world with the connection dropping during the cooldown
    read. *)
Definition dropped_world : Search.world :=
  Search.mkWorld (Heartbeat.view 2000 true heartbeat_at_1000)
    (Search.CooldownRejected
       (ApiUtils.Error "Error" "Connection is closed." None))
    (Some "production")
    (Some (Queue.mkCounts 0 0 0)) true true (fun s => s).

End MoreExamples.

(* ================================================================== *)
(** * Properties *)
(* ================================================================== *)

Lemma has_In (l : list string) (k : string) : Js.has l k = true <-> In k l.
Proof.
  induction l as [|x l IH]; simpl.
  - split; [discriminate | tauto].
  - destruct (String.eqb x k) eqn:E.
    + apply String.eqb_eq in E. tauto.
    + apply String.eqb_neq in E. rewrite IH. split; [tauto|].
      intros [H|H]; [congruence | exact H].
Qed.

Lemma has_false_In (l : list string) (k : string) :
  Js.has l k = false <-> ~ In k l.
Proof.
  rewrite <- has_In. destruct (Js.has l k); split; congruence.
Qed.

Lemma has_app (l l' : list string) (k : string) :
  Js.has (l ++ l') k = Js.has l k || Js.has l' k.
Proof.
  induction l as [|x l IH]; simpl; [reflexivity|].
  destruct (String.eqb x k); [reflexivity | exact IH].
Qed.

(** ** Source rows *)

Module SeriesSourceFacts.
Import SeriesSource.

Lemma findUnique_id key rows s : findUnique key rows = Some s -> id s = key.
Proof.
  unfold findUnique. intros H. apply List.find_some in H as [_ H].
  now apply String.eqb_eq.
Qed.

Lemma findUnique_In key rows s : findUnique key rows = Some s -> In s rows.
Proof. unfold findUnique. intros H. now apply List.find_some in H. Qed.

Lemma findUnique_update_same key (f : t -> t) rows :
  (forall s, id (f s) = id s) ->
  findUnique key (update key f rows) = f <$> findUnique key rows.
Proof.
  intros Hid. unfold findUnique, update.
  induction rows as [|a rows IH]; simpl; [reflexivity|].
  destruct (String.eqb (id a) key) eqn:E; simpl.
  - rewrite Hid, E. reflexivity.
  - rewrite E. exact IH.
Qed.

Lemma findUnique_update_other key key' (f : t -> t) rows :
  (forall s, id (f s) = id s) -> key <> key' ->
  findUnique key' (update key f rows) = findUnique key' rows.
Proof.
  intros Hid Hne. unfold findUnique, update.
  induction rows as [|a rows IH]; simpl; [reflexivity|].
  destruct (String.eqb (id a) key) eqn:E; simpl.
  - rewrite Hid. apply String.eqb_eq in E.
    destruct (String.eqb (id a) key') eqn:E'.
    + apply String.eqb_eq in E'. congruence.
    + exact IH.
  - destruct (String.eqb (id a) key'); [reflexivity | exact IH].
Qed.

End SeriesSourceFacts.

(** ** Sync worker *)

Module SyncSourceFacts.
Import Scrapers SyncSource SeriesSourceFacts.

Section Facts.
Context {Num : Type} `{EqDecision Num}.
Variable P : platform Num.

Lemma same_key_refl (r : Chapter.t Num) : same_key r r = true.
Proof.
  unfold same_key. rewrite String.eqb_refl. simpl.
  now apply bool_decide_eq_true.
Qed.

Lemma same_key_spec (a b : Chapter.t Num) :
  same_key a b = true <->
  Chapter.series_source_id a = Chapter.series_source_id b /\
  Chapter.chapter_number a = Chapter.chapter_number b.
Proof.
  unfold same_key. rewrite andb_true_iff, String.eqb_eq, bool_decide_eq_true.
  reflexivity.
Qed.

Lemma existingNumbers_In sid rows k :
  In k (existingNumbers P sid rows) <->
  exists r, In r rows /\ Chapter.series_source_id r = sid /\
            toString P (Chapter.chapter_number r) = k.
Proof.
  unfold existingNumbers. rewrite in_map_iff. split.
  - intros (r & Hk & Hr). apply filter_In in Hr as [Hr E].
    apply String.eqb_eq in E. eauto.
  - intros (r & Hr & E & Hk). exists r. split; [exact Hk|].
    apply filter_In. split; [exact Hr|]. now apply String.eqb_eq.
Qed.

Lemma newChaptersData_In source existing scraped r :
  In r (newChaptersData P source existing scraped) ->
  exists c, In c scraped /\ r = newChapter source c /\
            Js.has existing (toString P (chapterNumber c)) = false.
Proof.
  induction scraped as [|c rest IH]; simpl; [tauto|].
  destruct (Js.has existing (toString P (chapterNumber c))) eqn:E; simpl.
  - intros H0. destruct (IH H0) as (c' & ? & ? & ?). eauto.
  - intros [<-|H0]; [eauto|].
    destruct (IH H0) as (c' & ? & ? & ?). eauto.
Qed.

Lemma newChaptersData_keeps source existing scraped c :
  In c scraped ->
  Js.has existing (toString P (chapterNumber c)) = false ->
  In (newChapter source c) (newChaptersData P source existing scraped).
Proof.
  induction scraped as [|c' rest IH]; simpl; [tauto|].
  intros [->|Hin] E.
  - rewrite E. simpl. now left.
  - destruct (Js.has existing (toString P (chapterNumber c'))); simpl; auto.
Qed.

Lemma newChaptersData_nil source existing scraped :
  (forall c, In c scraped ->
             Js.has existing (toString P (chapterNumber c)) = true) ->
  newChaptersData P source existing scraped = [].
Proof.
  induction scraped as [|c rest IH]; simpl; [reflexivity|].
  intros Hall. rewrite (Hall c (or_introl eq_refl)). simpl.
  apply IH. intros c' Hc'. apply Hall. now right.
Qed.

(** What [createMany] with [skipDuplicates] does to the table. *)
Lemma createMany_skipDuplicates_spec (data : list (Chapter.t Num)) :
  forall table : list (Chapter.t Num),
  exists inserted,
    createMany_skipDuplicates table data
      = (table ++ inserted, Z.of_nat (length inserted)) /\
    (forall r, In r inserted ->
               In r data /\ List.existsb (same_key r) table = false) /\
    (forall r, In r data ->
               List.existsb (same_key r) (table ++ inserted) = true) /\
    (distinct_keys table -> distinct_keys (table ++ inserted)).
Proof.
  induction data as [|r rest IH]; intros table; simpl.
  - exists []. rewrite app_nil_r. split; [reflexivity|].
    split; [intros r []|]. split; [intros r []|]. tauto.
  - destruct (List.existsb (same_key r) table) eqn:E.
    + destruct (IH table) as (ins & Heq & Hin & Hall & Hd).
      exists ins. rewrite Heq. split; [reflexivity|].
      split; [|split; [|exact Hd]].
      * intros r' Hr'. destruct (Hin _ Hr'). split; [now right | assumption].
      * intros r' [<-|Hr'].
        -- rewrite existsb_app, E. reflexivity.
        -- now apply Hall.
    + destruct (IH (table ++ [r])) as (ins & Heq & Hin & Hall & Hd).
      exists (r :: ins). rewrite Heq.
      replace ((table ++ [r]) ++ ins) with (table ++ r :: ins)
        in * by (rewrite <- app_assoc; reflexivity).
      split; [f_equal; simpl length; lia|].
      split; [|split].
      * intros r' [<-|Hr']; [split; [now left | exact E]|].
        destruct (Hin _ Hr') as [Hi Hx]. split; [now right|].
        rewrite existsb_app in Hx. now apply orb_false_iff in Hx.
      * intros r' [<-|Hr'].
        -- rewrite existsb_app. simpl. rewrite same_key_refl.
           now rewrite orb_true_r.
        -- now apply Hall.
      * intros Hdt. apply Hd. now constructor.
Qed.

(** The reconcile transaction only appends to the chapter table. *)
Lemma transaction_spec (t : Z) (d : db Num) (source : SeriesSource.t)
    (sd : ScrapedSeries Num) :
  exists inserted,
    chapter (fst (transaction P t d source sd)) = chapter d ++ inserted /\
    snd (transaction P t d source sd) = Z.of_nat (length inserted) /\
    (forall r, In r inserted ->
       List.existsb (same_key r) (chapter d) = false /\
       exists c, In c (chapters sd) /\ r = newChapter source c /\
         Js.has (existingNumbers P (SeriesSource.id source) (chapter d))
                (toString P (chapterNumber c)) = false) /\
    (forall c, In c (chapters sd) ->
       Js.has (existingNumbers P (SeriesSource.id source) (chapter d))
              (toString P (chapterNumber c)) = false ->
       List.existsb (same_key (newChapter source c)) (chapter d ++ inserted)
         = true) /\
    (distinct_keys (chapter d) -> distinct_keys (chapter d ++ inserted)).
Proof.
  unfold transaction.
  set (ex := existingNumbers P (SeriesSource.id source) (chapter d)).
  destruct (newChaptersData P source ex (chapters sd)) as [|r0 rest] eqn:E.
  - exists []. simpl. rewrite app_nil_r.
    split; [reflexivity|]. split; [reflexivity|].
    split; [intros r []|]. split; [|tauto].
    intros c Hc Hnew.
    pose proof (newChaptersData_keeps source ex (chapters sd) c Hc Hnew) as Hin.
    rewrite E in Hin. destruct Hin.
  - change (0 <? length (r0 :: rest))%nat with true. cbv iota.
    destruct (createMany_skipDuplicates_spec (r0 :: rest) (chapter d))
      as (ins & Heq & Hin & Hall & Hd).
    exists ins. rewrite Heq. simpl.
    split; [reflexivity|]. split; [reflexivity|].
    split; [|split; [|exact Hd]].
    + intros r Hr. destruct (Hin _ Hr) as [Hdata Hfresh].
      split; [exact Hfresh|]. rewrite <- E in Hdata.
      now apply newChaptersData_In in Hdata.
    + intros c Hc Hnew. apply Hall. rewrite <- E.
      now apply newChaptersData_keeps.
Qed.

Lemma transaction_covers (t : Z) (d : db Num) (source : SeriesSource.t)
    (sd : ScrapedSeries Num) (c : ScrapedChapter Num) :
  In c (chapters sd) ->
  Js.has (existingNumbers P (SeriesSource.id source)
            (chapter (fst (transaction P t d source sd))))
         (toString P (chapterNumber c)) = true.
Proof.
  intros Hc.
  destruct (transaction_spec t d source sd)
    as (ins & Hch & _ & _ & Hall & _).
  rewrite Hch. apply has_In, existingNumbers_In.
  destruct (Js.has (existingNumbers P (SeriesSource.id source) (chapter d))
              (toString P (chapterNumber c))) eqn:E.
  - apply has_In, existingNumbers_In in E as (r & Hr & Hs & Hk).
    exists r. split; [apply in_or_app; now left | tauto].
  - specialize (Hall c Hc E). apply existsb_exists in Hall as (r & Hr & Hk).
    apply same_key_spec in Hk as [Hs Hn]. simpl in Hs, Hn.
    exists r. split; [exact Hr|]. split; [now symmetry|].
    now rewrite <- Hn.
Qed.

(** C1. Reconciling the same scraped list a second time leaves the
    chapter table exactly as the first pass left it and inserts nothing.
    The first pass only appends: stored rows are kept as they are, every
    appended row comes from a scraped chapter whose number was not stored
    for this source, no appended row repeats a stored key, and the unique
    key (source record, chapter number) stays unique. *)
Theorem reconcile_twice_is_once (t1 t2 : Z) (d : db Num)
    (source source' : SeriesSource.t) (sd : ScrapedSeries Num) :
  SeriesSource.id source' = SeriesSource.id source ->
  chapter (fst (transaction P t2 (fst (transaction P t1 d source sd))
                  source' sd))
    = chapter (fst (transaction P t1 d source sd)) /\
  snd (transaction P t2 (fst (transaction P t1 d source sd)) source' sd) = 0 /\
  exists inserted,
    chapter (fst (transaction P t1 d source sd)) = chapter d ++ inserted /\
    snd (transaction P t1 d source sd) = Z.of_nat (length inserted) /\
    (forall r, In r inserted ->
       List.existsb (same_key r) (chapter d) = false /\
       exists c, In c (chapters sd) /\ r = newChapter source c /\
         Js.has (existingNumbers P (SeriesSource.id source) (chapter d))
                (toString P (chapterNumber c)) = false) /\
    (distinct_keys (chapter d) -> distinct_keys (chapter d ++ inserted)).
Proof.
  intros Hid.
  set (once := transaction P t1 d source sd).
  assert (Hnil : newChaptersData P source'
            (existingNumbers P (SeriesSource.id source') (chapter (fst once)))
            (chapters sd) = []).
  { apply newChaptersData_nil. intros c Hc. rewrite Hid.
    now apply transaction_covers. }
  split; [|split].
  - unfold transaction at 1. rewrite Hnil. reflexivity.
  - unfold transaction at 1. rewrite Hnil. reflexivity.
  - destruct (transaction_spec t1 d source sd)
      as (ins & Hch & Hn & Hin & _ & Hd).
    exists ins. tauto.
Qed.

(** ** The paths through the handler *)

Lemma circuit_open_data_id t s :
  SeriesSource.id (circuit_open_data t s) = SeriesSource.id s.
Proof. reflexivity. Qed.

Lemma failure_data_id t s :
  SeriesSource.id (failure_data t s) = SeriesSource.id s.
Proof. reflexivity. Qed.

Lemma success_data_id t n s :
  SeriesSource.id (success_data t n s) = SeriesSource.id s.
Proof. reflexivity. Qed.

Lemma transaction_sources (t : Z) (d : db Num) (source : SeriesSource.t)
    (sd : ScrapedSeries Num) :
  seriesSource (fst (transaction P t d source sd))
    = SeriesSource.update (SeriesSource.id source)
        (success_data t (snd (transaction P t d source sd))) (seriesSource d).
Proof.
  unfold transaction.
  destruct (0 <? length _)%nat; [|reflexivity].
  destruct (createMany_skipDuplicates _ _). reflexivity.
Qed.

Lemma run_invalid_payload (e : env Num) (d : db Num) data :
  Js.as_uuid (seriesSourceId data) = None ->
  processSyncSource P e d data = mkRun Queue.Threw d [].
Proof. intros H0. unfold processSyncSource. now rewrite H0. Qed.

Lemma run_missing_source (e : env Num) (d : db Num) data sid :
  Js.as_uuid (seriesSourceId data) = Some sid ->
  SeriesSource.findUnique sid (seriesSource d) = None ->
  processSyncSource P e d data = mkRun Queue.Returned d [Log LogWarn].
Proof. intros H0 H1. unfold processSyncSource. now rewrite H0, H1. Qed.

Lemma run_circuit_open (e : env Num) (d : db Num) data sid source :
  Js.as_uuid (seriesSourceId data) = Some sid ->
  SeriesSource.findUnique sid (seriesSource d) = Some source ->
  MAX_CONSECUTIVE_FAILURES <= SeriesSource.failure_count source ->
  processSyncSource P e d data
    = mkRun Queue.Returned
        (mkDb (SeriesSource.update sid (circuit_open_data (now e))
                 (seriesSource d)) (chapter d))
        [Log LogWarn].
Proof.
  intros H0 H1 H2. unfold processSyncSource. rewrite H0, H1.
  apply Z.leb_le in H2. rewrite H2.
  now rewrite (findUnique_id _ _ _ H1).
Qed.

Lemma run_invalid_url (e : env Num) (d : db Num) data sid source :
  Js.as_uuid (seriesSourceId data) = Some sid ->
  SeriesSource.findUnique sid (seriesSource d) = Some source ->
  SeriesSource.failure_count source < MAX_CONSECUTIVE_FAILURES ->
  validateSourceUrl (hostname P) (SeriesSource.source_url source) = false ->
  processSyncSource P e d data
    = mkRun Queue.Returned
        (mkDb (SeriesSource.update sid (failure_data (now e))
                 (seriesSource d)) (chapter d))
        [Log LogError].
Proof.
  intros H0 H1 H2 H3. unfold processSyncSource. rewrite H0, H1.
  apply Z.leb_gt in H2. rewrite H2, H3. simpl.
  now rewrite (findUnique_id _ _ _ H1).
Qed.

Lemma run_no_scraper (e : env Num) (d : db Num) data sid source :
  Js.as_uuid (seriesSourceId data) = Some sid ->
  SeriesSource.findUnique sid (seriesSource d) = Some source ->
  SeriesSource.failure_count source < MAX_CONSECUTIVE_FAILURES ->
  validateSourceUrl (hostname P) (SeriesSource.source_url source) = true ->
  scrapers (mangapark e) (mangadex e)
    (Js.toLowerCase (SeriesSource.source_name source)) = None ->
  processSyncSource P e d data = mkRun Queue.Returned d [Log LogError].
Proof.
  intros H0 H1 H2 H3 H4. unfold processSyncSource. rewrite H0, H1.
  apply Z.leb_gt in H2. rewrite H2, H3. simpl. now rewrite H4.
Qed.

Lemma run_inherited (e : env Num) (d : db Num) data sid source :
  Js.as_uuid (seriesSourceId data) = Some sid ->
  SeriesSource.findUnique sid (seriesSource d) = Some source ->
  SeriesSource.failure_count source < MAX_CONSECUTIVE_FAILURES ->
  validateSourceUrl (hostname P) (SeriesSource.source_url source) = true ->
  scrapers (mangapark e) (mangadex e)
    (Js.toLowerCase (SeriesSource.source_name source)) = Some Inherited ->
  processSyncSource P e d data = on_error e d source OtherError [].
Proof.
  intros H0 H1 H2 H3 H4. unfold processSyncSource. rewrite H0, H1.
  apply Z.leb_gt in H2. rewrite H2, H3. simpl. now rewrite H4.
Qed.

Lemma run_rejected (e : env Num) (d : db Num) data sid source scraper error :
  Js.as_uuid (seriesSourceId data) = Some sid ->
  SeriesSource.findUnique sid (seriesSource d) = Some source ->
  SeriesSource.failure_count source < MAX_CONSECUTIVE_FAILURES ->
  validateSourceUrl (hostname P) (SeriesSource.source_url source) = true ->
  scrapers (mangapark e) (mangadex e)
    (Js.toLowerCase (SeriesSource.source_name source))
    = Some (Adapter scraper) ->
  scraper (SeriesSource.source_id source) = Rejected error ->
  processSyncSource P e d data
    = on_error e d source error
        [ScrapeSeries (Js.toLowerCase (SeriesSource.source_name source))
           (SeriesSource.source_id source)].
Proof.
  intros H0 H1 H2 H3 H4 H5. unfold processSyncSource. rewrite H0, H1.
  apply Z.leb_gt in H2. rewrite H2, H3. simpl. now rewrite H4, H5.
Qed.

Lemma run_resolved (e : env Num) (d : db Num) data sid source scraper sd :
  Js.as_uuid (seriesSourceId data) = Some sid ->
  SeriesSource.findUnique sid (seriesSource d) = Some source ->
  SeriesSource.failure_count source < MAX_CONSECUTIVE_FAILURES ->
  validateSourceUrl (hostname P) (SeriesSource.source_url source) = true ->
  scrapers (mangapark e) (mangadex e)
    (Js.toLowerCase (SeriesSource.source_name source))
    = Some (Adapter scraper) ->
  scraper (SeriesSource.source_id source) = Resolved sd ->
  let committed := fst (transaction P (now e) d source sd) in
  let result := snd (transaction P (now e) d source sd) in
  let called :=
    [ScrapeSeries (Js.toLowerCase (SeriesSource.source_name source))
       (SeriesSource.source_id source)] in
  processSyncSource P e d data
    = if 0 <? result then
        if notificationQueue_add e then
          mkRun Queue.Returned committed
            (called ++
             [NotificationAdded
                ("notify-" +:+ SeriesSource.series_id source +:+ "-"
                   +:+ Js.of_Z (now e))
                (SeriesSource.series_id source) (SeriesSource.id source)
                result])
        else on_error e committed source OtherError called
      else mkRun Queue.Returned committed called.
Proof.
  intros H0 H1 H2 H3 H4 H5. unfold processSyncSource. rewrite H0, H1.
  apply Z.leb_gt in H2. rewrite H2, H3. simpl. rewrite H4, H5.
  destruct (transaction P (now e) d source sd) as [d' n]. reflexivity.
Qed.

(** C2. Once a source has accumulated five consecutive failures, every
    sync attempt on it, however many follow and whatever the scrapers
    would answer, fetches nothing, returns normally (so the queue does
    not retry), and leaves the row in tier COLD with its next check 24
    hours after that attempt and its failure count untouched. *)
Theorem circuit_open_never_fetches (es : list (env Num)) :
  forall (d : db Num) data sid source,
  Js.as_uuid (seriesSourceId data) = Some sid ->
  SeriesSource.findUnique sid (seriesSource d) = Some source ->
  MAX_CONSECUTIVE_FAILURES <= SeriesSource.failure_count source ->
  Forall2 (parked sid (SeriesSource.failure_count source))
    es (attempts P es d data).
Proof.
  induction es as [|e rest IH]; intros d data sid source H0 H1 H2; simpl.
  - constructor.
  - rewrite (run_circuit_open e d data sid source H0 H1 H2).
    assert (Hfind : SeriesSource.findUnique sid
              (SeriesSource.update sid (circuit_open_data (now e))
                 (seriesSource d))
            = Some (circuit_open_data (now e) source)).
    { rewrite findUnique_update_same by apply circuit_open_data_id.
      now rewrite H1. }
    constructor.
    + unfold parked. simpl. split; [reflexivity|]. split; [reflexivity|].
      exists (circuit_open_data (now e) source). now rewrite Hfind.
    + exact (IH (mkDb _ (chapter d)) data sid
               (circuit_open_data (now e) source) H0 Hfind H2).
Qed.

(** ** Failure counter *)

Lemma failure_count_update_same sid (f : SeriesSource.t -> SeriesSource.t)
    rows (chs : list (Chapter.t Num)) source :
  (forall s, SeriesSource.id (f s) = SeriesSource.id s) ->
  SeriesSource.findUnique sid rows = Some source ->
  failure_count_of sid (mkDb (SeriesSource.update sid f rows) chs)
    = Some (SeriesSource.failure_count (f source)).
Proof.
  intros Hid Hf. unfold failure_count_of. simpl.
  rewrite findUnique_update_same by exact Hid. now rewrite Hf.
Qed.

Lemma failure_count_update_other sid key
    (f : SeriesSource.t -> SeriesSource.t) rows (chs chs' : list (Chapter.t Num)) :
  (forall s, SeriesSource.id (f s) = SeriesSource.id s) ->
  key <> sid ->
  failure_count_of key (mkDb (SeriesSource.update sid f rows) chs)
    = failure_count_of key (mkDb rows chs').
Proof.
  intros Hid Hne. unfold failure_count_of. simpl.
  rewrite findUnique_update_other by (auto; congruence). reflexivity.
Qed.


Lemma failure_count_committed_other (t : Z) (d : db Num) source sd key :
  key <> SeriesSource.id source ->
  failure_count_of key (fst (transaction P t d source sd))
    = failure_count_of key d.
Proof.
  intros Hne. unfold failure_count_of. rewrite transaction_sources.
  rewrite findUnique_update_other by (try apply success_data_id; congruence).
  reflexivity.
Qed.

Lemma failure_count_on_error_other (e : env Num) (d : db Num) source error tr key :
  key <> SeriesSource.id source ->
  failure_count_of key (store (on_error e d source error tr))
    = failure_count_of key d.
Proof.
  intros Hne. unfold on_error, failure_count_of. simpl.
  rewrite findUnique_update_other by (try apply failure_data_id; congruence).
  reflexivity.
Qed.

(** Every run leaves the counters of the other sources alone. *)
Lemma other_sources_untouched (e : env Num) (d : db Num) data sid key :
  Js.as_uuid (seriesSourceId data) = Some sid ->
  key <> sid ->
  failure_count_of key (store (processSyncSource P e d data))
    = failure_count_of key d.
Proof.
  intros H0 Hne.
  destruct (SeriesSource.findUnique sid (seriesSource d)) as [source|] eqn:H1;
    [|now rewrite (run_missing_source e d data sid H0 H1)].
  pose proof (findUnique_id _ _ _ H1) as Hsid.
  destruct (Z.le_gt_cases MAX_CONSECUTIVE_FAILURES
              (SeriesSource.failure_count source)) as [H2|H2].
  { rewrite (run_circuit_open e d data sid source H0 H1 H2). simpl.
    destruct d as [rows chs]. simpl.
    now apply failure_count_update_other; [apply circuit_open_data_id|]. }
  destruct (validateSourceUrl (hostname P) (SeriesSource.source_url source))
    eqn:H3;
    [|rewrite (run_invalid_url e d data sid source H0 H1 H2 H3); simpl;
      destruct d as [rows chs]; simpl;
      now apply failure_count_update_other; [apply failure_data_id|]].
  destruct (scrapers (mangapark e) (mangadex e)
              (Js.toLowerCase (SeriesSource.source_name source)))
    as [[scraper|]|] eqn:H4;
    [|rewrite (run_inherited e d data sid source H0 H1 H2 H3 H4);
      apply failure_count_on_error_other; congruence
     |now rewrite (run_no_scraper e d data sid source H0 H1 H2 H3 H4)].
  destruct (scraper (SeriesSource.source_id source)) as [sd|error] eqn:H5.
  - rewrite (run_resolved e d data sid source scraper sd H0 H1 H2 H3 H4 H5).
    cbv zeta.
    destruct (0 <? snd _); [destruct (notificationQueue_add e)|].
    + simpl store. apply failure_count_committed_other. congruence.
    + rewrite failure_count_on_error_other by congruence.
      apply failure_count_committed_other. congruence.
    + simpl store. apply failure_count_committed_other. congruence.
  - rewrite (run_rejected e d data sid source scraper error H0 H1 H2 H3 H4 H5).
    apply failure_count_on_error_other. congruence.
Qed.


(** ** Downstream failure after the commit *)

(** When the notification enqueue rejects after the transaction has
    committed, the rows written by the transaction stay, but the shared
    [catch] block counts a failure and rethrows. *)
Lemma enqueue_failure_after_commit (e : env Num) (d : db Num) data sid source
    scraper sd :
  Js.as_uuid (seriesSourceId data) = Some sid ->
  SeriesSource.findUnique sid (seriesSource d) = Some source ->
  SeriesSource.failure_count source < MAX_CONSECUTIVE_FAILURES ->
  validateSourceUrl (hostname P) (SeriesSource.source_url source) = true ->
  scrapers (mangapark e) (mangadex e)
    (Js.toLowerCase (SeriesSource.source_name source))
    = Some (Adapter scraper) ->
  scraper (SeriesSource.source_id source) = Resolved sd ->
  0 < snd (transaction P (now e) d source sd) ->
  notificationQueue_add e = false ->
  chapter (store (processSyncSource P e d data))
    = chapter (fst (transaction P (now e) d source sd)) /\
  outcome (processSyncSource P e d data) = Queue.Threw /\
  failure_count_of sid (store (processSyncSource P e d data)) = Some 1.
Proof.
  intros H0 H1 H2 H3 H4 H5 Hn Hadd.
  rewrite (run_resolved e d data sid source scraper sd H0 H1 H2 H3 H4 H5).
  cbv zeta. apply Z.ltb_lt in Hn. rewrite Hn, Hadd.
  pose proof (findUnique_id _ _ _ H1) as Hsid. subst sid.
  split; [reflexivity|]. split; [reflexivity|].
  unfold on_error, failure_count_of. simpl store. simpl seriesSource.
  rewrite findUnique_update_same by apply failure_data_id.
  rewrite transaction_sources.
  rewrite findUnique_update_same by apply success_data_id.
  now rewrite H1.
Qed.

End Facts.

(** ** The handler on concrete stores *)

Lemma reconcile_twice_is_once_witness :
  chapter (fst (transaction Examples.P0 2000
                  (fst (transaction Examples.P0 1000
                          (Examples.sync_db Examples.dex) Examples.dex
                          Examples.chapters123))
                  (success_data 1000 1 Examples.dex) Examples.chapters123))
  = chapter (fst (transaction Examples.P0 1000
                    (Examples.sync_db Examples.dex) Examples.dex
                    Examples.chapters123)).
Proof.
  exact (proj1 (reconcile_twice_is_once Examples.P0 1000 2000
                  (Examples.sync_db Examples.dex) Examples.dex
                  (success_data 1000 1 Examples.dex) Examples.chapters123
                  eq_refl)).
Defined.

(** The scraped list 1, 2, 2 against a store holding chapter 1 adds
    chapter 2 once. *)
Example reconcile_example :
  List.map Chapter.chapter_number
    (chapter (fst (transaction Examples.P0 1000
                     (Examples.sync_db Examples.dex) Examples.dex
                     Examples.chapters123))) = [1; 2] /\
  snd (transaction Examples.P0 1000 (Examples.sync_db Examples.dex)
         Examples.dex Examples.chapters123) = 1.
Proof. vm_compute. split; reflexivity. Qed.

Lemma circuit_open_never_fetches_witness :
  Forall2 (parked Examples.uuid_a 5)
    [Examples.sync_env 1000 true; Examples.sync_env 2000 true]
    (attempts Examples.P0
       [Examples.sync_env 1000 true; Examples.sync_env 2000 true]
       (Examples.sync_db Examples.broken) Examples.sync_job).
Proof.
  exact (circuit_open_never_fetches Examples.P0
           [Examples.sync_env 1000 true; Examples.sync_env 2000 true]
           (Examples.sync_db Examples.broken) Examples.sync_job
           Examples.uuid_a Examples.broken eq_refl eq_refl (Z.le_refl 5)).
Defined.


(** A source named [Constructor] with a valid URL and two earlier
    failures: the registry lookup finds an inherited member, the call
    throws, and the shared [catch] counts a third failure and rethrows. *)
Example inherited_member_is_counted :
  failure_count_of Examples.uuid_a
    (store (processSyncSource Examples.P0 (Examples.sync_env 1000 true)
              (Examples.sync_db Examples.odd_name) Examples.sync_job))
    = Some 3 /\
  outcome (processSyncSource Examples.P0 (Examples.sync_env 1000 true)
             (Examples.sync_db Examples.odd_name) Examples.sync_job)
    = Queue.Threw /\
  scraper_called
    (trace (processSyncSource Examples.P0 (Examples.sync_env 1000 true)
              (Examples.sync_db Examples.odd_name) Examples.sync_job))
    = false.
Proof. vm_compute. repeat split; reflexivity. Qed.


(** C4 on the sync side.  One new chapter is committed and the
    notification enqueue rejects: the chapter stays stored, but the run
    ends by throwing, the queue schedules a retry, and the source is left
    with one recorded failure. *)
Lemma sync_enqueue_failure_fails_the_job :
  snd (transaction Examples.P0 1000 (Examples.sync_db Examples.dex)
         Examples.dex Examples.chapters123) = 1 /\
  List.map Chapter.chapter_number
    (chapter (store (processSyncSource Examples.P0
                       (Examples.sync_env 1000 false)
                       (Examples.sync_db Examples.dex) Examples.sync_job)))
    = [1; 2] /\
  outcome (processSyncSource Examples.P0 (Examples.sync_env 1000 false)
             (Examples.sync_db Examples.dex) Examples.sync_job)
    = Queue.Threw /\
  Queue.retried Queue.SYNC_SOURCE_ATTEMPTS 1
    (outcome (processSyncSource Examples.P0 (Examples.sync_env 1000 false)
                (Examples.sync_db Examples.dex) Examples.sync_job)) = true /\
  failure_count_of Examples.uuid_a
    (store (processSyncSource Examples.P0 (Examples.sync_env 1000 false)
              (Examples.sync_db Examples.dex) Examples.sync_job)) = Some 1.
Proof. vm_compute. repeat split; reflexivity. Qed.

(** C10 on the sync side.  A payload whose [seriesSourceId] is not a
    UUID changes nothing in the store, but the handler throws, so the
    queue retries the job while attempts remain. *)
Lemma sync_invalid_payload_is_retried :
  Js.as_uuid (seriesSourceId Examples.bad_sync_job) = None /\
  store (processSyncSource Examples.P0 (Examples.sync_env 1000 true)
           (Examples.sync_db Examples.dex) Examples.bad_sync_job)
    = Examples.sync_db Examples.dex /\
  outcome (processSyncSource Examples.P0 (Examples.sync_env 1000 true)
             (Examples.sync_db Examples.dex) Examples.bad_sync_job)
    = Queue.Threw /\
  Queue.retried Queue.SYNC_SOURCE_ATTEMPTS 1
    (outcome (processSyncSource Examples.P0 (Examples.sync_env 1000 true)
                (Examples.sync_db Examples.dex) Examples.bad_sync_job)) = true.
Proof. vm_compute. repeat split; reflexivity. Qed.

End SyncSourceFacts.

(** ** Canonicalization worker *)

Module CanonicalizeFacts.
Import Canonicalize.

Lemma set_or_keep_or_old (old v : option string) :
  Js.truthy old = true -> set_or_keep old (Js.or old v) = old.
Proof.
  intros H0. unfold Js.or. rewrite H0.
  destruct old; [reflexivity | discriminate].
Qed.

(** What the merge does keep: an external catalog id, a
    description and a status that are already filled survive the merge;
    a non-empty genre list survives, an empty one is replaced by the
    incoming list as a whole. *)
Lemma merge_keeps_filled (s : Series.t) (j : CanonicalizeJobData) :
  (Js.truthy (Series.mangadex_id s) = true ->
   Series.mangadex_id (merge s j) = Series.mangadex_id s) /\
  (Js.truthy (Series.description s) = true ->
   Series.description (merge s j) = Series.description s) /\
  (Js.truthy (Series.status s) = true ->
   Series.status (merge s j) = Series.status s) /\
  (Series.genres s <> [] -> Series.genres (merge s j) = Series.genres s) /\
  (Series.genres s = [] -> Series.genres (merge s j) = genres j).
Proof.
  unfold merge. simpl.
  repeat split; try (intros H0; now apply set_or_keep_or_old).
  - intros H0. destruct (Series.genres s); [congruence | reflexivity].
  - intros ->. reflexivity.
Qed.

(** The content rating goes the other way: whenever the candidate
    carries one, it replaces the stored value. *)
Lemma merge_content_rating (s : Series.t) (j : CanonicalizeJobData) :
  Js.truthy (content_rating j) = true ->
  Series.content_rating (merge s j) = content_rating j.
Proof.
  intros H0. unfold merge. simpl. unfold Js.or. rewrite H0.
  destruct (content_rating j); [reflexivity | discriminate].
Qed.

(** C3 at a matched series: the stored rating "safe" is overwritten by
    the candidate's "erotica" although it was not empty. *)
Lemma content_rating_is_overwritten :
  resolve Examples.canon_db Examples.canon_job = Some Examples.rated /\
  Series.content_rating Examples.rated = Some "safe" /\
  Series.content_rating <$>
    findSeriesById Examples.uuid_s
      (series (store (processCanonicalize (Examples.canon_env true)
                        Examples.canon_db Examples.canon_job)))
    = Some (Some "erotica").
Proof. vm_compute. repeat split; reflexivity. Qed.

(** On the canonicalization side a rejected broadcast is logged and
    nothing else changes; the job returns the same result over the same
    committed store. *)
Lemma broadcast_failure_is_swallowed (e : env) (d : db)
    (j : CanonicalizeJobData) :
  broadcast_send e = false ->
  outcome (processCanonicalize e d j) = Queue.Returned /\
  store (processCanonicalize e d j) = fst (fst (transaction e d j)) /\
  returned (processCanonicalize e d j)
    = Some (mkResult (Series.id (snd (fst (transaction e d j))))
              (snd (transaction e d j))) /\
  trace (processCanonicalize e d j) = [Log LogError].
Proof.
  intros H0. unfold processCanonicalize.
  destruct (transaction e d j) as [[d' s] c]. rewrite H0. simpl. tauto.
Qed.

Lemma broadcast_failure_is_swallowed_witness :
  outcome (processCanonicalize (Examples.canon_env false) Examples.canon_db
             Examples.canon_job) = Queue.Returned.
Proof.
  exact (proj1 (broadcast_failure_is_swallowed (Examples.canon_env false)
                  Examples.canon_db Examples.canon_job eq_refl)).
Defined.

End CanonicalizeFacts.

(** ** Notification worker *)

Module NotificationFacts.
Import Notification.

Lemma build_user t0 jid sid src ttl count sub :
  user_id (build t0 jid sid src ttl count sub) = entry_user_id sub.
Proof. reflexivity. Qed.

Lemma notificationsToCreate_users t0 jid sid src ttl count subs existing :
  List.map user_id (notificationsToCreate t0 jid sid src ttl count subs existing)
  = List.map entry_user_id
      (List.filter (fun sub => negb (Js.has (List.map user_id existing)
                                       (entry_user_id sub))) subs).
Proof. unfold notificationsToCreate. now rewrite List.map_map. Qed.

Lemma notificationsToCreate_In t0 jid sid src ttl count subs existing n :
  In n (notificationsToCreate t0 jid sid src ttl count subs existing) ->
  series_id n = sid /\ type n = "NEW_CHAPTER" /\ created_at n = t0 /\
  (exists sub, In sub subs /\ user_id n = entry_user_id sub) /\
  ~ In (user_id n) (List.map user_id existing).
Proof.
  unfold notificationsToCreate. intros Hn.
  apply in_map_iff in Hn as (sub & <- & Hs).
  apply filter_In in Hs as [Hs Hfresh]. simpl.
  repeat split; [eauto|].
  apply negb_true_iff in Hfresh. now apply has_false_In.
Qed.

Lemma existingNotifications_In sid w rows m :
  In m (existingNotifications sid w rows) <->
  In m rows /\ series_id m = sid /\ type m = "NEW_CHAPTER" /\ w <= created_at m.
Proof.
  unfold existingNotifications. rewrite filter_In.
  rewrite !andb_true_iff, !String.eqb_eq, Z.leb_le. tauto.
Qed.

Lemma NoDup_map_filter {A B} (f : A -> B) (p : A -> bool) (l : list A) :
  List.NoDup (List.map f l) -> List.NoDup (List.map f (List.filter p l)).
Proof.
  induction l as [|a l IH]; simpl; [trivial|].
  intros Hnd. inversion Hnd as [|? ? Hnotin Hrest]; subst.
  destruct (p a); simpl; [|auto].
  constructor; [|auto].
  intros Hin. apply Hnotin. apply in_map_iff in Hin as (x & Hx & Hf).
  apply filter_In in Hf as [Hf _]. apply in_map_iff. eauto.
Qed.

(** The rows a run adds: none, or the batch built from the subscribers
    that have no alert inside the window. *)
Lemma run_created (now : Z) (d : db) (j : job) (sid : string) :
  Js.as_uuid (seriesId (data j)) = Some sid ->
  notification (store (processNotification now d j))
    = notification d ++ created d (processNotification now d j) /\
  (created d (processNotification now d j) = [] \/
   exists src ttl count,
     created d (processNotification now d j)
     = notificationsToCreate now (job_id j) sid src ttl count
         (subscribers sid (libraryEntry d))
         (existingNotifications sid (now - WINDOW_MS) (notification d))).
Proof.
  intros H0. unfold created, processNotification, plan. rewrite H0.
  assert (Hsame : notification d
                  = notification d ++ List.skipn (length (notification d))
                                        (notification d)).
  { now rewrite List.skipn_all, app_nil_r. }
  assert (Hnil : List.skipn (length (notification d)) (notification d) = []).
  { apply List.skipn_all. }
  destruct (Js.as_uuid (sourceId (data j))) as [src|]; [|simpl; auto].
  destruct (Js.as_positive_int (newChapterCount (data j))) as [count|];
    [|simpl; auto].
  destruct (List.find _ (series d)) as [s|]; [|simpl; auto].
  destruct (length (subscribers sid (libraryEntry d)) =? 0)%nat;
    [simpl; auto|].
  destruct (length (notificationsToCreate _ _ _ _ _ _ _ _) =? 0)%nat;
    [simpl; auto|].
  simpl.
  assert (Hdrop : forall fresh : list t,
            List.skipn (length (notification d)) (notification d ++ fresh)
            = fresh).
  { intros fresh. rewrite List.skipn_app, Hnil, Nat.sub_diag. reflexivity. }
  rewrite Hdrop. split; [reflexivity|]. right. eauto.
Qed.

Lemma well_spaced_app (rows fresh : list t) :
  well_spaced rows ->
  (forall n m, In n fresh -> In m rows -> same_alert m n -> apart m n) ->
  (forall n, In n fresh -> type n = "NEW_CHAPTER") ->
  (exists sid, forall n, In n fresh -> series_id n = sid) ->
  List.NoDup (List.map user_id fresh) ->
  well_spaced (rows ++ fresh).
Proof.
  revert rows. induction fresh as [|n fresh IH]; intros rows Hws Hold Hty Hsid Hnd.
  - now rewrite app_nil_r.
  - replace (rows ++ n :: fresh) with ((rows ++ [n]) ++ fresh)
      by (rewrite <- app_assoc; reflexivity).
    inversion Hnd as [|? ? Hnotin Hrest]; subst.
    apply IH.
    + constructor; [exact Hws|]. intros m Hm. apply Hold; [now left | exact Hm].
    + intros n' m Hn' Hm Hsame. apply in_app_or in Hm as [Hm|[<-|[]]].
      * apply Hold; [now right | exact Hm | exact Hsame].
      * exfalso. apply Hnotin. destruct Hsame as (Hu & _).
        rewrite Hu. now apply in_map.
    + intros n' Hn'. apply Hty. now right.
    + destruct Hsid as [sid Hsid]. exists sid. intros n' Hn'. apply Hsid.
      now right.
    + exact Hrest.
Qed.

(** X24. Runs of the handler executed one after another.  For a job on
    series [sid] whose subscriber list names each user once: the run only
    appends NEW_CHAPTER rows for [sid] stamped [now];
    no appended row goes to a user who already has such a row created at
    or after [now] minus five minutes; no user receives two rows from
    the run; a table in which equal alerts are more than a window apart
    stays so; and a later run for the same series that starts within
    five minutes of this one adds nothing for the users this run
    notified. *)
Theorem new_chapter_alerts_are_deduplicated (now : Z) (d : db) (j : job)
    (sid : string) :
  Js.as_uuid (seriesId (data j)) = Some sid ->
  List.NoDup (List.map entry_user_id (subscribers sid (libraryEntry d))) ->
  notification (store (processNotification now d j))
    = notification d ++ created d (processNotification now d j) /\
  (forall n, In n (created d (processNotification now d j)) ->
     series_id n = sid /\ type n = "NEW_CHAPTER" /\ created_at n = now /\
     forall m, In m (notification d) -> in_window sid now m ->
               user_id m <> user_id n) /\
  List.NoDup (List.map user_id (created d (processNotification now d j))) /\
  (well_spaced (notification d) ->
   well_spaced (notification (store (processNotification now d j)))) /\
  (forall now' j',
     Js.as_uuid (seriesId (data j')) = Some sid ->
     now' - WINDOW_MS <= now ->
     forall n n',
       In n (created d (processNotification now d j)) ->
       In n' (created (store (processNotification now d j))
                (processNotification now'
                   (store (processNotification now d j)) j')) ->
       user_id n' <> user_id n).
Proof.
  intros H0 Hnd.
  destruct (run_created now d j sid H0) as [Happ Hshape].
  assert (Hrows : forall n, In n (created d (processNotification now d j)) ->
     series_id n = sid /\ type n = "NEW_CHAPTER" /\ created_at n = now /\
     forall m, In m (notification d) -> in_window sid now m ->
               user_id m <> user_id n).
  { intros n Hn. destruct Hshape as [Hnil|(src & ttl & count & Heq)].
    - rewrite Hnil in Hn. destruct Hn.
    - rewrite Heq in Hn.
      apply notificationsToCreate_In in Hn as (Hs & Hty & Ht & _ & Hfresh).
      repeat split; try assumption.
      intros m Hm (Hms & Hmt & Hmw) Hu. apply Hfresh. rewrite <- Hu.
      apply in_map. apply existingNotifications_In. tauto. }
  assert (Hnodup : List.NoDup
            (List.map user_id (created d (processNotification now d j)))).
  { destruct Hshape as [->|(src & ttl & count & ->)]; [constructor|].
    rewrite notificationsToCreate_users. now apply NoDup_map_filter. }
  split; [exact Happ|]. split; [exact Hrows|]. split; [exact Hnodup|].
  split.
  - intros Hws. rewrite Happ. apply well_spaced_app; try assumption.
    + intros n m Hn Hm (Hu & Hs & Hmt & _).
      destruct (Hrows n Hn) as (Hns & _ & Hnt & Hex).
      unfold apart. rewrite Hnt.
      destruct (Z.le_gt_cases (now - WINDOW_MS) (created_at m)) as [Hin|Hout].
      * exfalso. apply (Hex m Hm); [|exact Hu].
        unfold in_window. split; [congruence|]. split; assumption.
      * lia.
    + intros n Hn. now destruct (Hrows n Hn) as (_ & ? & _).
    + exists sid. intros n Hn. now destruct (Hrows n Hn) as (? & _).
  - intros now' j' H0' Hclose n n' Hn Hn'.
    destruct (run_created now' (store (processNotification now d j)) j' sid H0')
      as [_ [Hnil|(src & ttl & count & Heq)]].
    + rewrite Hnil in Hn'. destruct Hn'.
    + rewrite Heq in Hn'.
      apply notificationsToCreate_In in Hn' as (_ & _ & _ & _ & Hfresh).
      intros Hu. apply Hfresh. rewrite Hu. apply in_map.
      destruct (Hrows n Hn) as (Hs & Hty & Ht & _).
      apply existingNotifications_In. rewrite Happ.
      split; [apply in_or_app; now right|]. split; [exact Hs|].
      split; [exact Hty | lia].
Qed.

Lemma new_chapter_alerts_are_deduplicated_witness :
  List.NoDup
    (List.map user_id
       (created Examples.notify_db
          (processNotification 1000 Examples.notify_db
             (Examples.notify_job (Js.Int 2))))).
Proof.
  refine (proj1 (proj2 (proj2
    (new_chapter_alerts_are_deduplicated 1000 Examples.notify_db
       (Examples.notify_job (Js.Int 2)) Examples.uuid_s eq_refl _)))).
  vm_compute. repeat constructor; simpl; intuition discriminate.
Defined.

(** Two subscribers, nobody notified yet: one alert each; the same job
    four minutes later adds nothing. *)
Example rerun_inside_window :
  List.map user_id
    (created Examples.notify_db
       (processNotification 1000 Examples.notify_db
          (Examples.notify_job (Js.Int 2)))) = ["u1"; "u2"] /\
  created
    (store (processNotification 1000 Examples.notify_db
              (Examples.notify_job (Js.Int 2))))
    (processNotification 241000
       (store (processNotification 1000 Examples.notify_db
                 (Examples.notify_job (Js.Int 2))))
       (Examples.notify_job (Js.Int 2))) = [].
Proof. vm_compute. split; reflexivity. Qed.

(** ** Overlapping runs *)

Lemma well_spaced_pairs (rows : list t) :
  well_spaced rows ->
  forall l1 a l2 b l3,
    rows = l1 ++ a :: l2 ++ b :: l3 -> same_alert a b -> apart a b.
Proof.
  induction 1 as [|rows n Hws IH Hn]; intros l1 a l2 b l3 E Hsame.
  - destruct l1; discriminate.
  - induction l3 as [|x l3 _] using rev_ind.
    + assert (E' : rows ++ [n] = (l1 ++ a :: l2) ++ [b]).
      { rewrite E. rewrite <- !app_assoc. reflexivity. }
      apply app_inj_tail in E' as [-> ->].
      apply Hn; [|exact Hsame]. apply in_or_app. right. now left.
    + assert (E' : rows ++ [n] = (l1 ++ a :: l2 ++ b :: l3) ++ [x]).
      { rewrite E. rewrite <- !app_assoc. simpl. rewrite <- !app_assoc.
        reflexivity. }
      apply app_inj_tail in E' as [-> _].
      now apply (IH l1 a l2 b l3).
Qed.

(** A job on an existing series with an opted-in subscriber who has no
    alert inside the window: the reads end with that subscriber's row in
    the batch to insert. *)
Lemma plan_inserts (now : Z) (d : db) (j : job) (sid src : string)
    (count : Z) (s : Series.t) (sub : LibraryEntry) :
  Js.as_uuid (seriesId (data j)) = Some sid ->
  Js.as_uuid (sourceId (data j)) = Some src ->
  Js.as_positive_int (newChapterCount (data j)) = Some count ->
  List.find (fun s => String.eqb (Series.id s) sid) (series d) = Some s ->
  In sub (libraryEntry d) ->
  entry_series_id sub = sid ->
  notify_new_chapters sub = true ->
  (forall m, In m (notification d) -> user_id m = entry_user_id sub ->
             ~ in_window sid now m) ->
  exists fresh,
    plan now d j = Insert fresh /\
    In (build now (job_id j) sid src (Series.title s) count sub) fresh.
Proof.
  intros H0 H1 H2 H3 Hsub Hser Hon Hnone.
  assert (Hin : In (build now (job_id j) sid src (Series.title s) count sub)
                  (notificationsToCreate now (job_id j) sid src
                     (Series.title s) count
                     (subscribers sid (libraryEntry d))
                     (existingNotifications sid (now - WINDOW_MS)
                        (notification d)))).
  { unfold notificationsToCreate. apply in_map. apply filter_In. split.
    - unfold subscribers. apply filter_In. split; [exact Hsub|].
      apply andb_true_iff. split; [now apply String.eqb_eq | exact Hon].
    - apply negb_true_iff, has_false_In. intros Hu.
      apply in_map_iff in Hu as (m & Hu & Hm).
      apply existingNotifications_In in Hm as (Hm & Hs & Hty & Hw).
      apply (Hnone m Hm Hu). unfold in_window. tauto. }
  unfold plan. rewrite H0, H1, H2, H3.
  destruct (subscribers sid (libraryEntry d)) as [|x subs] eqn:Es.
  { unfold notificationsToCreate in Hin. destruct Hin. }
  change (length (x :: subs) =? 0)%nat with false. cbv iota.
  destruct (notificationsToCreate _ _ _ _ _ _ _ _) as [|n ns] eqn:En;
    [destruct Hin|].
  change (length (n :: ns) =? 0)%nat with false. cbv iota.
  exists (n :: ns). split; [reflexivity | exact Hin].
Qed.

(** C6, where the code departs from it.  Two jobs for one series (two
    of its sources found new chapters) whose handlers overlap: both read
    the notification table before either inserts.  For every opted-in
    subscriber of the series who had no NEW_CHAPTER alert inside the
    window, the table afterwards holds two NEW_CHAPTER rows for that user
    and series, stamped with the two run instants; when these are at most
    five minutes apart the rows are not a window apart, and the table is
    not well spaced. *)
Theorem overlapping_runs_notify_twice (now1 now2 : Z) (d : db) (j1 j2 : job)
    (sid src1 src2 : string) (c1 c2 : Z) (s : Series.t)
    (sub : LibraryEntry) :
  Js.as_uuid (seriesId (data j1)) = Some sid ->
  Js.as_uuid (sourceId (data j1)) = Some src1 ->
  Js.as_positive_int (newChapterCount (data j1)) = Some c1 ->
  Js.as_uuid (seriesId (data j2)) = Some sid ->
  Js.as_uuid (sourceId (data j2)) = Some src2 ->
  Js.as_positive_int (newChapterCount (data j2)) = Some c2 ->
  List.find (fun s => String.eqb (Series.id s) sid) (series d) = Some s ->
  In sub (libraryEntry d) ->
  entry_series_id sub = sid ->
  notify_new_chapters sub = true ->
  (forall m, In m (notification d) -> user_id m = entry_user_id sub ->
             ~ in_window sid now1 m /\ ~ in_window sid now2 m) ->
  Z.abs (now1 - now2) <= WINDOW_MS ->
  exists a b before between after,
    notification (overlapped now1 now2 d j1 j2)
      = before ++ a :: between ++ b :: after /\
    user_id a = entry_user_id sub /\ user_id b = entry_user_id sub /\
    series_id a = sid /\ series_id b = sid /\
    type a = "NEW_CHAPTER" /\ type b = "NEW_CHAPTER" /\
    created_at a = now1 /\ created_at b = now2 /\
    ~ apart a b /\
    ~ well_spaced (notification (overlapped now1 now2 d j1 j2)).
Proof.
  intros A0 A1 A2 B0 B1 B2 Hs Hsub Hser Hon Hnone Hclose.
  destruct (plan_inserts now1 d j1 sid src1 c1 s sub A0 A1 A2 Hs Hsub Hser Hon)
    as (fresh1 & Hp1 & Ha); [intros m Hm Hu; now apply (Hnone m Hm Hu)|].
  destruct (plan_inserts now2 d j2 sid src2 c2 s sub B0 B1 B2 Hs Hsub Hser Hon)
    as (fresh2 & Hp2 & Hb); [intros m Hm Hu; now apply (Hnone m Hm Hu)|].
  apply in_split in Ha as (l1 & l2 & E1).
  apply in_split in Hb as (l3 & l4 & E2).
  set (a := build now1 (job_id j1) sid src1 (Series.title s) c1 sub) in *.
  set (b := build now2 (job_id j2) sid src2 (Series.title s) c2 sub) in *.
  assert (Htable : notification (overlapped now1 now2 d j1 j2)
                   = (notification d ++ l1) ++ a :: (l2 ++ l3) ++ b :: l4).
  { unfold overlapped. rewrite Hp1, Hp2. cbn. rewrite E1, E2.
    repeat (rewrite <- app_assoc; simpl). reflexivity. }
  assert (Hnear : ~ apart a b).
  { unfold apart. simpl. lia. }
  exists a, b, (notification d ++ l1), (l2 ++ l3), l4.
  split; [exact Htable|]. repeat (split; [reflexivity|]).
  split; [exact Hnear|].
  intros Hws. apply Hnear.
  apply (well_spaced_pairs _ Hws _ a _ b _ Htable).
  repeat split.
Qed.

Lemma overlapping_runs_notify_twice_witness :
  exists a b before between after,
    notification (overlapped 1000 1001 Examples.notify_db
                    (Examples.notify_job (Js.Int 2)) Examples.notify_job_b)
      = before ++ a :: between ++ b :: after /\
    user_id a = "u1" /\ user_id b = "u1" /\
    series_id a = Examples.uuid_s /\ series_id b = Examples.uuid_s /\
    type a = "NEW_CHAPTER" /\ type b = "NEW_CHAPTER" /\
    created_at a = 1000 /\ created_at b = 1001 /\
    ~ apart a b /\
    ~ well_spaced
        (notification (overlapped 1000 1001 Examples.notify_db
                         (Examples.notify_job (Js.Int 2))
                         Examples.notify_job_b)).
Proof.
  refine (overlapping_runs_notify_twice 1000 1001 Examples.notify_db
            (Examples.notify_job (Js.Int 2)) Examples.notify_job_b
            Examples.uuid_s Examples.uuid_a Examples.uuid_b 2 1
            Examples.rated (Examples.sub "u1")
            eq_refl eq_refl eq_refl eq_refl eq_refl eq_refl eq_refl
            _ eq_refl eq_refl _ _).
  - left. reflexivity.
  - intros m [].
  - vm_compute. discriminate.
Defined.

(** The same two jobs: one after the other the second adds nothing;
    overlapping, every subscriber is alerted twice. *)
Example two_sources_one_series :
  List.map user_id
    (notification
       (store (processNotification 1001
                 (store (processNotification 1000 Examples.notify_db
                           (Examples.notify_job (Js.Int 2))))
                 Examples.notify_job_b)))
  = ["u1"; "u2"] /\
  List.map user_id
    (notification (overlapped 1000 1001 Examples.notify_db
                     (Examples.notify_job (Js.Int 2)) Examples.notify_job_b))
  = ["u1"; "u2"; "u1"; "u2"].
Proof. vm_compute. split; reflexivity. Qed.

(** On the notification side a payload that fails validation makes the
    handler return at once, with the store as it was. *)
Lemma invalid_payload_is_dropped (now : Z) (d : db) (j : job) :
  Js.as_uuid (seriesId (data j)) = None \/
  Js.as_uuid (sourceId (data j)) = None \/
  Js.as_positive_int (newChapterCount (data j)) = None ->
  processNotification now d j = mkRun Queue.Returned d [Log LogError].
Proof.
  unfold processNotification, plan. intros [H0|[H0|H0]]; rewrite H0.
  - reflexivity.
  - destruct (Js.as_uuid (seriesId (data j))); reflexivity.
  - destruct (Js.as_uuid (seriesId (data j))),
             (Js.as_uuid (sourceId (data j))); reflexivity.
Qed.

Lemma invalid_payload_is_dropped_witness :
  processNotification 1000 Examples.notify_db (Examples.notify_job (Js.Int 0))
  = mkRun Queue.Returned Examples.notify_db [Log LogError].
Proof.
  exact (invalid_payload_is_dropped 1000 Examples.notify_db
           (Examples.notify_job (Js.Int 0)) (or_intror (or_intror eq_refl))).
Defined.

End NotificationFacts.

(** ** Health gate of the search route *)

Module SearchFacts.
Import Search.

Lemma stale_heartbeat_is_offline (e : Redis.env) :
  heartbeat_stale e -> Redis.areWorkersOnline e = false.
Proof.
  unfold Redis.areWorkersOnline.
  intros [H0|(v & lastBeat & H0 & Hp & Hage)]; rewrite H0;
    destruct (Redis.redisReady e); cbn [negb]; try reflexivity.
  destruct (Js.truthy (Some v)); cbn [negb]; [|reflexivity].
  change (default "" (Some v)) with v. rewrite Hp.
  apply Z.ltb_ge. unfold Redis.STALE_MS in *. lia.
Qed.

Lemma saturated_is_unhealthy (c : option Queue.counts) :
  saturated c -> Queue.isQueueHealthy c SATURATION = false.
Proof.
  intros (k & -> & Hk). unfold Queue.isQueueHealthy. now apply Z.ltb_ge.
Qed.

(** C7. For a request that reaches the backpressure check, a missing or
    stale heartbeat, or a discovery queue at or above 5000 pending jobs,
    makes the route answer 200 with status [resolving_unavailable] and
    the local results, without submitting a discovery job.  A stale
    heartbeat alone closes the gate, whatever the queue depth. *)
Theorem closed_gate_serves_local_results {R : Type} (w : world) (ip : string)
    (q : option string) (lim off : Z) (intent : string)
    (localResults : list R) (count : option Z) :
  eligible w q off intent = true ->
  heartbeat_stale (redis w) \/ saturated (jobCounts w) ->
  enqueued (snd (GET w ip q lim off intent localResults count)) = false /\
  (exists r,
     fst (GET w ip q lim off intent localResults count) = Json r /\
     http r = 200 /\
     status r = Some "resolving_unavailable" /\
     results r = localResults) /\
  (heartbeat_stale (redis w) -> Redis.areWorkersOnline (redis w) = false).
Proof.
  unfold eligible. rewrite !andb_true_iff, !negb_true_iff.
  intros [[[Hnoise Hq] Hoff] Hcool] Hclosed.
  assert (Hgate : negb (Redis.areWorkersOnline (redis w))
                  || negb (Queue.isQueueHealthy (jobCounts w) SATURATION)
                  = true).
  { destruct Hclosed as [Hs|Hs].
    - now rewrite (stale_heartbeat_is_offline _ Hs).
    - rewrite (saturated_is_unhealthy _ Hs). apply orb_true_r. }
  destruct (isCoolingDown w) as [v|error] eqn:Ec; [|discriminate].
  apply negb_true_iff in Hcool.
  unfold GET. rewrite Hnoise, Hq, Hoff, Ec, Hcool. simpl andb. cbv iota.
  rewrite Hgate. simpl.
  split; [reflexivity|]. split; [eauto|]. apply stale_heartbeat_is_offline.
Qed.

Lemma stale_world_is_stale : heartbeat_stale (redis Examples.stale_world).
Proof.
  right. exists "1700000000000", 1700000000000.
  repeat split; reflexivity.
Qed.

Lemma closed_gate_serves_local_results_witness :
  enqueued (snd (GET Examples.stale_world "10.0.0.1" (Some "solo") 20 0
                   "PARTIAL_TITLE" ["row-1"] (Some 1))) = false.
Proof.
  exact (proj1 (closed_gate_serves_local_results Examples.stale_world
                  "10.0.0.1" (Some "solo") 20 0 "PARTIAL_TITLE" ["row-1"]
                  (Some 1) eq_refl (or_introl stale_world_is_stale))).
Defined.

(** Heartbeat 20 seconds old, queue depth 0: unavailable. *)
Example stale_heartbeat_empty_queue :
  Queue.isQueueHealthy (jobCounts Examples.stale_world) SATURATION = true /\
  Redis.areWorkersOnline (redis Examples.stale_world) = false /\
  (exists r,
     fst (GET Examples.stale_world "10.0.0.1" (Some "solo") 20 0
            "PARTIAL_TITLE" ["row-1"] (Some 1)) = Json r /\
     status r = Some "resolving_unavailable").
Proof.
  split; [reflexivity|]. split; [reflexivity|].
  eexists. split; reflexivity.
Qed.

End SearchFacts.

(** ** Master scheduler *)

Module MasterSchedulerFacts.
Import MasterScheduler.

Lemma In_firstn {A} (n : nat) (l : list A) (x : A) :
  In x (List.firstn n l) -> In x l.
Proof.
  intros Hx. rewrite <- (List.firstn_skipn n l). apply in_or_app. now left.
Qed.

Lemma selected_are_due now rows s :
  In s (sourcesToUpdate now rows) -> In s rows /\ due now s = true.
Proof.
  unfold sourcesToUpdate. intros Hs. apply In_firstn in Hs.
  now apply filter_In in Hs.
Qed.

Lemma id_determines_row rows a b :
  List.NoDup (List.map SeriesSource.id rows) ->
  In a rows -> In b rows -> SeriesSource.id a = SeriesSource.id b -> a = b.
Proof.
  induction rows as [|r rows IH]; simpl; [tauto|].
  intros Hnd Ha Hb Hid. inversion Hnd as [|? ? Hnotin Hrest]; subst.
  destruct Ha as [->|Ha], Hb as [->|Hb]; try reflexivity.
  - exfalso. apply Hnotin. rewrite Hid. now apply in_map.
  - exfalso. apply Hnotin. rewrite <- Hid. now apply in_map.
  - now apply IH.
Qed.

Lemma findUnique_of_row rows s :
  List.NoDup (List.map SeriesSource.id rows) -> In s rows ->
  SeriesSource.findUnique (SeriesSource.id s) rows = Some s.
Proof.
  intros Hnd Hs. unfold SeriesSource.findUnique.
  destruct (List.find _ rows) as [s'|] eqn:E.
  - apply List.find_some in E as [Hs' Hid]. apply String.eqb_eq in Hid.
    f_equal. now apply (id_determines_row rows).
  - apply (List.find_none _ _ E) in Hs. now rewrite String.eqb_refl in Hs.
Qed.

Lemma findUnique_map key (f : SeriesSource.t -> SeriesSource.t) rows :
  (forall s, SeriesSource.id (f s) = SeriesSource.id s) ->
  SeriesSource.findUnique key (List.map f rows)
    = f <$> SeriesSource.findUnique key rows.
Proof.
  intros Hid. unfold SeriesSource.findUnique.
  induction rows as [|a rows IH]; simpl; [reflexivity|].
  rewrite Hid. destruct (String.eqb (SeriesSource.id a) key);
    [reflexivity | exact IH].
Qed.

Lemma inherited_is_no_tier (p : string) :
  Js.inherited p = true ->
  String.eqb p "HOT" = false /\ String.eqb p "WARM" = false /\
  String.eqb p "COLD" = false.
Proof.
  intros Hp. repeat split;
    (destruct (String.eqb p _) eqn:E; [|reflexivity]);
    apply String.eqb_eq in E; subst p; vm_compute in Hp; discriminate Hp.
Qed.

Lemma grouping_stays_thrown (sel : list SeriesSource.t) :
  List.fold_left (fun acc s => match acc with
                               | Some g => push g s
                               | None => None
                               end) sel None = None.
Proof. induction sel as [|a sel IH]; simpl; [reflexivity | exact IH]. Qed.

(** Which identifiers the grouping pass files under which tier, when no
    selected tier is the name of an inherited member. *)
Lemma groups_spec sel : forall g,
  (forall s, In s sel -> plain_tier s = true) ->
  List.fold_left (fun acc s => match acc with
                               | Some g => push g s
                               | None => None
                               end) sel (Some g)
  = Some (mkGroups
            (HOT g ++ List.map SeriesSource.id (List.filter is_hot sel))
            (WARM g ++ List.map SeriesSource.id (List.filter is_warm sel))
            (COLD g ++ List.map SeriesSource.id (List.filter is_other sel))).
Proof.
  induction sel as [|a sel IH]; intros g Hplain; simpl.
  - rewrite !app_nil_r. now destruct g.
  - assert (Ha : Js.inherited (SeriesSource.sync_priority a) = false).
    { apply negb_true_iff. apply Hplain. now left. }
    assert (Hrest : forall s, In s sel -> plain_tier s = true).
    { intros s Hs. apply Hplain. now right. }
    unfold push, is_other, is_warm, is_hot. rewrite Ha.
    destruct (String.eqb (SeriesSource.sync_priority a) "HOT");
      [|destruct (String.eqb (SeriesSource.sync_priority a) "WARM");
        [|destruct (String.eqb (SeriesSource.sync_priority a) "COLD")]];
      rewrite (IH _ Hrest); simpl; rewrite <- ?app_assoc; reflexivity.
Qed.

(** One selected row with an inherited member for a tier makes the
    grouping pass throw. *)
Lemma grouping_throws sel : forall g s,
  In s sel -> plain_tier s = false ->
  List.fold_left (fun acc s => match acc with
                               | Some g => push g s
                               | None => None
                               end) sel (Some g) = None.
Proof.
  induction sel as [|a sel IH]; intros g s Hin Hs; [destruct Hin|]. simpl.
  destruct Hin as [->|Hin].
  - apply negb_false_iff in Hs.
    destruct (inherited_is_no_tier _ Hs) as (Hh & Hw & Hc).
    unfold push. rewrite Hh, Hw, Hc, Hs. apply grouping_stays_thrown.
  - destruct (push g a) as [g'|];
      [now apply (IH g' s) | apply grouping_stays_thrown].
Qed.

Lemma group_membership (p : SeriesSource.t -> bool) rows sel s :
  List.NoDup (List.map SeriesSource.id rows) ->
  (forall x, In x sel -> In x rows) ->
  In s rows ->
  Js.has (List.map SeriesSource.id (List.filter p sel)) (SeriesSource.id s)
    = true ->
  In s sel /\ p s = true.
Proof.
  intros Hnd Hsub Hs Hhas. apply has_In, in_map_iff in Hhas as (x & Hid & Hx).
  apply filter_In in Hx as [Hx Hp].
  assert (x = s) as -> by (apply (id_determines_row rows); auto).
  tauto.
Qed.

Lemma group_has (p : SeriesSource.t -> bool) rows sel s :
  List.NoDup (List.map SeriesSource.id rows) ->
  (forall x, In x sel -> In x rows) ->
  In s sel ->
  Js.has (List.map SeriesSource.id (List.filter p sel)) (SeriesSource.id s)
    = p s.
Proof.
  intros Hnd Hsub Hs.
  destruct (Js.has _ _) eqn:E.
  - symmetry. eapply group_membership; eauto.
  - destruct (p s) eqn:Hp; [|reflexivity].
    apply has_false_In in E. exfalso. apply E.
    apply in_map. now apply filter_In.
Qed.

Lemma group_has_not (p : SeriesSource.t -> bool) rows sel s :
  List.NoDup (List.map SeriesSource.id rows) ->
  (forall x, In x sel -> In x rows) ->
  In s rows -> ~ In s sel ->
  Js.has (List.map SeriesSource.id (List.filter p sel)) (SeriesSource.id s)
    = false.
Proof.
  intros Hnd Hsub Hs Hout.
  destruct (Js.has _ _) eqn:E; [|reflexivity].
  exfalso. apply Hout. eapply group_membership; eauto.
Qed.

Lemma reschedule_id ids t s :
  SeriesSource.id (reschedule ids t s) = SeriesSource.id s.
Proof. unfold reschedule. now destruct (Js.has ids (SeriesSource.id s)). Qed.

Lemma apply_group_map now rows p ids :
  apply_group now rows (p, ids)
  = List.map (reschedule ids
                (now + match SYNC_INTERVALS p with
                       | Some i => i
                       | None => 24 * 60 * 60 * 1000
                       end)) rows.
Proof.
  unfold apply_group, updateMany. destruct ids as [|i ids]; [|reflexivity].
  simpl. symmetry. apply List.map_id.
Qed.

(** The three passes of [updateMany], row by row. *)
Lemma three_passes now rows (g : groups) :
  List.fold_left (apply_group now)
    [("HOT", HOT g); ("WARM", WARM g); ("COLD", COLD g)] rows
  = List.map
      (fun s =>
         reschedule (COLD g) (now + 24 * 60 * 60 * 1000)
           (reschedule (WARM g) (now + 2 * 60 * 60 * 1000)
              (reschedule (HOT g) (now + 15 * 60 * 1000) s)))
      rows.
Proof.
  cbn [List.fold_left]. rewrite !apply_group_map.
  rewrite !List.map_map. reflexivity.
Qed.

Lemma run_nothing_due now addBulk rows :
  sourcesToUpdate now rows = [] ->
  runMasterScheduler now addBulk rows = mkRun Queue.Returned rows None.
Proof. intros E. unfold runMasterScheduler. now rewrite E. Qed.

(** A run that found something due, none of it under an inherited
    member's name. *)
Lemma run_returns now rows :
  sourcesToUpdate now rows <> [] ->
  (forall s, In s (sourcesToUpdate now rows) -> plain_tier s = true) ->
  runMasterScheduler now true rows
  = mkRun Queue.Returned
      (List.map
         (fun s =>
            reschedule
              (List.map SeriesSource.id
                 (List.filter is_other (sourcesToUpdate now rows)))
              (now + 24 * 60 * 60 * 1000)
              (reschedule
                 (List.map SeriesSource.id
                    (List.filter is_warm (sourcesToUpdate now rows)))
                 (now + 2 * 60 * 60 * 1000)
                 (reschedule
                    (List.map SeriesSource.id
                       (List.filter is_hot (sourcesToUpdate now rows)))
                    (now + 15 * 60 * 1000) s)))
         rows)
      (Some (List.map (job_of now) (sourcesToUpdate now rows))).
Proof.
  intros Hne Hplain. unfold runMasterScheduler.
  destruct (sourcesToUpdate now rows) as [|a sel] eqn:E; [congruence|].
  change (length (a :: sel) =? 0)%nat with false. cbv iota.
  unfold updatesByPriority. rewrite (groups_spec _ _ Hplain).
  rewrite three_passes. reflexivity.
Qed.

(** The queue rejects the batch: thrown before any row is updated. *)
Lemma run_rejected_batch now rows :
  sourcesToUpdate now rows <> [] ->
  (forall s, In s (sourcesToUpdate now rows) -> plain_tier s = true) ->
  runMasterScheduler now false rows = mkRun Queue.Threw rows None.
Proof.
  intros Hne Hplain. unfold runMasterScheduler.
  destruct (sourcesToUpdate now rows) as [|a sel] eqn:E; [congruence|].
  change (length (a :: sel) =? 0)%nat with false. cbv iota.
  unfold updatesByPriority. now rewrite (groups_spec _ _ Hplain).
Qed.

Lemma run_throws now addBulk rows s :
  In s (sourcesToUpdate now rows) -> plain_tier s = false ->
  runMasterScheduler now addBulk rows = mkRun Queue.Threw rows None.
Proof.
  intros Hs Hodd. unfold runMasterScheduler.
  destruct (sourcesToUpdate now rows) as [|a sel] eqn:E; [destruct Hs|].
  change (length (a :: sel) =? 0)%nat with false. cbv iota.
  unfold updatesByPriority. now rewrite (grouping_throws _ _ s Hs Hodd).
Qed.

(** Whatever the run does, the table afterwards is the old one or the
    old one after three rescheduling passes. *)
Lemma table_after_run now addBulk rows :
  table (runMasterScheduler now addBulk rows) = rows \/
  exists g,
    table (runMasterScheduler now addBulk rows)
    = List.map
        (fun s =>
           reschedule (COLD g) (now + 24 * 60 * 60 * 1000)
             (reschedule (WARM g) (now + 2 * 60 * 60 * 1000)
                (reschedule (HOT g) (now + 15 * 60 * 1000) s)))
        rows.
Proof.
  unfold runMasterScheduler.
  destruct (length (sourcesToUpdate now rows) =? 0)%nat; [now left|].
  destruct (updatesByPriority (sourcesToUpdate now rows)) as [g|];
    [|now left].
  destruct addBulk; [|now left].
  right. exists g. cbn [table]. apply three_passes.
Qed.

Lemma plain_or_not now rows :
  (forall s, In s (sourcesToUpdate now rows) -> plain_tier s = true) \/
  exists s, In s (sourcesToUpdate now rows) /\ plain_tier s = false.
Proof.
  induction (sourcesToUpdate now rows) as [|a sel IH].
  - left. intros s [].
  - destruct (plain_tier a) eqn:Ha; [|right; exists a; split; [now left|auto]].
    destruct IH as [IH|(s & Hs & Hodd)].
    + left. intros s [<-|Hs]; auto.
    + right. exists s. split; [now right | exact Hodd].
Qed.

(** A run either hands over one job per selected row or none at all. *)
Lemma batch_of_run now addBulk rows jobs :
  batch (runMasterScheduler now addBulk rows) = Some jobs ->
  jobs = List.map (job_of now) (sourcesToUpdate now rows) /\
  sourcesToUpdate now rows <> [] /\
  addBulk = true /\
  forall s, In s (sourcesToUpdate now rows) -> plain_tier s = true.
Proof.
  intros Hb.
  destruct (sourcesToUpdate now rows) as [|a sel] eqn:E.
  - rewrite (run_nothing_due now addBulk rows E) in Hb. discriminate.
  - assert (Hplain : forall s, In s (a :: sel) -> plain_tier s = true).
    { intros s Hs. destruct (plain_tier s) eqn:Hp; [reflexivity|].
      rewrite <- E in Hs. rewrite (run_throws now addBulk rows s Hs Hp) in Hb.
      discriminate. }
    assert (Hne : sourcesToUpdate now rows <> []) by (rewrite E; discriminate).
    rewrite <- E in Hplain. destruct addBulk.
    + rewrite (run_returns now rows Hne Hplain) in Hb.
      cbn [batch] in Hb. injection Hb as <-.
      rewrite E in *. repeat split; auto.
    + rewrite (run_rejected_batch now rows Hne Hplain) in Hb. discriminate.
Qed.

(** What a returning run does to a row of a table with unique ids. *)
Lemma row_rescheduled now rows s :
  List.NoDup (List.map SeriesSource.id rows) ->
  In s rows ->
  reschedule
    (List.map SeriesSource.id
       (List.filter is_other (sourcesToUpdate now rows)))
    (now + 24 * 60 * 60 * 1000)
    (reschedule
       (List.map SeriesSource.id
          (List.filter is_warm (sourcesToUpdate now rows)))
       (now + 2 * 60 * 60 * 1000)
       (reschedule
          (List.map SeriesSource.id
             (List.filter is_hot (sourcesToUpdate now rows)))
          (now + 15 * 60 * 1000) s))
  = if Js.has (List.map SeriesSource.id (sourcesToUpdate now rows))
         (SeriesSource.id s)
    then set_next_check (now + interval_of (SeriesSource.sync_priority s)) s
    else s.
Proof.
  intros Hnd Hs.
  assert (Hsub : forall x, In x (sourcesToUpdate now rows) -> In x rows).
  { intros x Hx. now apply (selected_are_due now rows). }
  destruct (Js.has (List.map SeriesSource.id (sourcesToUpdate now rows))
              (SeriesSource.id s)) eqn:E.
  - apply has_In in E. apply in_map_iff in E as (x & Hid & Hx).
    assert (x = s) as -> by (apply (id_determines_row rows); auto).
    pose proof (group_has is_hot rows _ s Hnd Hsub Hx) as Hh.
    pose proof (group_has is_warm rows _ s Hnd Hsub Hx) as Hw.
    pose proof (group_has is_other rows _ s Hnd Hsub Hx) as Hc.
    unfold reschedule, interval_of. rewrite Hh.
    unfold is_other, is_warm, is_hot in *.
    destruct (String.eqb (SeriesSource.sync_priority s) "HOT");
      simpl SeriesSource.id; rewrite Hw;
      destruct (String.eqb (SeriesSource.sync_priority s) "WARM");
      simpl SeriesSource.id; rewrite Hc; reflexivity.
  - apply has_false_In in E.
    assert (Hout : ~ In s (sourcesToUpdate now rows)).
    { intros Hin. apply E. now apply in_map. }
    unfold reschedule.
    rewrite (group_has_not is_hot rows _ s Hnd Hsub Hs Hout).
    rewrite (group_has_not is_warm rows _ s Hnd Hsub Hs Hout).
    now rewrite (group_has_not is_other rows _ s Hnd Hsub Hs Hout).
Qed.

(** C8, where the code departs from it.  A selected source whose tier
    is the name of a member every object inherits (such as
    [constructor]) is an unknown tier, none of HOT, WARM and COLD, yet
    it is not given a job of rank 3 and a next check 24 hours on: the
    run throws inside the grouping pass, whatever the queue would answer,
    hands over no batch and reschedules nothing, for that source and for
    every other source selected with it, so that a run on the table it
    leaves selects the same rows again. *)
Theorem inherited_tier_stops_the_run (now : Z) (addBulk : bool)
    (rows : list SeriesSource.t) (s : SeriesSource.t) :
  In s (sourcesToUpdate now rows) ->
  Js.inherited (SeriesSource.sync_priority s) = true ->
  SeriesSource.sync_priority s <> "HOT" /\
  SeriesSource.sync_priority s <> "WARM" /\
  SeriesSource.sync_priority s <> "COLD" /\
  outcome (runMasterScheduler now addBulk rows) = Queue.Threw /\
  batch (runMasterScheduler now addBulk rows) = None /\
  table (runMasterScheduler now addBulk rows) = rows /\
  sourcesToUpdate now (table (runMasterScheduler now addBulk rows))
    = sourcesToUpdate now rows.
Proof.
  intros Hs Hodd.
  destruct (inherited_is_no_tier _ Hodd) as (Hh & Hw & Hc).
  apply String.eqb_neq in Hh, Hw, Hc.
  rewrite (run_throws now addBulk rows s Hs)
    by (unfold plain_tier; now rewrite Hodd).
  repeat split; assumption.
Qed.

Lemma inherited_tier_stops_the_run_witness :
  outcome (runMasterScheduler 1000 true Examples.mislabelled) = Queue.Threw /\
  batch (runMasterScheduler 1000 true Examples.mislabelled) = None /\
  table (runMasterScheduler 1000 true Examples.mislabelled)
    = Examples.mislabelled.
Proof.
  destruct (inherited_tier_stops_the_run 1000 true Examples.mislabelled
              (Examples.source Examples.uuid_b "mangadex"
                 "https://mangadex.org/title/b" "constructor" (Some 900) 0)
              (or_intror (or_introl eq_refl)) eq_refl)
    as (_ & _ & _ & Ho & Hb & Ht & _).
  exact (conj Ho (conj Hb Ht)).
Defined.

(** X23.  The scheduler on a table with unique row ids, when no
    selected tier is the name of an inherited member and the queue
    accepts the batch.  The rows selected are the first 50, in table
    order, whose next check is absent or has come, so with at most 50
    rows in the table every such row is selected.  The run returns; the
    batch handed to the queue holds exactly one job per
    selected row, in order, keyed [sync-<id>-<run instant>] with rank 1
    for HOT, 2 for WARM and 3 for any other tier; afterwards each
    selected row has its next check at the run instant plus 15 minutes
    (HOT), 2 hours (WARM) or 24 hours (any other tier), and the rows that
    were not selected are as before.  When exactly three rows are due,
    all HOT, the batch is their three jobs of rank 1 and each of the three
    is due again 15 minutes later. *)
Theorem scheduler_run (now : Z) (rows : list SeriesSource.t) :
  List.NoDup (List.map SeriesSource.id rows) ->
  (forall s, In s (sourcesToUpdate now rows) ->
     Js.inherited (SeriesSource.sync_priority s) = false) ->
  sourcesToUpdate now rows
    = List.firstn 50
        (List.filter (fun s => match SeriesSource.next_check_at s with
                               | Some t => t <=? now
                               | None => true
                               end) rows) /\
  ((length rows <= 50)%nat ->
   forall s, In s rows ->
     (SeriesSource.next_check_at s = None \/
      exists t, SeriesSource.next_check_at s = Some t /\ t <= now) ->
     In s (sourcesToUpdate now rows)) /\
  outcome (runMasterScheduler now true rows) = Queue.Returned /\
  (sourcesToUpdate now rows = [] ->
   runMasterScheduler now true rows = mkRun Queue.Returned rows None) /\
  (sourcesToUpdate now rows <> [] ->
   batch (runMasterScheduler now true rows)
     = Some (List.map (job_of now) (sourcesToUpdate now rows))) /\
  (forall s,
     seriesSourceId (job_of now s) = SeriesSource.id s /\
     jobId (job_of now s)
       = "sync-" +:+ SeriesSource.id s +:+ "-" +:+ Js.of_Z now /\
     priority (job_of now s)
       = if String.eqb (SeriesSource.sync_priority s) "HOT" then 1
         else if String.eqb (SeriesSource.sync_priority s) "WARM" then 2
         else 3) /\
  (forall s, In s (sourcesToUpdate now rows) ->
     SeriesSource.findUnique (SeriesSource.id s)
       (table (runMasterScheduler now true rows))
     = Some (set_next_check
               (now + (if String.eqb (SeriesSource.sync_priority s) "HOT"
                       then 15 * 60 * 1000
                       else if String.eqb (SeriesSource.sync_priority s) "WARM"
                       then 2 * 60 * 60 * 1000
                       else 24 * 60 * 60 * 1000)) s)) /\
  (forall s, In s rows -> ~ In s (sourcesToUpdate now rows) ->
     SeriesSource.findUnique (SeriesSource.id s)
       (table (runMasterScheduler now true rows)) = Some s) /\
  (forall a b c,
     List.filter (fun s => match SeriesSource.next_check_at s with
                           | Some t => t <=? now
                           | None => true
                           end) rows = [a; b; c] ->
     SeriesSource.sync_priority a = "HOT" ->
     SeriesSource.sync_priority b = "HOT" ->
     SeriesSource.sync_priority c = "HOT" ->
     batch (runMasterScheduler now true rows)
       = Some [job_of now a; job_of now b; job_of now c] /\
     List.map priority [job_of now a; job_of now b; job_of now c]
       = [1; 1; 1] /\
     forall s, In s [a; b; c] ->
       SeriesSource.next_check_at <$>
         SeriesSource.findUnique (SeriesSource.id s)
           (table (runMasterScheduler now true rows))
       = Some (Some (now + 15 * 60 * 1000))).
Proof.
  intros Hnd Hplain0.
  assert (Hplain : forall s, In s (sourcesToUpdate now rows) ->
                             plain_tier s = true).
  { intros s Hs. unfold plain_tier. now rewrite (Hplain0 s Hs). }
  clear Hplain0.
  assert (Hrun0 := run_nothing_due now true rows).
  pose proof (fun Hne => run_returns now rows Hne Hplain) as Hrun1.
  assert (Hdue := selected_are_due now rows).
  assert (Hshape : sourcesToUpdate now rows
    = List.firstn 50
        (List.filter (fun s => match SeriesSource.next_check_at s with
                               | Some t => t <=? now
                               | None => true
                               end) rows)) by reflexivity.
  assert (Hsub : forall x, In x (sourcesToUpdate now rows) -> In x rows).
  { intros x Hx. now apply Hdue. }
  assert (Hcase : sourcesToUpdate now rows = [] \/
                  sourcesToUpdate now rows <> []).
  { destruct (sourcesToUpdate now rows); [left | right]; congruence. }
  assert (Hsel : forall s, In s (sourcesToUpdate now rows) ->
     SeriesSource.findUnique (SeriesSource.id s)
       (table (runMasterScheduler now true rows))
     = Some (set_next_check
               (now + (if String.eqb (SeriesSource.sync_priority s) "HOT"
                       then 15 * 60 * 1000
                       else if String.eqb (SeriesSource.sync_priority s) "WARM"
                       then 2 * 60 * 60 * 1000
                       else 24 * 60 * 60 * 1000)) s)).
  { intros s Hs.
    assert (Hne : sourcesToUpdate now rows <> [])
      by (intros E; rewrite E in Hs; destruct Hs).
    rewrite (Hrun1 Hne). cbn [table].
    rewrite findUnique_map by (intros x; now rewrite !reschedule_id).
    rewrite (findUnique_of_row rows s Hnd (Hsub s Hs)). simpl. f_equal.
    rewrite (row_rescheduled now rows s Hnd (Hsub s Hs)).
    assert (Js.has (List.map SeriesSource.id (sourcesToUpdate now rows))
              (SeriesSource.id s) = true) as ->
      by (apply has_In; now apply in_map).
    reflexivity. }
  split; [exact Hshape|].
  split.
  { intros Hlen s Hs Hd. rewrite Hshape.
    rewrite List.firstn_all2.
    - apply filter_In. split; [exact Hs|].
      destruct Hd as [->|(t & -> & Ht)]; [reflexivity | lia].
    - etransitivity; [apply List.filter_length_le | exact Hlen]. }
  split.
  { destruct Hcase as [E|Hne]; [now rewrite (Hrun0 E) | now rewrite (Hrun1 Hne)]. }
  split; [exact Hrun0|].
  split; [intros Hne; now rewrite (Hrun1 Hne)|].
  split; [intros s; repeat split|].
  split; [exact Hsel|].
  split.
  { intros s Hs Hout.
    destruct Hcase as [E|Hne].
    - rewrite (Hrun0 E). simpl. now apply findUnique_of_row.
    - rewrite (Hrun1 Hne). cbn [table].
      rewrite findUnique_map by (intros x; now rewrite !reschedule_id).
      rewrite (findUnique_of_row rows s Hnd Hs). simpl. f_equal.
      rewrite (row_rescheduled now rows s Hnd Hs).
      destruct (Js.has _ (SeriesSource.id s)) eqn:E; [|reflexivity].
      exfalso. apply Hout. apply has_In, in_map_iff in E as (x & Hid & Hx).
      assert (x = s) as <-; [|exact Hx].
      apply (id_determines_row rows); auto. }
  intros a b c Hthree Ha Hb Hc.
  assert (E : sourcesToUpdate now rows = [a; b; c]).
  { rewrite Hshape, Hthree. reflexivity. }
  assert (Hne : sourcesToUpdate now rows <> []) by (rewrite E; discriminate).
  split; [rewrite (Hrun1 Hne), E; reflexivity|].
  split; [simpl; unfold rank; now rewrite Ha, Hb, Hc|].
  intros s Hs. rewrite <- E in Hs. rewrite (Hsel s Hs).
  rewrite E in Hs. simpl.
  destruct Hs as [<-|[<-|[<-|[]]]];
    [rewrite Ha | rewrite Hb | rewrite Hc]; reflexivity.
Qed.

Lemma scheduled_ids_unique :
  List.NoDup (List.map SeriesSource.id Examples.scheduled).
Proof.
  vm_compute. repeat constructor; simpl; intuition discriminate.
Qed.

Lemma scheduler_run_witness :
  batch (runMasterScheduler 1000 true Examples.scheduled)
    = Some (List.map (job_of 1000)
              [Examples.source Examples.uuid_a "mangadex"
                 "https://mangadex.org/title/a" "HOT" None 0;
               Examples.source Examples.uuid_b "mangadex"
                 "https://mangadex.org/title/b" "HOT" (Some 900) 0;
               Examples.source Examples.uuid_c "mangapark"
                 "https://mangapark.io/title/c" "HOT" (Some 1000) 0]) /\
  List.map priority
    (List.map (job_of 1000)
       [Examples.source Examples.uuid_a "mangadex"
          "https://mangadex.org/title/a" "HOT" None 0;
        Examples.source Examples.uuid_b "mangadex"
          "https://mangadex.org/title/b" "HOT" (Some 900) 0;
        Examples.source Examples.uuid_c "mangapark"
          "https://mangapark.io/title/c" "HOT" (Some 1000) 0])
    = [1; 1; 1].
Proof.
  assert (Hplain : forall s, In s (sourcesToUpdate 1000 Examples.scheduled) ->
                     Js.inherited (SeriesSource.sync_priority s) = false).
  { intros s [<-|[<-|[<-|[]]]]; reflexivity. }
  destruct (scheduler_run 1000 Examples.scheduled scheduled_ids_unique Hplain)
    as (_ & _ & _ & _ & _ & _ & _ & _ & Hthree).
  destruct (Hthree _ _ _ eq_refl eq_refl eq_refl eq_refl) as (Hb & Hp & _).
  exact (conj Hb Hp).
Defined.

(** Three HOT sources due at instant 1000 and one WARM source due later:
    three jobs of rank 1 and the three rows rescheduled to 901000. *)
Example three_hot_sources_due :
  List.map (fun j => (jobId j, priority j))
    (default [] (batch (runMasterScheduler 1000 true Examples.scheduled)))
  = [("sync-11111111-1111-4111-8111-111111111111-1000", 1);
     ("sync-22222222-2222-4222-8222-222222222222-1000", 1);
     ("sync-33333333-3333-4333-8333-333333333333-1000", 1)] /\
  List.map SeriesSource.next_check_at
    (table (runMasterScheduler 1000 true Examples.scheduled))
  = [Some 901000; Some 901000; Some 5000; Some 901000].
Proof. vm_compute. split; reflexivity. Qed.

End MasterSchedulerFacts.

(** ** Discovery worker *)

Module CheckSourceFacts.
Import CheckSource.

Lemma map_set_keys m k v :
  List.map fst (map_set m k v)
  = if Js.has (List.map fst m) k then List.map fst m
    else List.map fst m ++ [k].
Proof.
  induction m as [|[k' v'] m IH]; simpl; [reflexivity|].
  destruct (String.eqb k' k); simpl; [reflexivity|].
  rewrite IH. now destruct (Js.has (List.map fst m) k).
Qed.

Lemma map_set_In m k v kv :
  In kv (map_set m k v) -> In kv m \/ kv = (k, v).
Proof.
  induction m as [|[k' v'] m IH]; simpl.
  - intros [<-|[]]. now right.
  - destruct (String.eqb k' k) eqn:E; simpl.
    + apply String.eqb_eq in E. subst k'. intros [<-|H0]; auto.
    + intros [<-|H0]; auto. destruct (IH H0); auto.
Qed.

(** The insertion-ordered map after the whole list has been poured in. *)
Lemma fold_map_set cs : forall m,
  List.map fst (List.fold_left (fun m c => map_set m (mangadex_id c) c) cs m)
    = List.map fst m ++ first_seen (List.map fst m) (List.map mangadex_id cs) /\
  forall kv,
    In kv (List.fold_left (fun m c => map_set m (mangadex_id c) c) cs m) ->
    In kv m \/ (In (snd kv) cs /\ mangadex_id (snd kv) = fst kv).
Proof.
  induction cs as [|c cs IH]; intros m; simpl.
  - rewrite app_nil_r. auto.
  - destruct (IH (map_set m (mangadex_id c) c)) as [Hk Hv]. split.
    + rewrite Hk, map_set_keys.
      destruct (Js.has (List.map fst m) (mangadex_id c)); [reflexivity|].
      now rewrite <- app_assoc.
    + intros kv Hkv. destruct (Hv kv Hkv) as [H0|[H0 H1]]; [|auto].
      apply map_set_In in H0 as [H0| ->]; auto.
Qed.

Lemma uniqueCandidates_ids cs :
  List.map mangadex_id (uniqueCandidates cs)
    = first_seen [] (List.map mangadex_id cs) /\
  forall c, In c (uniqueCandidates cs) -> In c cs.
Proof.
  unfold uniqueCandidates.
  destruct (fold_map_set cs []) as [Hk Hv]. simpl in Hk.
  set (m := List.fold_left _ cs []) in *.
  assert (Hkv : forall kv, In kv m ->
                  In (snd kv) cs /\ mangadex_id (snd kv) = fst kv).
  { intros kv Hin. destruct (Hv kv Hin) as [[]|H0]. exact H0. }
  split.
  - rewrite <- Hk, List.map_map. apply List.map_ext_in.
    intros kv Hin. now apply Hkv.
  - intros c Hc. apply in_map_iff in Hc as (kv & <- & Hin). now apply Hkv.
Qed.

Lemma first_seen_spec ids : forall seen,
  List.NoDup (first_seen seen ids) /\
  (forall i, In i (first_seen seen ids) -> In i ids /\ ~ In i seen) /\
  (forall i, In i ids -> In i seen \/ In i (first_seen seen ids)).
Proof.
  induction ids as [|i ids IH]; intros seen; simpl.
  - split; [constructor|]. split; tauto.
  - destruct (Js.has seen i) eqn:E.
    + destruct (IH seen) as (Hnd & Hin & Hall).
      split; [exact Hnd|]. split.
      * intros k Hk. destruct (Hin k Hk). tauto.
      * intros k [<-|Hk]; [left; now apply has_In | now apply Hall].
    + destruct (IH (seen ++ [i])) as (Hnd & Hin & Hall).
      apply has_false_In in E.
      split; [|split].
      * constructor; [|exact Hnd]. intros Hi.
        destruct (Hin i Hi) as [_ Hout]. apply Hout.
        apply in_or_app. right. now left.
      * intros k [<-|Hk]; [tauto|].
        destruct (Hin k Hk) as [Hk1 Hk2]. split; [tauto|].
        intros Hs. apply Hk2. apply in_or_app. now left.
      * intros k [<-|Hk]; [right; now left|].
        destruct (Hall k Hk) as [Hs|Hs]; [|right; now right].
        apply in_app_or in Hs as [Hs|[<-|[]]]; [now left | right; now left].
Qed.

Lemma rank_from_spec n cs : forall index,
  List.map candidate (rank_from n index cs) = cs /\
  forall k x, nth_error (rank_from n index cs) k = Some x ->
              score x = n - index - Z.of_nat k /\ confidence x = 100.
Proof.
  induction cs as [|c cs IH]; intros index; simpl.
  - split; [reflexivity|]. intros [|k] x; discriminate.
  - destruct (IH (index + 1)) as [Hm Hs]. split; [now rewrite Hm|].
    intros [|k] x; simpl.
    + intros [= <-]. simpl. split; [lia | reflexivity].
    + intros Hx. destruct (Hs k x Hx) as [Hsc Hc]. split; [lia | exact Hc].
Qed.

Lemma append_inj (p a b : string) : p +:+ a = p +:+ b -> a = b.
Proof.
  induction p as [|c p IH]; simpl; [trivial|]. intros [= H0]. now apply IH.
Qed.

Lemma NoDup_map_inj {A B} (f : A -> B) (l : list A) :
  (forall x y, f x = f y -> x = y) ->
  List.NoDup l -> List.NoDup (List.map f l).
Proof.
  intros Hinj. induction 1 as [|x l Hx Hnd IH]; simpl; constructor; [|exact IH].
  intros Hin. apply in_map_iff in Hin as (y & Hy & Hin).
  apply Hinj in Hy. now subst y.
Qed.

Lemma submit_spec (add : added -> bool) (jobs : list added) :
  exists rest,
    jobs = fst (submit add jobs) ++ rest /\
    (snd (submit add jobs) = Queue.Returned -> rest = []) /\
    (snd (submit add jobs) = Queue.Threw ->
     exists j r, rest = j :: r /\ add j = false) /\
    (forall j, In j (fst (submit add jobs)) -> add j = true).
Proof.
  induction jobs as [|j jobs IH]; simpl.
  - exists []. repeat split; auto; try discriminate; try (intros ? []).
  - destruct (add j) eqn:Ej.
    + destruct IH as (rest & Hjobs & Hret & Hthrew & Hacc).
      destruct (submit add jobs) as [accepted o]. simpl in *.
      exists rest. split; [now rewrite <- Hjobs|].
      split; [exact Hret|]. split; [exact Hthrew|].
      intros x [<-|Hx]; auto.
    + exists (j :: jobs). simpl. split; [reflexivity|].
      split; [discriminate|]. split; [eauto|]. intros x [].
Qed.

Lemma submit_accepting (add : added -> bool) (jobs : list added) :
  (forall j, In j jobs -> add j = true) ->
  submit add jobs = (jobs, Queue.Returned).
Proof.
  induction jobs as [|j jobs IH]; intros Hadd; simpl; [reflexivity|].
  rewrite (Hadd j) by now left.
  rewrite IH by (intros x Hx; apply Hadd; now right). reflexivity.
Qed.

(** What lines 70 to 216 compute for a search term.  The ranked
    candidates carry each external id once, in the order in which the ids
    first appeared in the collected results; the score at position [k] is
    the number of ranked candidates minus [k]; the jobs are keyed
    [canon_mangadex_<id>], pairwise distinct, with priority 1 for
    [user_search] and 10 otherwise; the accepted submissions are a prefix
    of the jobs of the ranking, all of them when no submission rejects.
    No run of the handler reaches these lines: line 68 throws first. *)
Lemma ranking_and_submissions (fetch : string -> nat -> page)
    (add : added -> bool) (t : option trigger) (term : string) :
  let r := searchAndEnqueue fetch add t term in
  List.map (fun x => mangadex_id (candidate x)) (ranking r)
    = first_seen [] (List.map mangadex_id (collected r)) /\
  List.NoDup (List.map (fun x => mangadex_id (candidate x)) (ranking r)) /\
  (forall x, In x (ranking r) -> In (candidate x) (collected r)) /\
  (forall k x,
     nth_error (ranking r) k = Some x ->
     score x = Z.of_nat (length (ranking r)) - Z.of_nat k) /\
  (exists rest,
     List.map (enqueue t) (ranking r) = trace r ++ rest /\
     (outcome r = Queue.Returned -> rest = [])) /\
  ((forall a, add a = true) ->
   trace r = List.map (enqueue t) (ranking r) /\
   outcome r = Queue.Returned) /\
  List.NoDup (List.map jobId (List.map (enqueue t) (ranking r))) /\
  job_priority (Some user_search) < job_priority (Some system_sync).
Proof.
  cbv zeta. unfold searchAndEnqueue.
  set (cs := collect (fetch term) 0 MAX_PAGES).
  set (jobs := List.map (enqueue t) (rankedCandidates (uniqueCandidates cs))).
  destruct (submit_spec add jobs) as (rest & Hjobs & Hret & _ & _).
  pose proof (submit_accepting add jobs) as Hall.
  destruct (submit add jobs) as [accepted o] eqn:Es.
  cbn [ranking collected trace outcome fst snd] in *.
  destruct (uniqueCandidates_ids cs) as [Hids Hfrom].
  destruct (first_seen_spec (List.map mangadex_id cs) [])
    as (Hnd & Hin & Hallids).
  destruct (rank_from_spec (Z.of_nat (length (uniqueCandidates cs)))
              (uniqueCandidates cs) 0) as [Hcand Hscore].
  fold (rankedCandidates (uniqueCandidates cs)) in Hcand, Hscore.
  assert (Hmap : List.map (fun x => mangadex_id (candidate x))
                   (rankedCandidates (uniqueCandidates cs))
                 = first_seen [] (List.map mangadex_id cs)).
  { transitivity (List.map mangadex_id
                    (List.map candidate
                       (rankedCandidates (uniqueCandidates cs))));
      [now rewrite List.map_map | now rewrite Hcand]. }
  split; [exact Hmap|]. split; [now rewrite Hmap|].
  split.
  { intros x Hx. apply Hfrom. rewrite <- Hcand. now apply in_map. }
  split.
  { intros k x Hx. destruct (Hscore k x Hx) as [Hs _].
    pose proof (f_equal (@length _) Hcand) as Hlen.
    rewrite List.length_map in Hlen. lia. }
  split; [exists rest; split; [exact Hjobs | exact Hret]|].
  split.
  { intros Hadd. specialize (Hall (fun a _ => Hadd a)).
    injection Hall as -> ->. now split. }
  split; [|reflexivity].
  unfold jobs. rewrite List.map_map.
  change (List.map (fun x => jobId (enqueue t x))
            (rankedCandidates (uniqueCandidates cs)))
    with (List.map (fun x => "canon_mangadex_" +:+ mangadex_id (candidate x))
            (rankedCandidates (uniqueCandidates cs))).
  rewrite <- (List.map_map (fun x => mangadex_id (candidate x))
                (fun i => "canon_mangadex_" +:+ i)).
  apply NoDup_map_inj; [apply append_inj | now rewrite Hmap].
Qed.

(** C9, where the code departs from it.  No discovery job reaches the
    catalog.  A job without a search term throws, and a job with one
    throws at line 68, where the handler calls a name its module does not
    bind: whatever the catalog pages hold and whatever the queue would
    answer, nothing is collected, nothing is ranked and no
    canonicalization job is submitted.  The queue retries the job after
    its first and second attempt and gives it up after the third. *)
Theorem discovery_stops_at_line_68 (fetch : string -> nat -> page)
    (add : added -> bool) (j : CheckSourceJobData) :
  outcome (processCheckSource fetch add j) = Queue.Threw /\
  found (processCheckSource fetch add j) = None /\
  collected (processCheckSource fetch add j) = [] /\
  ranking (processCheckSource fetch add j) = [] /\
  trace (processCheckSource fetch add j) = [] /\
  Queue.retried Queue.CHECK_SOURCE_ATTEMPTS 1
    (outcome (processCheckSource fetch add j)) = true /\
  Queue.retried Queue.CHECK_SOURCE_ATTEMPTS 2
    (outcome (processCheckSource fetch add j)) = true /\
  Queue.retried Queue.CHECK_SOURCE_ATTEMPTS 3
    (outcome (processCheckSource fetch add j)) = false.
Proof.
  unfold processCheckSource, normalize.
  destruct (negb (Js.truthy _)); repeat split.
Qed.

(** A user search for "Solo" against a catalog with 40 results: the
    lines below line 68 would submit 39 jobs, the handler submits none. *)
Example solo_discovery :
  length (trace (searchAndEnqueue Examples.solo_pages (fun _ => true)
                   (Some user_search) "Solo")) = 39%nat /\
  processCheckSource Examples.solo_pages (fun _ => true) Examples.solo_job
    = mkRun Queue.Threw None [] [] [].
Proof. vm_compute. split; reflexivity. Qed.

End CheckSourceFacts.

(* ================================================================== *)
(** * Further properties of the workers *)
(* ================================================================== *)

Module PipelineFacts.
Import Scrapers SyncSource SeriesSourceFacts SyncSourceFacts Pipeline.

Section Facts.
Context {Num : Type} `{EqDecision Num}.
Variable P : platform Num.

Lemma run_path (e : env Num) (d : db Num) (data : CheckSourceData) :
  path P e d data (processSyncSource P e d data).
Proof.
  destruct (Js.as_uuid (seriesSourceId data)) as [sid|] eqn:H0;
    [|rewrite (run_invalid_payload P e d data H0); now constructor].
  destruct (SeriesSource.findUnique sid (seriesSource d)) as [source|] eqn:H1;
    [|rewrite (run_missing_source P e d data sid H0 H1);
      now apply (path_missing P e d data sid)].
  destruct (Z.le_gt_cases MAX_CONSECUTIVE_FAILURES
              (SeriesSource.failure_count source)) as [H2|H2].
  { rewrite (run_circuit_open P e d data sid source H0 H1 H2).
    now apply (path_open P e d data sid source). }
  destruct (validateSourceUrl (hostname P) (SeriesSource.source_url source))
    eqn:H3;
    [|rewrite (run_invalid_url P e d data sid source H0 H1 H2 H3);
      now apply (path_url P e d data sid source)].
  destruct (scrapers (mangapark e) (mangadex e)
              (Js.toLowerCase (SeriesSource.source_name source)))
    as [[scraper|]|] eqn:H4;
    [|rewrite (run_inherited P e d data sid source H0 H1 H2 H3 H4);
      now apply (path_inherited P e d data sid source)
     |rewrite (run_no_scraper P e d data sid source H0 H1 H2 H3 H4);
      now apply (path_unscraped P e d data sid source)].
  destruct (scraper (SeriesSource.source_id source)) as [sd|error] eqn:H5.
  - rewrite (run_resolved P e d data sid source scraper sd H0 H1 H2 H3 H4 H5).
    now apply (path_resolved P e d data sid source scraper sd).
  - rewrite (run_rejected P e d data sid source scraper error
               H0 H1 H2 H3 H4 H5).
    now apply (path_rejected P e d data sid source scraper error).
Qed.

Lemma update_ids key (f : SeriesSource.t -> SeriesSource.t) rows :
  (forall s, SeriesSource.id (f s) = SeriesSource.id s) ->
  List.map SeriesSource.id (SeriesSource.update key f rows)
    = List.map SeriesSource.id rows.
Proof.
  intros Hid. unfold SeriesSource.update. rewrite List.map_map.
  apply List.map_ext. intros s.
  destruct (String.eqb (SeriesSource.id s) key); [apply Hid | reflexivity].
Qed.

Lemma transaction_ids (t : Z) (d : db Num) source sd :
  List.map SeriesSource.id (seriesSource (fst (transaction P t d source sd)))
    = List.map SeriesSource.id (seriesSource d).
Proof.
  rewrite transaction_sources. apply update_ids. intros s. reflexivity.
Qed.

(** What the transaction adds belongs to the source being synced. *)
Lemma transaction_rows (t : Z) (d : db Num) source sd :
  exists inserted,
    chapter (fst (transaction P t d source sd)) = chapter d ++ inserted /\
    snd (transaction P t d source sd) = Z.of_nat (length inserted) /\
    (forall c, In c inserted ->
       Chapter.series_source_id c = SeriesSource.id source /\
       Chapter.series_id c = SeriesSource.series_id source) /\
    (distinct_keys (chapter d) -> distinct_keys (chapter d ++ inserted)).
Proof.
  destruct (transaction_spec P t d source sd)
    as (ins & Hch & Hn & Hin & _ & Hd).
  exists ins. split; [exact Hch|]. split; [exact Hn|]. split; [|exact Hd].
  intros c Hc. destruct (Hin c Hc) as [_ (sc & _ & -> & _)]. now split.
Qed.

Lemma rows_added_same (d : db Num) o rows tr :
  rows_added d (mkRun o (mkDb rows (chapter d)) tr) = 0.
Proof. unfold rows_added. simpl. lia. Qed.

Lemma rows_added_committed (e : env Num) (d : db Num) source sd (r : run Num) :
  chapter (store r) = chapter (fst (transaction P (now e) d source sd)) ->
  rows_added d r = snd (transaction P (now e) d source sd).
Proof.
  intros Hr. unfold rows_added. rewrite Hr.
  destruct (transaction_rows (now e) d source sd) as (ins & -> & -> & _).
  rewrite List.length_app. lia.
Qed.

Ltac committed_rows e d source sd :=
  repeat match goal with
  | |- context [rows_added d ?r] =>
      rewrite (rows_added_committed e d source sd r eq_refl)
  end.


(** X2.  Whatever path a run takes, it only appends to the chapter
    table, every appended row belongs to the source and series of the job,
    the unique key (source record, chapter number) stays unique, and no
    source row is added or removed. *)
Theorem handler_only_appends (e : env Num) (d : db Num)
    (data : CheckSourceData) :
  List.map SeriesSource.id (seriesSource (store (processSyncSource P e d data)))
    = List.map SeriesSource.id (seriesSource d) /\
  exists inserted,
    chapter (store (processSyncSource P e d data)) = chapter d ++ inserted /\
    (forall c, In c inserted ->
       exists sid source,
         Js.as_uuid (seriesSourceId data) = Some sid /\
         SeriesSource.findUnique sid (seriesSource d) = Some source /\
         Chapter.series_source_id c = sid /\
         Chapter.series_id c = SeriesSource.series_id source) /\
    (distinct_keys (chapter d) -> distinct_keys (chapter d ++ inserted)).
Proof.
  pose proof (run_path e d data) as Hp.
  remember (processSyncSource P e d data) as r eqn:Er. clear Er.
  assert (Hnone : exists inserted : list (Chapter.t Num),
     chapter d = chapter d ++ inserted /\
     (forall c, In c inserted ->
        exists sid source,
          Js.as_uuid (seriesSourceId data) = Some sid /\
          SeriesSource.findUnique sid (seriesSource d) = Some source /\
          Chapter.series_source_id c = sid /\
          Chapter.series_id c = SeriesSource.series_id source) /\
     (distinct_keys (chapter d) -> distinct_keys (chapter d ++ inserted))).
  { exists []. rewrite app_nil_r. split; [reflexivity|].
    split; [intros c []|tauto]. }
  destruct Hp as [H0|sid H0 H1|sid source H0 H1 H2|sid source H0 H1 H2 H3
                 |sid source H0 H1 H2 H3 H4
                 |sid source H0 H1 H2 H3 H4
                 |sid source scraper error H0 H1 H2 H3 H4 H5
                 |sid source scraper sd H0 H1 H2 H3 H4 H5];
    simpl store; simpl seriesSource; simpl chapter;
    try (split; [reflexivity || (apply update_ids; intros s; reflexivity)
                | exact Hnone]).
  pose proof (findUnique_id _ _ _ H1) as Hsid.
  assert (Hsome : exists inserted : list (Chapter.t Num),
     chapter (fst (transaction P (now e) d source sd)) = chapter d ++ inserted /\
     (forall c, In c inserted ->
        exists sid source,
          Js.as_uuid (seriesSourceId data) = Some sid /\
          SeriesSource.findUnique sid (seriesSource d) = Some source /\
          Chapter.series_source_id c = sid /\
          Chapter.series_id c = SeriesSource.series_id source) /\
     (distinct_keys (chapter d) -> distinct_keys (chapter d ++ inserted))).
  { destruct (transaction_rows (now e) d source sd)
      as (ins & Hch & _ & Hown & Hd).
    exists ins. split; [exact Hch|]. split; [|exact Hd].
    intros c Hc. exists sid, source. destruct (Hown c Hc).
    repeat split; congruence. }
  cbv zeta. destruct (0 <? snd _); [destruct (notificationQueue_add e)|];
    simpl store; simpl seriesSource; simpl chapter.
  - split; [apply transaction_ids | exact Hsome].
  - split; [|exact Hsome].
    rewrite update_ids by (intros s; reflexivity). apply transaction_ids.
  - split; [apply transaction_ids | exact Hsome].
Qed.

Lemma count_update_same sid (f : SeriesSource.t -> SeriesSource.t) rows source :
  (forall s, SeriesSource.id (f s) = SeriesSource.id s) ->
  SeriesSource.findUnique sid rows = Some source ->
  SeriesSource.source_chapter_count <$>
    SeriesSource.findUnique sid (SeriesSource.update sid f rows)
  = Some (SeriesSource.source_chapter_count (f source)).
Proof.
  intros Hid Hf. rewrite findUnique_update_same by exact Hid.
  now rewrite Hf.
Qed.

Lemma count_committed (t : Z) (d : db Num) source sd :
  SeriesSource.findUnique (SeriesSource.id source) (seriesSource d)
    = Some source ->
  SeriesSource.findUnique (SeriesSource.id source)
    (seriesSource (fst (transaction P t d source sd)))
  = Some (success_data t (snd (transaction P t d source sd)) source).
Proof.
  intros Hf. rewrite transaction_sources.
  rewrite findUnique_update_same by apply success_data_id. now rewrite Hf.
Qed.

(** X3.  For a job whose source row exists, the stored chapter count of
    that row grows by exactly the number of chapter rows the run added,
    on every path, including the runs that end in the error handler. *)
Theorem chapter_count_tracks_table (e : env Num) (d : db Num)
    (data : CheckSourceData) (sid : string) (source : SeriesSource.t) :
  Js.as_uuid (seriesSourceId data) = Some sid ->
  SeriesSource.findUnique sid (seriesSource d) = Some source ->
  SeriesSource.source_chapter_count <$>
    SeriesSource.findUnique sid
      (seriesSource (store (processSyncSource P e d data)))
  = Some (SeriesSource.source_chapter_count source
          + rows_added d (processSyncSource P e d data)).
Proof.
  intros U F.
  pose proof (run_path e d data) as Hp.
  remember (processSyncSource P e d data) as r eqn:Er. clear Er.
  destruct Hp as [H0|sid' H0 H1|sid' source' H0 H1 H2|sid' source' H0 H1 H2 H3
                 |sid' source' H0 H1 H2 H3 H4
                 |sid' source' H0 H1 H2 H3 H4
                 |sid' source' scraper error H0 H1 H2 H3 H4 H5
                 |sid' source' scraper sd H0 H1 H2 H3 H4 H5];
    try congruence;
    assert (sid' = sid) by congruence; subst sid';
    try (assert (source' = source) by congruence; subst source').
  - rewrite rows_added_same. simpl.
    rewrite (count_update_same sid _ _ source (circuit_open_data_id _) F).
    simpl. f_equal. lia.
  - rewrite rows_added_same. simpl.
    rewrite (count_update_same sid _ _ source (failure_data_id _) F).
    simpl. f_equal. lia.
  - unfold rows_added. simpl. rewrite F. simpl. f_equal. lia.
  - unfold on_error. rewrite rows_added_same. simpl.
    rewrite (findUnique_id _ _ _ F).
    rewrite (count_update_same sid _ _ source (failure_data_id _) F).
    simpl. f_equal. lia.
  - unfold on_error. rewrite rows_added_same. simpl.
    rewrite (findUnique_id _ _ _ F).
    rewrite (count_update_same sid _ _ source (failure_data_id _) F).
    simpl. f_equal. lia.
  - pose proof (findUnique_id _ _ _ F) as Hsid. subst sid.
    pose proof (count_committed (now e) d source sd F) as Hc.
    cbv zeta. destruct (0 <? snd _); [destruct (notificationQueue_add e)|];
      unfold on_error; committed_rows e d source sd; simpl store;
      simpl seriesSource.
    + now rewrite Hc.
    + rewrite findUnique_update_same by apply failure_data_id.
      now rewrite Hc.
    + now rewrite Hc.
Qed.

(** X4.  A notification job is submitted exactly when the run added
    chapter rows and returned normally.  The job then carries the number
    of rows added, the series and source of the row, and the key
    [notify-<series id>-<instant>]. *)
Theorem notification_iff_rows_added (e : env Num) (d : db Num)
    (data : CheckSourceData) :
  (forall jid s1 s2 n,
     In (NotificationAdded jid s1 s2 n) (trace (processSyncSource P e d data)) ->
     outcome (processSyncSource P e d data) = Queue.Returned /\
     n = rows_added d (processSyncSource P e d data) /\ 0 < n /\
     jid = "notify-" +:+ s1 +:+ "-" +:+ Js.of_Z (now e) /\
     Js.as_uuid (seriesSourceId data) = Some s2 /\
     exists source,
       SeriesSource.findUnique s2 (seriesSource d) = Some source /\
       s1 = SeriesSource.series_id source) /\
  (outcome (processSyncSource P e d data) = Queue.Returned ->
   0 < rows_added d (processSyncSource P e d data) ->
   exists sid source,
     Js.as_uuid (seriesSourceId data) = Some sid /\
     SeriesSource.findUnique sid (seriesSource d) = Some source /\
     trace (processSyncSource P e d data)
     = [ScrapeSeries (Js.toLowerCase (SeriesSource.source_name source))
          (SeriesSource.source_id source);
        NotificationAdded
          ("notify-" +:+ SeriesSource.series_id source +:+ "-"
             +:+ Js.of_Z (now e))
          (SeriesSource.series_id source) sid
          (rows_added d (processSyncSource P e d data))]).
Proof.
  pose proof (run_path e d data) as Hp.
  remember (processSyncSource P e d data) as r eqn:Er. clear Er.
  destruct Hp as [H0|sid H0 H1|sid source H0 H1 H2|sid source H0 H1 H2 H3
                 |sid source H0 H1 H2 H3 H4
                 |sid source H0 H1 H2 H3 H4
                 |sid source scraper error H0 H1 H2 H3 H4 H5
                 |sid source scraper sd H0 H1 H2 H3 H4 H5].
  1-5: split; [intros jid s1 s2 n Hin; simpl in Hin;
               intuition discriminate|];
       intros Ho Hn; try discriminate;
       rewrite ?rows_added_same in Hn; try lia;
       unfold rows_added in Hn; simpl in Hn; lia.
  - unfold on_error. split.
    + intros jid s1 s2 n Hin. simpl in Hin. intuition discriminate.
    + intros _ Hn. rewrite rows_added_same in Hn. lia.
  - unfold on_error. split.
    + intros jid s1 s2 n Hin. simpl in Hin. intuition discriminate.
    + intros _ Hn. rewrite rows_added_same in Hn. lia.
  - pose proof (findUnique_id _ _ _ H1) as Hsid.
    cbv zeta. destruct (0 <? snd _) eqn:Hpos;
      [destruct (notificationQueue_add e)|]; unfold on_error;
      committed_rows e d source sd.
    + apply Z.ltb_lt in Hpos. split.
      * intros jid s1 s2 n [Hin|[Hin|[]]]; [discriminate|].
        injection Hin as <- <- <- <-.
        repeat split; try assumption; try congruence.
        exists source. rewrite Hsid. now split.
      * intros _ _. exists sid, source. rewrite Hsid. simpl. auto.
    + split.
      * intros jid s1 s2 n Hin. simpl in Hin. intuition discriminate.
      * simpl. discriminate.
    + apply Z.ltb_ge in Hpos. split.
      * intros jid s1 s2 n Hin. simpl in Hin. intuition discriminate.
      * intros _ Hn. lia.
Qed.

Lemma scraper_errors_classified_aux (e : env Num) (d : db Num)
    (data : CheckSourceData) (sid : string) (source : SeriesSource.t)
    (scraper : Scraper Num) (error : thrown) :
  Js.as_uuid (seriesSourceId data) = Some sid ->
  SeriesSource.findUnique sid (seriesSource d) = Some source ->
  SeriesSource.failure_count source < MAX_CONSECUTIVE_FAILURES ->
  validateSourceUrl (hostname P) (SeriesSource.source_url source) = true ->
  scrapers (mangapark e) (mangadex e)
    (Js.toLowerCase (SeriesSource.source_name source))
      = Some (Adapter scraper) ->
  scraper (SeriesSource.source_id source) = Rejected error ->
  trace (processSyncSource P e d data)
    = [ScrapeSeries (Js.toLowerCase (SeriesSource.source_name source))
         (SeriesSource.source_id source);
       Log LogError] /\
  SeriesSource.findUnique sid
    (seriesSource (store (processSyncSource P e d data)))
    = Some (failure_data (now e) source).
Proof.
  intros H0 H1 H2 H3 H4 H5.
  rewrite (run_rejected P e d data sid source scraper error H0 H1 H2 H3 H4 H5).
  unfold on_error. simpl.
  rewrite (findUnique_id _ _ _ H1).
  rewrite findUnique_update_same by apply failure_data_id. rewrite H1.
  now split.
Qed.

(** X5.  When the scraper throws, the failure is counted and the check
    time stamped, the chapter table is left alone and nothing is
    submitted for notification; the run rethrows, and is therefore
    retried, unless the exception is a [ScraperError] flagged as not
    retryable, in which case the handler returns. *)
Theorem scraper_errors_are_classified (e : env Num) (d : db Num)
    (data : CheckSourceData) (sid : string) (source : SeriesSource.t)
    (scraper : Scraper Num) (error : thrown) :
  Js.as_uuid (seriesSourceId data) = Some sid ->
  SeriesSource.findUnique sid (seriesSource d) = Some source ->
  SeriesSource.failure_count source < MAX_CONSECUTIVE_FAILURES ->
  validateSourceUrl (hostname P) (SeriesSource.source_url source) = true ->
  scrapers (mangapark e) (mangadex e)
    (Js.toLowerCase (SeriesSource.source_name source))
      = Some (Adapter scraper) ->
  scraper (SeriesSource.source_id source) = Rejected error ->
  outcome (processSyncSource P e d data)
    = match error with
      | ScraperError false => Queue.Returned
      | _ => Queue.Threw
      end /\
  chapter (store (processSyncSource P e d data)) = chapter d /\
  SeriesSource.findUnique sid
    (seriesSource (store (processSyncSource P e d data)))
    = Some (failure_data (now e) source) /\
  trace (processSyncSource P e d data)
    = [ScrapeSeries (Js.toLowerCase (SeriesSource.source_name source))
         (SeriesSource.source_id source);
       Log LogError].
Proof.
  intros H0 H1 H2 H3 H4 H5.
  rewrite (run_rejected P e d data sid source scraper error H0 H1 H2 H3 H4 H5).
  unfold on_error. simpl.
  rewrite (findUnique_id _ _ _ H1).
  rewrite findUnique_update_same by apply failure_data_id. rewrite H1.
  repeat split. now destruct error as [[|]|].
Qed.

(** ** From healthy to open circuit *)

Lemma failed_attempt (e : env Num) (d : db Num) data sid source :
  Js.as_uuid (seriesSourceId data) = Some sid ->
  SeriesSource.findUnique sid (seriesSource d) = Some source ->
  SeriesSource.failure_count source < MAX_CONSECUTIVE_FAILURES ->
  validateSourceUrl (hostname P) (SeriesSource.source_url source) = true ->
  rejects source e ->
  scraper_called (trace (processSyncSource P e d data)) = true /\
  SeriesSource.findUnique sid
    (seriesSource (store (processSyncSource P e d data)))
    = Some (failure_data (now e) source).
Proof.
  intros H0 H1 H2 H3 (scraper & error & H4 & H5).
  destruct (scraper_errors_classified_aux e d data sid source scraper error
              H0 H1 H2 H3 H4 H5) as [Ht Hf].
  rewrite Ht. now split.
Qed.

(** X6.  Consecutive scraper failures open the circuit.  Starting from
    a source with an allow-listed URL and [n] recorded failures, [k]
    attempts in which the scraper throws, with [n + k <= 5], each reach
    the scraper and leave the count at [n + k]; once the count is 5 the
    next attempt no longer reaches the scraper, whatever the world. *)
Theorem failures_open_the_circuit (es : list (env Num)) :
  forall (d : db Num) data sid source,
  Js.as_uuid (seriesSourceId data) = Some sid ->
  SeriesSource.findUnique sid (seriesSource d) = Some source ->
  validateSourceUrl (hostname P) (SeriesSource.source_url source) = true ->
  Forall (rejects source) es ->
  SeriesSource.failure_count source + Z.of_nat (length es)
    <= MAX_CONSECUTIVE_FAILURES ->
  Forall (fun r => scraper_called (trace r) = true) (attempts P es d data) /\
  failure_count_of sid (after_attempts P es d data)
    = Some (SeriesSource.failure_count source + Z.of_nat (length es)) /\
  (SeriesSource.failure_count source + Z.of_nat (length es)
     = MAX_CONSECUTIVE_FAILURES ->
   forall e',
     scraper_called
       (trace (processSyncSource P e' (after_attempts P es d data) data))
     = false).
Proof.
  induction es as [|e rest IH]; intros d data sid source H0 H1 H3 Hrej Hlen.
  - simpl. split; [constructor|]. split.
    + unfold failure_count_of. rewrite H1. simpl. f_equal. lia.
    + intros Hfull e'.
      rewrite (run_circuit_open P e' d data sid source H0 H1) by (simpl in *; lia).
      reflexivity.
  - inversion Hrej as [|? ? Hr Hrest]; subst.
    assert (H2 : SeriesSource.failure_count source < MAX_CONSECUTIVE_FAILURES).
    { simpl length in Hlen. lia. }
    destruct (failed_attempt e d data sid source H0 H1 H2 H3 Hr) as [Hcall Hfind].
    destruct (IH (store (processSyncSource P e d data)) data sid
                (failure_data (now e) source) H0 Hfind H3 Hrest)
      as (Hall & Hfc & Hopen).
    { simpl. simpl length in Hlen. lia. }
    simpl attempts. simpl after_attempts. split; [now constructor|].
    split.
    + rewrite Hfc. simpl. f_equal. simpl length. lia.
    + intros Hfull. apply Hopen. simpl. simpl length in Hfull. lia.
Qed.

(** ** The scheduler does not touch the failure counter *)

Lemma scheduler_keeps_failure_count (now : Z) (addBulk : bool) (d : db Num)
    key :
  failure_count_of key (exec P d (Schedule now addBulk))
  = failure_count_of key d.
Proof.
  unfold failure_count_of, exec. simpl seriesSource.
  destruct (MasterSchedulerFacts.table_after_run now addBulk (seriesSource d))
    as [->|(g & ->)]; [reflexivity|].
  rewrite MasterSchedulerFacts.findUnique_map
    by (intros x; now rewrite !MasterSchedulerFacts.reschedule_id).
  destruct (SeriesSource.findUnique key (seriesSource d)); [|reflexivity].
  simpl. f_equal. unfold MasterScheduler.reschedule.
  repeat match goal with
         | |- context [if ?b then _ else _] => destruct b
         end; reflexivity.
Qed.

(** X7.  The pipeline never closes an open circuit.  Once a source has
    five or more recorded failures, no interleaving of scheduler runs and
    sync attempts (on this or any other source, in any world) changes its
    failure count, and every sync attempt on it returns without reaching
    a scraper. *)
Theorem open_circuit_is_permanent (steps : list (step (Num := Num))) :
  forall (d : db Num) (sid : string) (n : Z),
  failure_count_of sid d = Some n ->
  MAX_CONSECUTIVE_FAILURES <= n ->
  failure_count_of sid (List.fold_left (exec P) steps d) = Some n /\
  Forall (fun dr =>
            Js.as_uuid (seriesSourceId (fst dr)) = Some sid ->
            scraper_called (trace (snd dr)) = false /\
            outcome (snd dr) = Queue.Returned)
    (sync_runs P steps d).
Proof.
  induction steps as [|s steps IH]; intros d sid n Hn Hopen.
  - simpl. split; [exact Hn | constructor].
  - assert (Hkeep : failure_count_of sid (exec P d s) = Some n).
    { destruct s as [now|e data].
      - now rewrite scheduler_keeps_failure_count.
      - simpl exec.
        destruct (Js.as_uuid (seriesSourceId data)) as [sid'|] eqn:H0;
          [|now rewrite (run_invalid_payload P e d data H0)].
        destruct (String.eqb sid' sid) eqn:E.
        + apply String.eqb_eq in E. subst sid'.
          unfold failure_count_of in Hn.
          destruct (SeriesSource.findUnique sid (seriesSource d))
            as [source|] eqn:H1; [|discriminate].
          injection Hn as Hn. subst n.
          rewrite (run_circuit_open P e d data sid source H0 H1 Hopen).
          simpl store.
          now rewrite (failure_count_update_same sid _ _ _ source
                         (circuit_open_data_id _) H1).
        + apply String.eqb_neq in E.
          rewrite (other_sources_untouched P e d data sid' sid H0); auto. }
    destruct (IH (exec P d s) sid n Hkeep Hopen) as [Hfinal Hruns].
    simpl List.fold_left. split; [exact Hfinal|].
    destruct s as [now|e data]; simpl sync_runs; [exact Hruns|].
    constructor; [|exact Hruns].
    simpl fst. simpl snd. intros H0.
    unfold failure_count_of in Hn.
    destruct (SeriesSource.findUnique sid (seriesSource d))
      as [source|] eqn:H1; [|discriminate].
    injection Hn as Hn. subst n.
    rewrite (run_circuit_open P e d data sid source H0 H1 Hopen).
    now split.
Qed.

End Facts.

Lemma scraper_errors_are_classified_witness :
  outcome (processSyncSource Examples.P0 (MoreExamples.failing_env 1000 false)
             (Examples.sync_db Examples.dex) Examples.sync_job)
  = Queue.Returned.
Proof.
  exact (proj1 (scraper_errors_are_classified Examples.P0
                  (MoreExamples.failing_env 1000 false)
                  (Examples.sync_db Examples.dex) Examples.sync_job
                  Examples.uuid_a Examples.dex
                  (fun _ => Rejected (ScraperError false)) (ScraperError false)
                  eq_refl eq_refl eq_refl eq_refl eq_refl eq_refl)).
Defined.

Lemma chapter_count_tracks_table_witness :
  SeriesSource.source_chapter_count <$>
    SeriesSource.findUnique Examples.uuid_a
      (seriesSource (store (processSyncSource Examples.P0
                              (Examples.sync_env 1000 true)
                              (Examples.sync_db Examples.dex)
                              Examples.sync_job)))
  = Some (0 + rows_added (Examples.sync_db Examples.dex)
                (processSyncSource Examples.P0 (Examples.sync_env 1000 true)
                   (Examples.sync_db Examples.dex) Examples.sync_job)).
Proof.
  exact (chapter_count_tracks_table Examples.P0 (Examples.sync_env 1000 true)
           (Examples.sync_db Examples.dex) Examples.sync_job
           Examples.uuid_a Examples.dex eq_refl eq_refl).
Defined.


Lemma failing_env_rejects :
  Forall (rejects Examples.dex)
    [MoreExamples.failing_env 1000 true; MoreExamples.failing_env 2000 true].
Proof.
  repeat constructor;
    exists (fun _ => Rejected (ScraperError true)), (ScraperError true);
    split; reflexivity.
Qed.

Lemma failures_open_the_circuit_witness :
  failure_count_of Examples.uuid_a
    (after_attempts Examples.P0
       [MoreExamples.failing_env 1000 true; MoreExamples.failing_env 2000 true]
       (Examples.sync_db Examples.dex) Examples.sync_job)
  = Some (0 + 2).
Proof.
  refine (proj1 (proj2
    (failures_open_the_circuit Examples.P0
       [MoreExamples.failing_env 1000 true; MoreExamples.failing_env 2000 true]
       (Examples.sync_db Examples.dex) Examples.sync_job Examples.uuid_a
       Examples.dex eq_refl eq_refl eq_refl failing_env_rejects _))).
  vm_compute. discriminate.
Defined.

Lemma open_circuit_is_permanent_witness :
  failure_count_of Examples.uuid_a
    (List.fold_left (exec Examples.P0) MoreExamples.nightly
       (Examples.sync_db Examples.broken)) = Some 5.
Proof.
  exact (proj1 (open_circuit_is_permanent Examples.P0 MoreExamples.nightly
                  (Examples.sync_db Examples.broken) Examples.uuid_a 5
                  eq_refl (Z.le_refl 5))).
Defined.

End PipelineFacts.

(** ** Canonicalization worker: matching and table invariants *)

Module CatalogFacts.
Import Canonicalize Catalog.

Lemma find_app {A} (p : A -> bool) (l l' : list A) :
  List.find p (l ++ l')
  = match List.find p l with
    | Some x => Some x
    | None => List.find p l'
    end.
Proof.
  induction l as [|a l IH]; simpl; [reflexivity|].
  destruct (p a); [reflexivity | exact IH].
Qed.

Lemma find_map_same {A} (p : A -> bool) (f : A -> A) (l : list A) :
  (forall x, p (f x) = p x) ->
  List.find p (List.map f l) = f <$> List.find p l.
Proof.
  intros Hp. induction l as [|a l IH]; simpl; [reflexivity|].
  rewrite Hp. destruct (p a); [reflexivity | exact IH].
Qed.

Lemma is_link_refl_create t key sid j :
  is_link (source_name j) (source_id j) (link_create t key sid j) = true.
Proof. unfold is_link. simpl. now rewrite !String.eqb_refl. Qed.

Lemma is_link_update name sid t k j s :
  is_link name sid (if is_link (source_name j) (source_id j) s
                    then link_update t k j s else s)
  = is_link name sid s.
Proof.
  destruct (is_link (source_name j) (source_id j) s); reflexivity.
Qed.

(** After the upsert the link exists and points at the given series. *)
Lemma upsertSource_find (e : env) (k : string) (j : CanonicalizeJobData) rows :
  findSource (source_name j) (source_id j) (upsertSource e k j rows)
  = Some (match findSource (source_name j) (source_id j) rows with
          | Some l => link_update (now e) k j l
          | None => link_create (now e) (new_source_id e) k j
          end).
Proof.
  unfold upsertSource, findSource.
  destruct (List.find (is_link (source_name j) (source_id j)) rows)
    as [l|] eqn:E.
  - rewrite find_map_same by (intros x; apply is_link_update).
    rewrite E. simpl.
    apply List.find_some in E as [_ E]. now rewrite E.
  - rewrite find_app, E. simpl. now rewrite is_link_refl_create.
Qed.

Lemma upsertSource_length (e : env) (k : string) (j : CanonicalizeJobData) rows :
  length (upsertSource e k j rows)
  = match findSource (source_name j) (source_id j) rows with
    | Some _ => length rows
    | None => S (length rows)
    end.
Proof.
  unfold upsertSource.
  destruct (findSource (source_name j) (source_id j) rows).
  - apply List.length_map.
  - rewrite List.length_app. simpl. lia.
Qed.

Lemma findSeriesById_updateSeries (s s0 : Series.t) rows :
  In s0 rows -> Series.id s = Series.id s0 ->
  findSeriesById (Series.id s) (updateSeries s rows) = Some s.
Proof.
  intros Hin Hid. unfold findSeriesById, updateSeries.
  induction rows as [|a rows IH]; [destruct Hin|]. simpl.
  destruct (String.eqb (Series.id a) (Series.id s)) eqn:E.
  - simpl. now rewrite String.eqb_refl.
  - simpl. rewrite E. destruct Hin as [->|Hin].
    + rewrite Hid, String.eqb_refl in E. discriminate.
    + now apply IH.
Qed.

Lemma resolve_In (d : db) (j : CanonicalizeJobData) s0 :
  resolve d j = Some s0 -> In s0 (series d).
Proof.
  unfold resolve.
  set (by_id := if Js.truthy (mangadex_id j)
                then findByMangadexId (default "" (mangadex_id j)) (series d)
                else None).
  assert (Hid : forall x, by_id = Some x -> In x (series d)).
  { subst by_id. destruct (Js.truthy (mangadex_id j)); [|discriminate].
    intros x E. now apply List.find_some in E. }
  destruct by_id as [x|]; [intros [= <-]; now apply Hid|].
  destruct (findSource _ _ _) as [l|].
  - destruct (findSeriesById _ _) as [y|] eqn:E2.
    + intros [= <-]. now apply List.find_some in E2.
    + intros E3. now apply List.find_some in E3.
  - intros E3. now apply List.find_some in E3.
Qed.

(** A link to a stored series makes the cascade succeed. *)
Lemma resolve_by_link (d : db) (j : CanonicalizeJobData) l :
  findSource (source_name j) (source_id j) (seriesSource d) = Some l ->
  is_Some (findSeriesById (SeriesSource.series_id l) (series d)) ->
  is_Some (resolve d j).
Proof.
  intros Hl [x Hx]. unfold resolve. rewrite Hl, Hx.
  destruct (if Js.truthy (mangadex_id j) then _ else None); eauto.
Qed.

(** What the transaction leaves in the two tables. *)
Lemma transaction_tables (e : env) (d : db) (j : CanonicalizeJobData) :
  let s := snd (fst (transaction e d j)) in
  seriesSource (fst (fst (transaction e d j)))
    = upsertSource e (Series.id s) j (seriesSource d) /\
  is_Some (findSeriesById (Series.id s) (series (fst (fst (transaction e d j))))) /\
  match resolve d j with
  | Some s0 =>
      s = merge s0 j /\ snd (transaction e d j) = false /\
      series (fst (fst (transaction e d j))) = updateSeries (merge s0 j) (series d)
  | None =>
      s = create (new_series_id e) j /\ snd (transaction e d j) = true /\
      series (fst (fst (transaction e d j)))
        = series d ++ [create (new_series_id e) j]
  end.
Proof.
  unfold transaction. destruct (resolve d j) as [s0|] eqn:E; simpl.
  - split; [reflexivity|]. split; [|auto].
    rewrite (findSeriesById_updateSeries (merge s0 j) s0); eauto.
    now apply (resolve_In d j).
  - split; [reflexivity|]. split; [|auto].
    unfold findSeriesById. rewrite find_app.
    destruct (List.find _ (series d)); [eauto|]. simpl.
    rewrite String.eqb_refl. eauto.
Qed.

(** X8.  A job is never canonicalized into two series.  When a job has
    been processed, processing it again (or any job for the same source
    link) matches an existing series: the second run reports
    [created = false] and neither the series table nor the link table
    grows. *)
Theorem second_run_never_creates (e1 e2 : env) (d : db)
    (j j' : CanonicalizeJobData) :
  source_name j' = source_name j ->
  source_id j' = source_id j ->
  created <$> returned (processCanonicalize e2
                          (store (processCanonicalize e1 d j)) j')
    = Some false /\
  length (series (store (processCanonicalize e2
                           (store (processCanonicalize e1 d j)) j')))
    = length (series (store (processCanonicalize e1 d j))) /\
  length (seriesSource (store (processCanonicalize e2
                                 (store (processCanonicalize e1 d j)) j')))
    = length (seriesSource (store (processCanonicalize e1 d j))).
Proof.
  intros Hname Hsid.
  assert (Hstore : forall e d j,
            store (processCanonicalize e d j) = fst (fst (transaction e d j)) /\
            created <$> returned (processCanonicalize e d j)
              = Some (snd (transaction e d j))).
  { intros e d0 j0. unfold processCanonicalize.
    destruct (transaction e d0 j0) as [[d' s] c]. now split. }
  destruct (Hstore e1 d j) as [-> _].
  destruct (Hstore e2 (fst (fst (transaction e1 d j))) j') as [-> ->].
  destruct (transaction_tables e1 d j) as (Hlinks & Hrow & _).
  cbv zeta in Hlinks, Hrow.
  set (d1 := fst (fst (transaction e1 d j))) in *.
  set (s1 := snd (fst (transaction e1 d j))) in *.
  assert (Hres : is_Some (resolve d1 j')).
  { pose proof (upsertSource_find e1 (Series.id s1) j (seriesSource d)) as Hf.
    rewrite <- Hlinks, <- Hname, <- Hsid in Hf.
    apply (resolve_by_link d1 j' _ Hf).
    destruct (findSource (source_name j') (source_id j') (seriesSource d));
      exact Hrow. }
  destruct Hres as [s0 Hs0].
  destruct (transaction_tables e2 d1 j') as (Hlinks2 & _ & Hcase).
  rewrite Hs0 in Hcase. destruct Hcase as (_ & Hc & Hser).
  split; [now rewrite Hc|]. split.
  - rewrite Hser. unfold updateSeries. apply List.length_map.
  - cbv zeta in Hlinks2. rewrite Hlinks2, upsertSource_length.
    pose proof (upsertSource_find e1 (Series.id s1) j (seriesSource d)) as Hf.
    rewrite <- Hlinks in Hf. rewrite Hname, Hsid, Hf. reflexivity.
Qed.

Lemma second_run_never_creates_witness :
  created <$> returned (processCanonicalize (Examples.canon_env true)
                          (store (processCanonicalize (Examples.canon_env true)
                                    Examples.canon_db Examples.canon_job))
                          Examples.canon_job)
    = Some false.
Proof.
  exact (proj1 (second_run_never_creates (Examples.canon_env true)
                  (Examples.canon_env true) Examples.canon_db
                  Examples.canon_job Examples.canon_job eq_refl eq_refl)).
Defined.

Lemma dedupe_from_spec xs : forall seen,
  List.NoDup (dedupe_from seen xs) /\
  forall x, In x (dedupe_from seen xs) <-> In x xs /\ ~ In x seen.
Proof.
  induction xs as [|a xs IH]; intros seen; simpl.
  - split; [constructor|]. intros x. tauto.
  - destruct (Js.has seen a) eqn:E.
    + apply has_In in E. destruct (IH seen) as [Hnd Hin].
      split; [exact Hnd|]. intros x. rewrite Hin.
      split; [tauto|]. intros [[<-|Hx] Hs]; tauto.
    + apply has_false_In in E. destruct (IH (seen ++ [a])) as [Hnd Hin].
      split.
      * constructor; [|exact Hnd]. rewrite Hin, in_app_iff. simpl. tauto.
      * intros x. simpl. rewrite Hin, in_app_iff. simpl.
        destruct (string_dec a x) as [->|Hne]; [tauto|]. tauto.
Qed.

(** X9.  The alternate titles written by a run form a set: no title
    occurs twice, and a title is listed exactly when it was already an
    alternate title of the matched series, or is an alternate title of
    the job, or is the job's primary title. *)
Theorem merged_titles_form_the_union (s : Series.t) (k : string)
    (j : CanonicalizeJobData) :
  List.NoDup (Series.alternative_titles (merge s j)) /\
  (forall x, In x (Series.alternative_titles (merge s j)) <->
     In x (Series.alternative_titles s) \/ In x (alternative_titles j)
     \/ x = title j) /\
  List.NoDup (Series.alternative_titles (create k j)) /\
  (forall x, In x (Series.alternative_titles (create k j)) <->
     In x (alternative_titles j) \/ x = title j).
Proof.
  simpl. unfold mergedAltTitles, dedupe.
  destruct (dedupe_from_spec
              (Series.alternative_titles s ++ alternative_titles j ++ [title j])
              []) as [Hnd1 Hin1].
  destruct (dedupe_from_spec ([] ++ alternative_titles j ++ [title j]) [])
    as [Hnd2 Hin2].
  split; [exact Hnd1|]. split; [|split; [exact Hnd2|]].
  - intros x. rewrite Hin1, !in_app_iff. simpl. intuition.
  - intros x. rewrite Hin2. simpl. rewrite in_app_iff. simpl. intuition.
Qed.

Lemma set_or_keep_same {A} (old : option A) : set_or_keep old old = old.
Proof. now destruct old. Qed.

Lemma run_store (e : env) (d : db) (j : CanonicalizeJobData) :
  store (processCanonicalize e d j) = fst (fst (transaction e d j)) /\
  returned (processCanonicalize e d j)
    = Some (mkResult (Series.id (snd (fst (transaction e d j))))
              (snd (transaction e d j))).
Proof.
  unfold processCanonicalize.
  destruct (transaction e d j) as [[d' s] c]. now split.
Qed.

(** X10.  A run that matches a series rewrites that row in place: the
    row stored under the matched id afterwards keeps its id, title and
    type; its cover is the job's cover when the job has one and either
    the series had none or the job comes from mangadex, and the old
    cover otherwise; rows with another id are kept as they are; and the
    run reports the matched id with [created = false]. *)
Theorem matched_series_is_merged_in_place (e : env) (d : db)
    (j : CanonicalizeJobData) (s0 : Series.t) :
  resolve d j = Some s0 ->
  returned (processCanonicalize e d j) = Some (mkResult (Series.id s0) false) /\
  findSeriesById (Series.id s0) (series (store (processCanonicalize e d j)))
    = Some (merge s0 j) /\
  Series.id (merge s0 j) = Series.id s0 /\
  Series.title (merge s0 j) = Series.title s0 /\
  Series.type (merge s0 j) = Series.type s0 /\
  Series.cover_url (merge s0 j)
    = (if cover_replaced s0 j then cover_url j else Series.cover_url s0) /\
  (forall r, In r (series d) -> Series.id r <> Series.id s0 ->
             In r (series (store (processCanonicalize e d j)))).
Proof.
  intros Hres. destruct (run_store e d j) as [-> ->].
  destruct (transaction_tables e d j) as (_ & _ & Hcase).
  rewrite Hres in Hcase. destruct Hcase as (-> & -> & ->).
  split; [reflexivity|]. split.
  { apply (findSeriesById_updateSeries (merge s0 j) s0);
      [now apply (resolve_In d j) | reflexivity]. }
  split; [reflexivity|]. split; [reflexivity|]. split; [reflexivity|].
  split.
  - unfold merge, cover_replaced. simpl.
    destruct (Js.truthy (cover_url j)) eqn:Hc; simpl.
    + destruct (negb (Js.truthy (Series.cover_url s0))
                || String.eqb (source_name j) "mangadex");
        [|apply set_or_keep_same].
      destruct (cover_url j); [reflexivity | discriminate].
    + apply set_or_keep_same.
  - intros r Hr Hne. unfold updateSeries. apply in_map_iff. exists r.
    split; [|exact Hr]. simpl.
    destruct (String.eqb (Series.id r) (Series.id s0)) eqn:E; [|reflexivity].
    apply String.eqb_eq in E. contradiction.
Qed.

Lemma matched_series_is_merged_in_place_witness :
  returned (processCanonicalize (Examples.canon_env true) Examples.canon_db
              Examples.canon_job)
  = Some (mkResult (Series.id Examples.rated) false).
Proof.
  exact (proj1 (matched_series_is_merged_in_place (Examples.canon_env true)
                  Examples.canon_db Examples.canon_job Examples.rated
                  eq_refl)).
Defined.

(** X11.  The source link of a job after the run.  It exists, points at
    the series the run reports and carries the job's URL.  A link that
    existed keeps its id and all of its scheduling state (tier, next
    check, failure count, check and success stamps, chapter count); a
    new link starts in tier COLD with no failures and no next check.
    Links of other sources are left as they are. *)
Theorem link_after_run (e : env) (d : db) (j : CanonicalizeJobData) :
  exists l',
    findSource (source_name j) (source_id j)
      (seriesSource (store (processCanonicalize e d j))) = Some l' /\
    Some (SeriesSource.series_id l')
      = series_id <$> returned (processCanonicalize e d j) /\
    SeriesSource.source_url l' = source_url j /\
    match findSource (source_name j) (source_id j) (seriesSource d) with
    | Some l =>
        SeriesSource.id l' = SeriesSource.id l /\
        SeriesSource.sync_priority l' = SeriesSource.sync_priority l /\
        SeriesSource.next_check_at l' = SeriesSource.next_check_at l /\
        SeriesSource.failure_count l' = SeriesSource.failure_count l /\
        SeriesSource.last_checked_at l' = SeriesSource.last_checked_at l /\
        SeriesSource.last_success_at l' = SeriesSource.last_success_at l /\
        SeriesSource.source_chapter_count l'
          = SeriesSource.source_chapter_count l /\
        length (seriesSource (store (processCanonicalize e d j)))
          = length (seriesSource d)
    | None =>
        SeriesSource.sync_priority l' = "COLD" /\
        SeriesSource.failure_count l' = 0 /\
        SeriesSource.next_check_at l' = None /\
        length (seriesSource (store (processCanonicalize e d j)))
          = S (length (seriesSource d))
    end /\
    forall l0, In l0 (seriesSource d) ->
      is_link (source_name j) (source_id j) l0 = false ->
      In l0 (seriesSource (store (processCanonicalize e d j))).
Proof.
  destruct (run_store e d j) as [-> ->].
  destruct (transaction_tables e d j) as (Hlinks & _ & _).
  cbv zeta in Hlinks. rewrite Hlinks.
  rewrite upsertSource_find, upsertSource_length.
  eexists. split; [reflexivity|].
  destruct (findSource (source_name j) (source_id j) (seriesSource d))
    as [l|] eqn:E; simpl.
  - repeat split. intros l0 Hl0 Hno. unfold upsertSource. rewrite E.
    apply in_map_iff. exists l0. now rewrite Hno.
  - repeat split. intros l0 Hl0 Hno. unfold upsertSource. rewrite E.
    apply in_or_app. now left.
Qed.

(** ** Invariants of the two tables *)

Lemma by_id_hit (d : db) (j : CanonicalizeJobData) r :
  Js.truthy (mangadex_id j) = true ->
  In r (series d) -> Series.mangadex_id r = mangadex_id j ->
  exists x, resolve d j = Some x /\ Series.mangadex_id x = mangadex_id j.
Proof.
  intros Ht Hr Hm. unfold resolve. rewrite Ht.
  destruct (mangadex_id j) as [m|] eqn:Ej; [|discriminate]. simpl default.
  unfold findByMangadexId.
  destruct (List.find _ (series d)) as [x|] eqn:E.
  - exists x. split; [reflexivity|].
    apply List.find_some in E as [_ E].
    destruct (Series.mangadex_id x) as [m'|]; [|discriminate].
    apply String.eqb_eq in E. now subst.
  - apply (List.find_none _ _ E) in Hr. rewrite Hm in Hr.
    now rewrite String.eqb_refl in Hr.
Qed.

Lemma merge_catalog_id (s0 : Series.t) (j : CanonicalizeJobData) :
  Series.mangadex_id (merge s0 j) = Series.mangadex_id s0 \/
  (Js.truthy (Series.mangadex_id s0) = false /\
   Series.mangadex_id (merge s0 j) = mangadex_id j).
Proof.
  unfold merge. simpl. unfold Js.or.
  destruct (Js.truthy (Series.mangadex_id s0)) eqn:E.
  - left. now destruct (Series.mangadex_id s0).
  - destruct (mangadex_id j); [right | left]; auto.
Qed.

Lemma catalog_ids_step (e : env) (d : db) (j : CanonicalizeJobData) :
  unique_catalog_ids (series d) ->
  unique_catalog_ids (series (store (processCanonicalize e d j))).
Proof.
  intros Hu. destruct (run_store e d j) as [-> _].
  destruct (transaction_tables e d j) as (_ & _ & Hcase).
  destruct (resolve d j) as [s0|] eqn:Hres.
  - destruct Hcase as (_ & _ & ->).
    pose proof (resolve_In d j s0 Hres) as Hs0.
    assert (Hclash : forall b, In b (series d) ->
              Js.truthy (Series.mangadex_id (merge s0 j)) = true ->
              Series.mangadex_id (merge s0 j) = Series.mangadex_id b ->
              Series.id s0 = Series.id b).
    { intros b Hb Ht Hm. destruct (merge_catalog_id s0 j) as [Hk|[Hf Hk]].
      - rewrite Hk in Ht, Hm. now apply Hu.
      - rewrite Hk in Ht, Hm.
        destruct (by_id_hit d j b Ht Hb (eq_sym Hm)) as (x & Hx & Hxm).
        assert (x = s0) by congruence. subst x. congruence. }
    intros a' b' Ha' Hb' Ht Hm. unfold updateSeries in Ha', Hb'.
    apply in_map_iff in Ha' as (a & <- & Ha).
    apply in_map_iff in Hb' as (b & <- & Hb).
    change (Series.id (merge s0 j)) with (Series.id s0) in *.
    destruct (String.eqb (Series.id a) (Series.id s0)) eqn:Ea;
      destruct (String.eqb (Series.id b) (Series.id s0)) eqn:Eb;
      try reflexivity.
    + simpl. now apply Hclash.
    + simpl. symmetry. apply Hclash; [exact Ha | congruence | congruence].
    + now apply Hu.
  - destruct Hcase as (_ & _ & ->).
    intros a b Ha Hb Ht Hm.
    apply in_app_or in Ha as [Ha|[<-|[]]];
      apply in_app_or in Hb as [Hb|[<-|[]]]; try reflexivity.
    + now apply Hu.
    + simpl in Hm. exfalso.
      destruct (by_id_hit d j a) as (x & Hx & _); try congruence.
    + simpl in Ht, Hm. exfalso.
      destruct (by_id_hit d j b) as (x & Hx & _); try congruence.
Qed.

Lemma NoDup_snoc {A} (l : list A) (x : A) :
  List.NoDup l -> ~ In x l -> List.NoDup (l ++ [x]).
Proof.
  induction 1 as [|a l Ha Hnd IH]; simpl; intros Hx.
  - constructor; [tauto | constructor].
  - constructor.
    + rewrite in_app_iff. simpl. intros [H0|[H0|[]]]; [tauto|].
      apply Hx. now left.
    + apply IH. tauto.
Qed.

Lemma link_keys_step (e : env) (d : db) (j : CanonicalizeJobData) :
  List.NoDup (List.map link_key (seriesSource d)) ->
  List.NoDup (List.map link_key
                (seriesSource (store (processCanonicalize e d j)))).
Proof.
  intros Hnd. destruct (run_store e d j) as [-> _].
  destruct (transaction_tables e d j) as (Hlinks & _ & _).
  cbv zeta in Hlinks. rewrite Hlinks. unfold upsertSource.
  destruct (findSource (source_name j) (source_id j) (seriesSource d))
    as [l|] eqn:E.
  - rewrite List.map_map.
    erewrite List.map_ext; [exact Hnd|]. intros s. simpl.
    now destruct (is_link (source_name j) (source_id j) s).
  - rewrite List.map_app. simpl. apply NoDup_snoc; [exact Hnd|].
    intros Hin. apply in_map_iff in Hin as (s & Hk & Hs).
    apply (List.find_none _ _ E) in Hs. unfold is_link in Hs.
    unfold link_key in Hk. simpl in Hk. injection Hk as Hk1 Hk2.
    now rewrite Hk1, Hk2, !String.eqb_refl in Hs.
Qed.

(** X12.  Any sequence of canonicalization jobs, each in its own world,
    preserves the two uniqueness constraints: no two series rows with
    different ids share a non-empty external catalog id, and no two
    source links share a (source name, source id) pair. *)
Theorem uniqueness_is_preserved (jobs : list (env * CanonicalizeJobData)) :
  forall d : db,
  unique_catalog_ids (series d) ->
  List.NoDup (List.map link_key (seriesSource d)) ->
  unique_catalog_ids (series (run_all jobs d)) /\
  List.NoDup (List.map link_key (seriesSource (run_all jobs d))).
Proof.
  induction jobs as [|[e j] jobs IH]; intros d Hu Hl; simpl.
  - now split.
  - apply IH; [now apply catalog_ids_step | now apply link_keys_step].
Qed.

Lemma uniqueness_is_preserved_witness :
  unique_catalog_ids
    (series (run_all MoreExamples.discovered (mkDb [] []))).
Proof.
  refine (proj1 (uniqueness_is_preserved MoreExamples.discovered (mkDb [] [])
                   _ _)).
  - intros a b [].
  - simpl. constructor.
Defined.

End CatalogFacts.

(** ** Notification worker: who is notified *)

Module NotificationMore.
Import Notification NotificationFacts.

Lemma run_created_exact (now : Z) (d : db) (j : job) sid src count s :
  Js.as_uuid (seriesId (data j)) = Some sid ->
  Js.as_uuid (sourceId (data j)) = Some src ->
  Js.as_positive_int (newChapterCount (data j)) = Some count ->
  List.find (fun s => String.eqb (Series.id s) sid) (series d) = Some s ->
  created d (processNotification now d j)
  = notificationsToCreate now (job_id j) sid src (Series.title s) count
      (subscribers sid (libraryEntry d))
      (existingNotifications sid (now - WINDOW_MS) (notification d)) /\
  outcome (processNotification now d j) = Queue.Returned.
Proof.
  intros H0 H1 H2 H3. unfold created, processNotification, plan.
  rewrite H0, H1, H2, H3.
  destruct (subscribers sid (libraryEntry d)) as [|sub subs] eqn:Es.
  - simpl. now rewrite List.skipn_all.
  - change (length (sub :: subs) =? 0)%nat with false. cbv iota.
    destruct (notificationsToCreate _ _ _ _ _ _ _ _) as [|n ns] eqn:En.
    + simpl. now rewrite List.skipn_all.
    + change (length (n :: ns) =? 0)%nat with false. cbv iota. simpl.
      rewrite List.skipn_app, List.skipn_all, Nat.sub_diag. now split.
Qed.

(** X13.  For a valid job on an existing series, a user receives a
    notification from the run exactly when the user has a library entry
    for the series with new-chapter alerts switched on and has no
    NEW_CHAPTER notification for it created in the last five minutes.
    Every notification written carries the source id, the chapter count
    and the job id of the job, and a message that is plural exactly when
    the count exceeds one.  The handler returns. *)
Theorem due_subscribers_are_notified (now : Z) (d : db) (j : job)
    (sid src : string) (count : Z) (s : Series.t) :
  Js.as_uuid (seriesId (data j)) = Some sid ->
  Js.as_uuid (sourceId (data j)) = Some src ->
  Js.as_positive_int (newChapterCount (data j)) = Some count ->
  List.find (fun s => String.eqb (Series.id s) sid) (series d) = Some s ->
  (forall u,
     In u (List.map user_id (created d (processNotification now d j))) <->
     (exists sub, In sub (libraryEntry d) /\ entry_user_id sub = u /\
                  entry_series_id sub = sid /\ notify_new_chapters sub = true)
     /\ ~ (exists m, In m (notification d) /\ user_id m = u /\
                     in_window sid now m)) /\
  (forall n, In n (created d (processNotification now d j)) ->
     meta n = mkMeta src count (job_id j) /\
     title n = "New Chapter Available" /\
     message n
       = Js.of_Z count +:+ " new chapter" +:+ (if 1 <? count then "s" else "")
         +:+ " for " +:+ quote +:+ Series.title s +:+ quote +:+ "!") /\
  outcome (processNotification now d j) = Queue.Returned.
Proof.
  intros H0 H1 H2 H3.
  destruct (run_created_exact now d j sid src count s H0 H1 H2 H3) as [-> ->].
  split; [|split; [|reflexivity]].
  - intros u. rewrite notificationsToCreate_users, in_map_iff. split.
    + intros (sub & <- & Hs). apply filter_In in Hs as [Hs Hfresh].
      unfold subscribers in Hs. apply filter_In in Hs as [Hs Hopt].
      apply andb_true_iff in Hopt as [Hser Hon]. apply String.eqb_eq in Hser.
      split; [eauto 6|].
      intros (m & Hm & Hu & Hw). apply negb_true_iff, has_false_In in Hfresh.
      apply Hfresh. rewrite <- Hu. apply in_map.
      apply existingNotifications_In. unfold in_window in Hw. tauto.
    + intros [(sub & Hs & <- & Hser & Hon) Hnone]. exists sub.
      split; [reflexivity|]. apply filter_In. split.
      * unfold subscribers. apply filter_In. split; [exact Hs|].
        apply andb_true_iff. split; [now apply String.eqb_eq | exact Hon].
      * apply negb_true_iff, has_false_In. intros Hin.
        apply in_map_iff in Hin as (m & Hu & Hm).
        apply existingNotifications_In in Hm. apply Hnone. exists m.
        unfold in_window. tauto.
  - intros n Hn. unfold notificationsToCreate in Hn.
    apply in_map_iff in Hn as (sub & <- & _). simpl. auto.
Qed.

Lemma due_subscribers_are_notified_witness :
  outcome (processNotification 1000 Examples.notify_db
             (Examples.notify_job (Js.Int 2))) = Queue.Returned.
Proof.
  exact (proj2 (proj2 (due_subscribers_are_notified 1000 Examples.notify_db
                         (Examples.notify_job (Js.Int 2)) Examples.uuid_s
                         Examples.uuid_a 2 Examples.rated
                         eq_refl eq_refl eq_refl eq_refl))).
Defined.

End NotificationMore.

(** ** Heartbeat: written by the workers, read by the request path *)

Module HeartbeatFacts.
Import Heartbeat.

Lemma digits_acc (l : Decimal.uint) : forall p : positive,
  Redis.digits (Some (Zpos p)) (NilEmpty.string_of_uint l)
  = Some (Zpos (Pos.of_uint_acc l p)).
Proof.
  induction l as [|l IH|l IH|l IH|l IH|l IH|l IH|l IH|l IH|l IH|l IH];
    intros p; [reflexivity|..];
    cbn [NilEmpty.string_of_uint Redis.digits];
    match goal with
    | |- context [Redis.digit ?c] =>
        let v := eval vm_compute in (Redis.digit c) in
        change (Redis.digit c) with v
    end; cbv iota; cbn [default from_option id Pos.of_uint_acc];
    rewrite <- IH; f_equal; f_equal; lia.
Qed.

Lemma digits_zero (l : Decimal.uint) :
  Redis.digits (Some 0) (NilEmpty.string_of_uint l)
  = Some (Z.of_N (Pos.of_uint l)).
Proof.
  induction l as [|l IH|l IH|l IH|l IH|l IH|l IH|l IH|l IH|l IH|l IH];
    [reflexivity|exact IH|..];
    cbn [NilEmpty.string_of_uint Redis.digits];
    match goal with
    | |- context [Redis.digit ?c] =>
        let v := eval vm_compute in (Redis.digit c) in
        change (Redis.digit c) with v
    end; cbv iota; apply digits_acc.
Qed.

Lemma parse_digits (l : Decimal.uint) :
  l <> Decimal.Nil ->
  Redis.parseInt (NilEmpty.string_of_uint l)
  = Some (Z.of_N (Pos.of_uint l)).
Proof.
  intros Hl. rewrite <- digits_zero. destruct l; [contradiction|..];
    reflexivity.
Qed.

Lemma nonnil_string (l : Decimal.uint) :
  l <> Decimal.Nil ->
  NilZero.string_of_uint l = NilEmpty.string_of_uint l.
Proof. destruct l; [contradiction|..]; reflexivity. Qed.

Lemma parseInt_of_Z (z : Z) : Redis.parseInt (Js.of_Z z) = Some z.
Proof.
  unfold Js.of_Z. destruct z as [|p|p]; simpl Z.to_int.
  - reflexivity.
  - simpl NilZero.string_of_int.
    rewrite nonnil_string by apply DecimalPos.Unsigned.to_uint_nonnil.
    rewrite parse_digits by apply DecimalPos.Unsigned.to_uint_nonnil.
    now rewrite DecimalPos.Unsigned.of_to.
  - simpl NilZero.string_of_int.
    rewrite nonnil_string by apply DecimalPos.Unsigned.to_uint_nonnil.
    pose proof (parse_digits (Pos.to_uint p)
                  (DecimalPos.Unsigned.to_uint_nonnil p)) as Hp.
    rewrite DecimalPos.Unsigned.of_to in Hp.
    unfold Redis.parseInt in *. simpl Redis.skip_spaces.
    destruct (Pos.to_uint p) eqn:E;
      [now apply DecimalPos.Unsigned.to_uint_nonnil in E|..];
      simpl in Hp |- *; rewrite Hp; reflexivity.
Qed.

Lemma of_Z_truthy (z : Z) : Js.truthy (Some (Js.of_Z z)) = true.
Proof.
  unfold Js.of_Z. destruct z as [|p|p]; simpl Z.to_int; try reflexivity.
  simpl NilZero.string_of_int.
  rewrite nonnil_string by apply DecimalPos.Unsigned.to_uint_nonnil.
  destruct (Pos.to_uint p) eqn:E;
    [now apply DecimalPos.Unsigned.to_uint_nonnil in E|..]; reflexivity.
Qed.

Lemma online_after_beat (t t' : Z) (ready : bool) (key : option cell) :
  Redis.areWorkersOnline (view t' ready (setWorkerHeartbeat t true key))
  = ready && (t' <? t + 10000).
Proof.
  unfold Redis.areWorkersOnline, view, setWorkerHeartbeat, set_ex, get.
  cbn [Redis.redisReady Redis.heartbeat Redis.now value expires_at].
  destruct ready; [|reflexivity]. cbn [negb andb].
  replace (t + 10 * 1000) with (t + 10000) by lia.
  destruct (t' <? t + 10000) eqn:E; [|reflexivity].
  rewrite of_Z_truthy. cbn [negb].
  change (default "" (Some (Js.of_Z t))) with (Js.of_Z t).
  rewrite parseInt_of_Z. unfold Redis.STALE_MS. lia.
Qed.

(** X14.  The instant a worker writes as its heartbeat reads back as
    the same number, and a heartbeat written at instant [t] makes the
    workers count as online at instant [t'] exactly when [t' < t + 10 s],
    whatever the key held before: the key expires before the 15-second
    staleness test can fail.  With the connection not ready the answer is
    [false], and a rejected write leaves the key as it was. *)
Theorem heartbeat_lasts_ten_seconds (t t' : Z) (key : option cell) :
  Redis.parseInt (Js.of_Z t) = Some t /\
  Redis.areWorkersOnline (view t' true (setWorkerHeartbeat t true key))
    = (t' <? t + 10000) /\
  Redis.areWorkersOnline (view t' false (setWorkerHeartbeat t true key))
    = false /\
  view t' true (setWorkerHeartbeat t false key) = view t' true key.
Proof.
  split; [apply parseInt_of_Z|].
  split; [apply (online_after_beat t t' true)|].
  split; [apply (online_after_beat t t' false) | reflexivity].
Qed.

End HeartbeatFacts.

(** ** Search route: when discovery is enqueued *)

Module SearchMore.
Import Search.

Section Route.
Context {R : Type}.
Variables (w : world) (ip : string) (q : option string) (lim off : Z)
          (intent : string) (rs : list R) (count : option Z).

Let r := GET w ip q lim off intent rs count.

Lemma enqueued_gate :
  enqueued (snd r) = true <->
  eligible w q off intent = true /\
  Redis.areWorkersOnline (redis w) = true /\
  Queue.isQueueHealthy (jobCounts w) SATURATION = true /\
  checkSourceQueue_add w = true.
Proof.
  unfold r, GET, eligible.
  destruct (String.eqb intent "NOISE"), (Js.truthy q), (off =? 0);
    try (cbn; intuition congruence).
  destruct (isCoolingDown w) as [v|error].
  - destruct (Js.truthy v), (Redis.areWorkersOnline (redis w)),
      (Queue.isQueueHealthy (jobCounts w) SATURATION),
      (checkSourceQueue_add w), (cooldown_set w);
      cbn; intuition congruence.
  - cbn [andb negb snd]. split; [|intuition congruence].
    unfold enqueued. intros He. apply List.existsb_exists in He as (ev & Hev & He).
    apply in_map_iff in Hev as (lvl & <- & _). discriminate.
Qed.

(** X15.  The route submits a discovery job exactly when the request is
    eligible (a query on the first page, not noise, whose cooldown read
    returned and found nothing), the workers are online, the discovery
    queue is below the saturation threshold and the submission itself
    succeeds; it submits at most one job, sets the cooldown only after a
    submission, and answers [resolving] exactly when both the submission
    and the cooldown write succeeded.  Whenever the cooldown read is not
    reached or returns, the answer is a 200 carrying the local results
    and their count.  When the cooldown read is reached and rejects,
    nothing is submitted and the answer is the error response of
    [handleApiError], without results. *)
Theorem discovery_is_enqueued_only_through_the_gate :
  (enqueued (snd r) = true <->
   eligible w q off intent = true /\
   Redis.areWorkersOnline (redis w) = true /\
   Queue.isQueueHealthy (jobCounts w) SATURATION = true /\
   checkSourceQueue_add w = true) /\
  (length (List.filter (fun ev => match ev with
                                  | CheckSourceAdded _ _ _ _ _ => true
                                  | _ => false
                                  end) (snd r)) <= 1)%nat /\
  (forall key, In (CooldownSet key) (snd r) ->
     exists jobId text i trigger priority,
       snd r = [CheckSourceAdded jobId text i trigger priority;
                CooldownSet key]) /\
  ((exists a, fst r = Json a /\ status a = Some "resolving") <->
   enqueued (snd r) = true /\ cooldown_set w = true) /\
  (String.eqb intent "NOISE" = true \/
   Js.truthy q && (off =? 0) = false \/
   (exists v, isCoolingDown w = Cooldown v) ->
   exists a, fst r = Json a /\ http a = 200 /\ results a = rs /\
             total a = default 0 count) /\
  (forall error,
     String.eqb intent "NOISE" = false ->
     Js.truthy q && (off =? 0) = true ->
     isCoolingDown w = CooldownRejected error ->
     fst r = ApiFailure (fst (ApiUtils.handleApiError error))
               (snd (ApiUtils.handleApiError error)) /\
     enqueued (snd r) = false /\
     forall key, ~ In (CooldownSet key) (snd r)).
Proof.
  split; [exact enqueued_gate|].
  unfold r, GET.
  destruct (String.eqb intent "NOISE") eqn:En.
  { cbn. split; [lia|]. split; [intros key []|].
    split; [split; [intros (a & [= <-] & Hs); discriminate Hs
                   | intros [He _]; discriminate He]|].
    split; [eauto 6|]. intros error Hn. discriminate Hn. }
  destruct (Js.truthy q && (off =? 0)) eqn:Eq.
  2:{ cbn. split; [lia|]. split; [intros key []|].
      split; [split; [intros (a & [= <-] & Hs); discriminate Hs
                     | intros [He _]; discriminate He]|].
      split; [eauto 6|]. intros error _ Hq. discriminate Hq. }
  destruct (isCoolingDown w) as [v|error].
  - destruct (Js.truthy v), (Redis.areWorkersOnline (redis w)),
      (Queue.isQueueHealthy (jobCounts w) SATURATION),
      (checkSourceQueue_add w), (cooldown_set w);
      cbn;
      (split; [lia|]);
      (split; [intros key Hk; repeat destruct Hk as [Hk|Hk];
               try discriminate Hk; try contradiction;
               injection Hk as <-; eauto 10|]);
      (split; [split; [intros (a & [= <-] & Hs);
                       first [discriminate Hs | now split]
                      | intros [He Hc];
                        first [discriminate He | discriminate Hc
                              | eexists; split; reflexivity]]|]);
      (split; [eauto 6|]); intros error' _ _ Hc; discriminate Hc.
  - assert (Hlog : forall l : list log_level,
              enqueued (List.map Log l) = false /\
              (length (List.filter (fun ev => match ev with
                                              | CheckSourceAdded _ _ _ _ _ => true
                                              | _ => false
                                              end) (List.map Log l)) <= 1)%nat /\
              forall key, ~ In (CooldownSet key) (List.map Log l)).
    { intros l. induction l as [|x l (IH1 & IH2 & IH3)]; simpl.
      - repeat split; [lia | tauto].
      - repeat split; [exact IH1 | exact IH2|].
        intros key [Hk|Hk]; [discriminate | now apply (IH3 key)]. }
    destruct (Hlog (ApiUtils.handleApiError_log (NODE_ENV w) error))
      as (H1 & H2 & H3).
    cbn [fst snd]. split; [exact H2|].
    split; [intros key Hk; now apply H3 in Hk|].
    split; [split; [intros (a & Ha & _); discriminate Ha
                   | intros [He _]; rewrite H1 in He; discriminate He]|].
    split.
    + intros [Hn|[Hq|(v & Hv)]]; discriminate.
    + intros error' _ _ [= <-]. repeat split; assumption.
Qed.

End Route.

Lemma fresh_heartbeat_aux {R} (w : world) ip q lim off intent (rs : list R)
    count (t : Z) (key : option Heartbeat.cell) :
  Redis.heartbeat (redis w)
    = Redis.Value (Heartbeat.get (Redis.now (redis w))
                     (Heartbeat.setWorkerHeartbeat t true key)) ->
  enqueued (snd (GET w ip q lim off intent rs count)) = true ->
  Redis.now (redis w) < t + 10000.
Proof.
  intros Hb He. apply enqueued_gate in He as (_ & Hon & _).
  destruct (redis w) as [now rdy hb].
  cbn [Redis.now Redis.heartbeat] in Hb |- *. subst hb.
  pose proof (HeartbeatFacts.online_after_beat t now rdy key) as Hx.
  unfold Heartbeat.view in Hx. rewrite Hx in Hon.
  apply andb_true_iff in Hon as [_ Hon]. lia.
Qed.

(** X16.  Heartbeat and route together: if the heartbeat key the route
    reads is the one a worker wrote at instant [t] (nothing newer), then
    a search handled at instant [now] submits a discovery job only while
    [now < t + 10 s]. *)
Theorem search_enqueues_only_under_a_fresh_heartbeat {R} (w : world)
    (ip : string) (q : option string) (lim off : Z) (intent : string)
    (rs : list R) (count : option Z) (t : Z)
    (key : option Heartbeat.cell) :
  Redis.heartbeat (redis w)
    = Redis.Value (Heartbeat.get (Redis.now (redis w))
                     (Heartbeat.setWorkerHeartbeat t true key)) ->
  enqueued (snd (GET w ip q lim off intent rs count)) = true ->
  Redis.now (redis w) < t + 10000.
Proof.
  intros Hb He.
  exact (fresh_heartbeat_aux w ip q lim off intent rs count t key Hb He).
Qed.

Lemma search_enqueues_only_under_a_fresh_heartbeat_witness :
  Redis.now (redis MoreExamples.live_world) < 1000 + 10000.
Proof.
  exact (search_enqueues_only_under_a_fresh_heartbeat
           MoreExamples.live_world "10.0.0.1" (Some "solo") 20 0
           "PARTIAL_TITLE" (@nil nat) (Some 0) 1000 None eq_refl eq_refl).
Defined.

(** A dropped connection during the cooldown read: the route answers
    500 without the local results and submits nothing, although workers
    and queue are fine. *)
Example rejected_cooldown_read :
  GET MoreExamples.dropped_world "10.0.0.1" (Some "solo") 20 0
    "PARTIAL_TITLE" ["row-1"] (Some 1)
  = (ApiFailure 500 (Some "INTERNAL_ERROR"), [Log LogError; Log LogError]).
Proof. vm_compute. reflexivity. Qed.

End SearchMore.

(** ** Scheduler: no source is queued twice *)

Module SchedulerMore.
Import MasterScheduler MasterSchedulerFacts.

Lemma interval_of_min p : 15 * 60 * 1000 <= interval_of p.
Proof.
  unfold interval_of. destruct (String.eqb p "HOT"); [lia|].
  destruct (String.eqb p "WARM"); lia.
Qed.

(** X17.  With source ids unique, a source in a batch that the queue
    accepted from the run at instant [now] is not selected again by a run
    on the resulting table at any instant before [now + 15 min] (in
    particular not by the next two five-minute ticks), while every row
    that was due but did not fit the batch of 50 is still in the table,
    unchanged and due.  A run that throws (in its grouping pass, or
    because the queue rejects the batch) leaves no accepted batch and the
    table as it was, so that a run at the same instant selects the same
    rows. *)
Theorem selected_sources_rest_for_their_interval (now now' : Z)
    (addBulk : bool) (rows : list SeriesSource.t) :
  List.NoDup (List.map SeriesSource.id rows) ->
  now <= now' < now + 15 * 60 * 1000 ->
  (forall jobs j,
     batch (runMasterScheduler now addBulk rows) = Some jobs -> In j jobs ->
     ~ In (seriesSourceId j)
          (List.map SeriesSource.id
             (sourcesToUpdate now'
                (table (runMasterScheduler now addBulk rows))))) /\
  (forall s, In s rows -> due now s = true ->
     ~ In s (sourcesToUpdate now rows) ->
     In s (table (runMasterScheduler now addBulk rows)) /\ due now' s = true) /\
  (outcome (runMasterScheduler now addBulk rows) = Queue.Threw ->
   batch (runMasterScheduler now addBulk rows) = None /\
   sourcesToUpdate now (table (runMasterScheduler now addBulk rows))
     = sourcesToUpdate now rows).
Proof.
  intros Hnd Hnow.
  assert (Hcase : sourcesToUpdate now rows = [] \/
                  sourcesToUpdate now rows <> []).
  { destruct (sourcesToUpdate now rows); [left | right]; congruence. }
  split; [|split].
  - intros jobs j Hb Hj Hin.
    destruct (batch_of_run now addBulk rows jobs Hb) as (-> & Hne & -> & Hplain).
    apply in_map_iff in Hj as (s & <- & Hs). simpl in Hin.
    apply in_map_iff in Hin as (s' & Hid & Hs').
    apply selected_are_due in Hs' as [Hs' Hdue].
    rewrite (run_returns now rows Hne Hplain) in Hs'. cbn [table] in Hs'.
    apply in_map_iff in Hs' as (r & <- & Hr).
    rewrite (row_rescheduled now rows r Hnd Hr) in Hid, Hdue.
    destruct (Js.has _ (SeriesSource.id r)) eqn:E.
    + unfold due in Hdue. simpl in Hdue.
      pose proof (interval_of_min (SeriesSource.sync_priority r)). lia.
    + apply has_false_In in E. apply E. rewrite Hid. now apply in_map.
  - intros s Hs Hdue Hout.
    assert (Hdue' : due now' s = true).
    { unfold due in *. destruct (SeriesSource.next_check_at s);
        [lia | reflexivity]. }
    split; [|exact Hdue'].
    destruct (plain_or_not now rows) as [Hplain|(x & Hx & Hodd)].
    + destruct Hcase as [E|Hne];
        [now rewrite (run_nothing_due now addBulk rows E)|].
      destruct addBulk;
        [|now rewrite (run_rejected_batch now rows Hne Hplain)].
      * rewrite (run_returns now rows Hne Hplain). cbn [table].
        apply in_map_iff. exists s. split; [|exact Hs].
        rewrite (row_rescheduled now rows s Hnd Hs).
        destruct (Js.has _ (SeriesSource.id s)) eqn:E; [|reflexivity].
        exfalso. apply Hout.
        apply has_In, in_map_iff in E as (y & Hid & Hy).
        assert (y = s) as <-; [|exact Hy].
        apply (id_determines_row rows); auto.
        now apply (selected_are_due now rows).
    + now rewrite (run_throws now addBulk rows x Hx Hodd).
  - intros Hthrew.
    destruct (plain_or_not now rows) as [Hplain|(x & Hx & Hodd)].
    + destruct Hcase as [E|Hne].
      * rewrite (run_nothing_due now addBulk rows E) in Hthrew. discriminate.
      * destruct addBulk.
        -- rewrite (run_returns now rows Hne Hplain) in Hthrew. discriminate.
        -- now rewrite (run_rejected_batch now rows Hne Hplain).
    + now rewrite (run_throws now addBulk rows x Hx Hodd).
Qed.

Lemma selected_sources_rest_for_their_interval_witness :
  (forall jobs j,
     batch (runMasterScheduler 1000 true Examples.scheduled) = Some jobs ->
     In j jobs ->
     ~ In (seriesSourceId j)
          (List.map SeriesSource.id
             (sourcesToUpdate 301000
                (table (runMasterScheduler 1000 true Examples.scheduled))))) /\
  (forall s, In s Examples.scheduled -> due 1000 s = true ->
     ~ In s (sourcesToUpdate 1000 Examples.scheduled) ->
     In s (table (runMasterScheduler 1000 true Examples.scheduled)) /\
     due 301000 s = true) /\
  (outcome (runMasterScheduler 1000 true Examples.scheduled) = Queue.Threw ->
   batch (runMasterScheduler 1000 true Examples.scheduled) = None /\
   sourcesToUpdate 1000 (table (runMasterScheduler 1000 true Examples.scheduled))
     = sourcesToUpdate 1000 Examples.scheduled).
Proof.
  apply (selected_sources_rest_for_their_interval 1000 301000 true
           Examples.scheduled).
  - vm_compute. repeat constructor; simpl; intuition discriminate.
  - lia.
Defined.

(** The run at 1000 hands over the three HOT sources; at 301000 only the
    WARM source is selected. *)
Example next_tick_selects_the_rest :
  List.map seriesSourceId
    (default [] (batch (runMasterScheduler 1000 true Examples.scheduled)))
  = [Examples.uuid_a; Examples.uuid_b; Examples.uuid_c] /\
  List.map SeriesSource.id
    (sourcesToUpdate 301000
       (table (runMasterScheduler 1000 true Examples.scheduled)))
  = [Examples.uuid_s].
Proof. vm_compute. split; reflexivity. Qed.

Lemma length_append (a b : string) :
  String.length (a +:+ b) = (String.length a + String.length b)%nat.
Proof. induction a as [|c a IH]; simpl; [reflexivity | now rewrite IH]. Qed.

Lemma append_inj_l (t : string) : forall a b : string,
  a +:+ t = b +:+ t -> a = b.
Proof.
  induction a as [|c a IH]; intros [|c' b] H0.
  - reflexivity.
  - apply (f_equal String.length) in H0. rewrite !length_append in H0.
    simpl in H0. lia.
  - apply (f_equal String.length) in H0. rewrite !length_append in H0.
    simpl in H0. lia.
  - change (String c (a +:+ t) = String c' (b +:+ t)) in H0.
    injection H0 as -> H0. f_equal. now apply IH.
Qed.

Lemma NoDup_filter_ids (p : SeriesSource.t -> bool) rows :
  List.NoDup (List.map SeriesSource.id rows) ->
  List.NoDup (List.map SeriesSource.id (List.filter p rows)).
Proof.
  induction rows as [|a rows IH]; simpl; [trivial|].
  intros Hnd. inversion Hnd as [|? ? Hnotin Hrest]; subst.
  destruct (p a); simpl; [constructor|]; auto.
  intros Hin. apply Hnotin. apply in_map_iff in Hin as (x & Hid & Hx).
  apply filter_In in Hx as [Hx _]. rewrite <- Hid. now apply in_map.
Qed.

Lemma NoDup_firstn_ids (n : nat) : forall rows,
  List.NoDup (List.map SeriesSource.id rows) ->
  List.NoDup (List.map SeriesSource.id (List.firstn n rows)).
Proof.
  induction n as [|n IH]; intros [|a rows]; simpl; try constructor.
  - intros Hin. inversion H as [|? ? Hnotin Hrest]; subst. apply Hnotin.
    apply in_map_iff in Hin as (x & Hid & Hx). rewrite <- Hid.
    apply in_map. now apply In_firstn in Hx.
  - inversion H; subst. now apply IH.
Qed.

(** X18.  With source ids unique, the batch of one run names every
    selected source once: the source ids of its jobs are pairwise
    distinct, and so are the job ids, so that no job of the batch can be
    taken for a duplicate of another. *)
Theorem batch_names_each_source_once (now : Z) (addBulk : bool)
    (rows : list SeriesSource.t) (jobs : list job) :
  List.NoDup (List.map SeriesSource.id rows) ->
  batch (runMasterScheduler now addBulk rows) = Some jobs ->
  List.NoDup (List.map seriesSourceId jobs) /\
  List.NoDup (List.map jobId jobs) /\
  (0 < length jobs <= 50)%nat.
Proof.
  intros Hnd Hjobs.
  assert (Hsel : List.NoDup (List.map SeriesSource.id (sourcesToUpdate now rows))).
  { unfold sourcesToUpdate. now apply NoDup_firstn_ids, NoDup_filter_ids. }
  assert (Hlen : (length (sourcesToUpdate now rows) <= 50)%nat).
  { unfold sourcesToUpdate. apply List.firstn_le_length. }
  destruct (batch_of_run now addBulk rows jobs Hjobs) as (-> & Hne & _ & _).
  split; [|split].
  - rewrite List.map_map. exact Hsel.
  - rewrite List.map_map.
    rewrite <- (List.map_map SeriesSource.id
                  (fun i => "sync-" +:+ i +:+ "-" +:+ Js.of_Z now)).
    apply CheckSourceFacts.NoDup_map_inj; [|exact Hsel].
    intros x y Hxy. apply (CheckSourceFacts.append_inj "sync-") in Hxy.
    now apply append_inj_l in Hxy.
  - rewrite List.length_map.
    destruct (sourcesToUpdate now rows); [congruence | simpl in *; lia].
Qed.

Lemma batch_names_each_source_once_witness :
  List.NoDup (List.map jobId
                (List.map (job_of 1000)
                   (sourcesToUpdate 1000 Examples.scheduled))).
Proof.
  refine (proj1 (proj2 (batch_names_each_source_once 1000 true Examples.scheduled
                          (List.map (job_of 1000)
                             (sourcesToUpdate 1000 Examples.scheduled))
                          _ eq_refl))).
  vm_compute. repeat constructor; simpl; intuition discriminate.
Defined.

End SchedulerMore.

(** ** The rate limiter in front of the routes *)

Module RateLimitFacts.
Import RateLimit.

Lemma serve_cons key max w t ts s :
  serve key max w (t :: ts) s
  = (fst (checkRateLimit t key max w s)
       :: fst (serve key max w ts (snd (checkRateLimit t key max w s))),
     snd (serve key max w ts (snd (checkRateLimit t key max w s)))).
Proof.
  simpl. destruct (checkRateLimit t key max w s) as [ok s1]. simpl.
  now destruct (serve key max w ts s1).
Qed.

(** Inside an open window: [c] calls counted so far, reset at [r]. *)
Lemma serve_open key max w ts : forall s c r,
  s !! key = Some (mkEntry c r) ->
  List.Forall (fun t => t <= r) ts ->
  fst (serve key max w ts s)
  = repeat true (Nat.min (length ts) (Z.to_nat (max - c)))
    ++ repeat false
         (length ts - Nat.min (length ts) (Z.to_nat (max - c))).
Proof.
  induction ts as [|t ts IH]; intros s c r Hs Hts; [reflexivity|].
  inversion Hts as [|? ? Ht Hrest]; subst.
  rewrite serve_cons. unfold checkRateLimit at 1 2. rewrite Hs.
  cbn [resetTime count].
  destruct (r <? t) eqn:Er; [lia|].
  destruct (max <=? c) eqn:Em; cbn [fst snd].
  - rewrite (IH s c r Hs Hrest).
    replace (Z.to_nat (max - c)) with 0%nat by lia.
    rewrite !Nat.min_0_r. simpl. now rewrite Nat.sub_0_r.
  - rewrite (IH _ (c + 1) r (lookup_insert_eq _ _ _) Hrest).
    replace (Z.to_nat (max - c)) with (S (Z.to_nat (max - (c + 1)))) by lia.
    simpl length. rewrite <- Nat.succ_min_distr. reflexivity.
Qed.

Lemma admitted_repeat (k m : nat) :
  admitted (repeat true k ++ repeat false m) = k.
Proof.
  unfold admitted. induction k as [|k IH]; simpl.
  - induction m as [|m IHm]; simpl; [reflexivity | exact IHm].
  - now rewrite IH.
Qed.

(** X21.  A call that finds no entry for its key, or an expired one,
    opens a window of [windowMs]; of that call and the calls that follow
    it under the same key up to the reset instant, exactly the first
    [max(1, min(n, maxRequests))] are let through and all later ones are
    refused ([n] being the number of calls).  So a window never admits
    more than [maxRequests] calls, except that its opening call is always
    admitted, even for a limit below one. *)
Theorem window_admits_the_first_calls_only (key : string)
    (maxRequests windowMs t0 : Z) (ts : list Z) (s : gmap string RateLimitEntry) :
  (s !! key = None \/
   exists e, s !! key = Some e /\ resetTime e < t0) ->
  List.Forall (fun t => t <= t0 + windowMs) ts ->
  fst (serve key maxRequests windowMs (t0 :: ts) s)
  = repeat true
      (Nat.max 1 (Nat.min (S (length ts)) (Z.to_nat maxRequests)))
    ++ repeat false
         (S (length ts)
          - Nat.max 1 (Nat.min (S (length ts)) (Z.to_nat maxRequests))) /\
  admitted (fst (serve key maxRequests windowMs (t0 :: ts) s))
  = Nat.max 1 (Nat.min (S (length ts)) (Z.to_nat maxRequests)).
Proof.
  intros Hopen Hts.
  assert (Hfirst : checkRateLimit t0 key maxRequests windowMs s
                   = (true, <[key := mkEntry 1 (t0 + windowMs)]> s)).
  { unfold checkRateLimit. destruct Hopen as [->|(e & -> & He)];
      [reflexivity|].
    apply Z.ltb_lt in He. now rewrite He. }
  assert (Hlist :
    fst (serve key maxRequests windowMs (t0 :: ts) s)
    = repeat true
        (Nat.max 1 (Nat.min (S (length ts)) (Z.to_nat maxRequests)))
      ++ repeat false
           (S (length ts)
            - Nat.max 1 (Nat.min (S (length ts)) (Z.to_nat maxRequests)))).
  { rewrite serve_cons, Hfirst. cbn [fst snd].
    rewrite (serve_open key maxRequests windowMs ts _ 1 (t0 + windowMs)
               (lookup_insert_eq _ _ _) Hts).
    replace (Nat.max 1 (Nat.min (S (length ts)) (Z.to_nat maxRequests)))
      with (S (Nat.min (length ts) (Z.to_nat (maxRequests - 1)))) by lia.
    reflexivity. }
  split; [exact Hlist|]. rewrite Hlist. apply admitted_repeat.
Qed.

Lemma window_admits_the_first_calls_only_witness :
  admitted (fst (serve "search:10.0.0.1" 2 60000 [1000; 1500; 2000; 61000] ∅))
  = 2%nat.
Proof.
  refine (proj2 (window_admits_the_first_calls_only "search:10.0.0.1" 2 60000
                   1000 [1500; 2000; 61000] ∅ _ _)).
  - left. apply lookup_empty.
  - repeat constructor; lia.
Defined.

Lemma check_lookup now key max w (s1 s2 : gmap string RateLimitEntry) :
  s1 !! key = s2 !! key ->
  fst (checkRateLimit now key max w s1) = fst (checkRateLimit now key max w s2) /\
  snd (checkRateLimit now key max w s1) !! key
  = snd (checkRateLimit now key max w s2) !! key.
Proof.
  intros Hs. unfold checkRateLimit. rewrite Hs.
  destruct (s2 !! key) as [e|] eqn:E.
  - destruct (resetTime e <? now); cbn [fst snd].
    + now rewrite !lookup_insert_eq.
    + destruct (max <=? count e); cbn [fst snd];
        [now rewrite Hs, E | now rewrite !lookup_insert_eq].
  - cbn [fst snd]. now rewrite !lookup_insert_eq.
Qed.

Lemma check_other now key key' max w (s : gmap string RateLimitEntry) :
  key' <> key ->
  snd (checkRateLimit now key' max w s) !! key = s !! key.
Proof.
  intros Hk. unfold checkRateLimit.
  destruct (s !! key') as [e|]; [|now apply lookup_insert_ne].
  destruct (resetTime e <? now); [now apply lookup_insert_ne|].
  destruct (max <=? count e); [reflexivity | now apply lookup_insert_ne].
Qed.

Lemma check_cleanup now now' key max w (s : gmap string RateLimitEntry) :
  now' <= now ->
  fst (checkRateLimit now key max w (cleanup now' s))
  = fst (checkRateLimit now key max w s).
Proof.
  intros Hnow. unfold checkRateLimit, cleanup.
  destruct (s !! key) as [e|] eqn:E.
  - destruct (decide (resetTime e < now')) as [Hold|Hlive].
    + rewrite (proj2 (map_lookup_filter_None _ s key)).
      * assert ((resetTime e <? now) = true) as -> by lia. reflexivity.
      * right. intros x Hx. rewrite E in Hx. injection Hx as <-.
        simpl. tauto.
    + rewrite (map_lookup_filter_Some_2 _ s key e E Hlive).
      destruct (resetTime e <? now), (max <=? count e); reflexivity.
  - rewrite (proj2 (map_lookup_filter_None _ s key)); [reflexivity|].
    now left.
Qed.

(** X22.  The decision for a key depends on the entry of that key
    alone: it is the same after the periodic cleanup has run at any
    earlier instant, after any call under another key, and after another
    key has been cleared; clearing the key itself makes its next call
    pass. *)
Theorem decisions_depend_on_the_own_entry_only (now now' t : Z)
    (key key' : string) (maxRequests windowMs max' window' : Z)
    (s : gmap string RateLimitEntry) :
  now' <= now -> key' <> key ->
  fst (checkRateLimit now key maxRequests windowMs (cleanup now' s))
    = fst (checkRateLimit now key maxRequests windowMs s) /\
  fst (checkRateLimit now key maxRequests windowMs
         (snd (checkRateLimit t key' max' window' s)))
    = fst (checkRateLimit now key maxRequests windowMs s) /\
  fst (checkRateLimit now key maxRequests windowMs (clearRateLimit key' s))
    = fst (checkRateLimit now key maxRequests windowMs s) /\
  fst (checkRateLimit now key maxRequests windowMs (clearRateLimit key s))
    = true.
Proof.
  intros Hnow Hk.
  split; [now apply check_cleanup|].
  split; [apply check_lookup; now apply check_other|].
  split; [apply check_lookup; now apply lookup_delete_ne|].
  unfold checkRateLimit, clearRateLimit. now rewrite lookup_delete_eq.
Qed.

Lemma decisions_depend_on_the_own_entry_only_witness :
  fst (checkRateLimit 70000 "search:a" 1 60000
         (cleanup 65000 (<["search:a" := mkEntry 1 61000]> ∅)))
  = fst (checkRateLimit 70000 "search:a" 1 60000
           (<["search:a" := mkEntry 1 61000]> ∅)).
Proof.
  refine (proj1 (decisions_depend_on_the_own_entry_only 70000 65000 0
                   "search:a" "auth:a" 1 60000 5 60000
                   (<["search:a" := mkEntry 1 61000]> ∅) _ _)).
  - lia.
  - discriminate.
Defined.

End RateLimitFacts.
